(** * FalAI development server: a model of [server.py] and its properties

    [server.py] is one handler class, [FalAIHandler], derived from
    [http.server.SimpleHTTPRequestHandler], and a start-up script that runs
    it inside [socketserver.TCPServer].  The handler overrides two hooks:
    [do_GET] (endpoint discovery on the path [/endpoints], static files
    otherwise) and [end_headers] (CORS headers on every path that starts
    with [/endpoints]).

    The development is organised as the program is:

    - [Str]: the [str] operations the code uses;
    - [OS]: the working directory as a tree with symbolic links, plus the
      errors the operating system can report on [stat] and on [scandir];
    - [Pathlib], [Json]: [Path.exists], [Path.glob] and [json.dumps];
    - [TCPServer]: the accept loop, over the handler class it is given;
    - [BaseHTTPRequestHandler], [SimpleHTTPRequestHandler]: the inherited
      methods, written against the hook [self.end_headers] so that the
      override is the one they call;
    - [FalAIHandler]: the two methods of [server.py];
    - [Main]: the start-up script;
    - [Sample]: a concrete library and working directory;
    - the vocabulary of the properties, the lemmas on each method, and
      the properties themselves.

    Python [str] and [bytes] values are [string]s (code points below 256).
    A request is what [parse_request] made of the bytes of a connection:
    a command, a path and the header fields, or the error it answered the
    request line with.  Request lines carry an [HTTP/1.x] version (the
    header-less replies to [HTTP/0.9] are not modelled). *)

From Stdlib Require Import String Ascii List NArith ZArith Bool Arith Lia.
Import ListNotations.

Set Implicit Arguments.

Local Open Scope string_scope.
Local Open Scope list_scope.

(* ================================================================== *)
(** * [str] operations *)

Module Str.

(** [s.startswith(p)] *)
Definition startswith (s p : string) : bool := String.prefix p s.

(** [s == t] *)
Definition eqb (s t : string) : bool := String.eqb s t.

(** The last character of [s], if any. *)
Fixpoint last (s : string) : option ascii :=
  match s with
  | EmptyString => None
  | String c EmptyString => Some c
  | String _ rest => last rest
  end.

(** [s.endswith(c)] for a one-character suffix [c]. *)
Definition endswith_char (s : string) (c : ascii) : bool :=
  match last s with
  | Some d => Ascii.eqb c d
  | None => false
  end.

(** [s.split(sep)] for a one-character separator. *)
Fixpoint split (sep : ascii) (s : string) : list string :=
  match s with
  | EmptyString => [EmptyString]
  | String c rest =>
      if Ascii.eqb c sep then EmptyString :: split sep rest
      else match split sep rest with
           | w :: ws => String c w :: ws
           | [] => [String c EmptyString]
           end
  end.

(** [s.split(sep, 1)[0]]: the part of [s] before the first [sep]. *)
Fixpoint before (sep : ascii) (s : string) : string :=
  match s with
  | EmptyString => EmptyString
  | String c rest =>
      if Ascii.eqb c sep then EmptyString else String c (before sep rest)
  end.

(** [sep.join(ws)] *)
Fixpoint join (sep : string) (ws : list string) : string :=
  match ws with
  | [] => EmptyString
  | [w] => w
  | w :: rest => w ++ sep ++ join sep rest
  end.

(** Characters removed by [str.rstrip()] (the white space of Unicode
    below 256). *)
Definition isspace (c : ascii) : bool :=
  let n := N_of_ascii c in
  ((9 <=? n) && (n <=? 13) || (28 <=? n) && (n <=? 32)
   || (n =? 133) || (n =? 160))%N.

(** [s.rstrip()] *)
Fixpoint rstrip (s : string) : string :=
  match s with
  | EmptyString => EmptyString
  | String c rest =>
      match rstrip rest with
      | EmptyString => if isspace c then EmptyString else String c EmptyString
      | r => String c r
      end
  end.

(** [str(n)] for a non-negative integer. *)
Definition digit (n : N) : ascii := ascii_of_N (48 + n).

Fixpoint of_N_fuel (fuel : nat) (n : N) (acc : string) : string :=
  match fuel with
  | O => acc
  | S fuel' =>
      let acc' := String (digit (n mod 10)) acc in
      if (n <? 10)%N then acc' else of_N_fuel fuel' (n / 10) acc'
  end.

Definition of_N (n : N) : string :=
  of_N_fuel (S (N.to_nat (N.log2 n))) n EmptyString.

End Str.

(* ================================================================== *)
(** * Characters of a string *)

(** The character [c] occurs in [s]. *)
Fixpoint has_char (c : ascii) (s : string) : bool :=
  match s with
  | EmptyString => false
  | String d rest => Ascii.eqb d c || has_char c rest
  end.

(* ================================================================== *)
(** * Exceptions and results *)

(** The [errno] values that matter to [pathlib] and [open]. *)
Inductive errno : Type :=
| EPERM | ENOENT | EIO | EBADF | EACCES | ENOTDIR | EISDIR | ELOOP.

(** The exceptions that can travel through the program. *)
Inductive exn : Type :=
| OSError (e : errno)
| ValueError
| AttributeError (name : string)
| KeyboardInterrupt.

(** [isinstance(e, Exception)]: [KeyboardInterrupt] derives from
    [BaseException] only. *)
Definition is_Exception (e : exn) : bool :=
  match e with
  | OSError _ => true
  | ValueError => true
  | AttributeError _ => true
  | KeyboardInterrupt => false
  end.

(** [isinstance(e, PermissionError)] *)
Definition is_PermissionError (e : errno) : bool :=
  match e with
  | EPERM | EACCES => true
  | _ => false
  end.

Inductive result (A : Type) : Type :=
| Ok (a : A)
| Raise (e : exn).
Arguments Ok {A} a.
Arguments Raise {A} e.

(* ================================================================== *)
(** * The operating system: a directory tree and injected errors *)

Module OS.

(** A regular file carries its read permission, its modification time,
    the size [fstat] reports and the bytes a reader gets; a directory
    lists named entries in the order [scandir] reports them; a symbolic
    link carries the node it leads to, if it leads anywhere. *)
#[warnings="-register-all"]
Inductive node : Type :=
| File (readable : bool) (mtime : N) (size : N) (data : string)
| Dir (entries : list (string * node))
| Link (target : option node).

Fixpoint assoc (name : string) (es : list (string * node)) : option node :=
  match es with
  | [] => None
  | (k, v) :: rest => if String.eqb name k then Some v else assoc name rest
  end.

(** Following symbolic links until a file or a directory is reached.
    A link that leads nowhere is answered with [ENOENT] (a dangling
    link; the [ELOOP] of a circular one is treated alike by every
    caller here). *)
Fixpoint follow (n : node) : errno + node :=
  match n with
  | Link None => inl ENOENT
  | Link (Some t) => follow t
  | _ => inr n
  end.

(** Path resolution below the working directory; every component is
    followed when it is a link, the last one too. *)
Fixpoint resolve (n : node) (p : list string) : errno + node :=
  match follow n with
  | inl e => inl e
  | inr m =>
      match p with
      | [] => inr m
      | w :: ws =>
          match m with
          | Dir es =>
              match assoc w es with
              | None => inl ENOENT
              | Some c => resolve c ws
              end
          | _ => inl ENOTDIR
          end
      end
  end.

(** Path resolution that does not follow the last component. *)
Definition lresolve (n : node) (p : list string) : errno + node :=
  match p with
  | [] => inr n
  | _ =>
      match resolve n (removelast p) with
      | inl e => inl e
      | inr (Dir es) =>
          match assoc (List.last p EmptyString) es with
          | None => inl ENOENT
          | Some c => inr c
          end
      | inr _ => inl ENOTDIR
      end
  end.

Definition is_dir_node (n : node) : bool :=
  match n with
  | Dir _ => true
  | _ => false
  end.

Definition is_symlink (n : node) : bool :=
  match n with
  | Link _ => true
  | _ => false
  end.

(** The state of the machine the server runs on: the tree below the
    working directory, the paths on which [stat] fails although the
    tree is intact (an I/O error, a directory that lost its search
    permission, a stale network mount), and the directories that cannot
    be read although they are there (no read permission, an entry
    removed while the walk is under way). *)
Record t : Type := mk {
  root : node;
  fault : list string -> option errno;
  scandir_fault : list string -> option errno
}.

Definition no_fault : list string -> option errno := fun _ => None.

(** A machine without injected errors. *)
Definition healthy (r : node) : t := mk r no_fault no_fault.

(** A path that can be handed to the operating system: no word of it
    holds the character NUL.  For any other path [os.stat], [open] and
    [os.listdir] raise [ValueError] ("embedded null byte") before the
    operating system is asked. *)
Definition valid (p : list string) : bool :=
  forallb (fun w => negb (has_char "000" w)) p.

(** [os.stat(p)] for a valid path. *)
Definition stat (o : t) (p : list string) : errno + node :=
  match fault o p with
  | Some e => inl e
  | None => resolve (root o) p
  end.

(** [os.path.isdir(p)]: every [OSError] and the [ValueError] read as
    "no". *)
Definition path_isdir (o : t) (p : list string) : bool :=
  if valid p then
    match stat o p with
    | inr n => is_dir_node n
    | inl _ => false
    end
  else false.

(** [os.path.isfile(p)] *)
Definition path_isfile (o : t) (p : list string) : bool :=
  if valid p then
    match stat o p with
    | inr (File _ _ _ _) => true
    | _ => false
    end
  else false.

(** [os.path.islink(p)] *)
Definition path_islink (o : t) (p : list string) : bool :=
  if valid p then
    match fault o p with
    | Some _ => false
    | None =>
        match lresolve (root o) p with
        | inr n => is_symlink n
        | inl _ => false
        end
    end
  else false.

(** [open(p, 'rb')] followed by [os.fstat] and by reading to the end:
    the modification time and the size that [fstat] reports, and the
    bytes read.  A file without read permission is refused; so is a
    directory. *)
Definition open_rb (o : t) (p : list string) : result (N * N * string) :=
  if valid p then
    match stat o p with
    | inl e => Raise (OSError e)
    | inr (File true m sz d) => Ok (m, sz, d)
    | inr (File false _ _ _) => Raise (OSError EACCES)
    | inr (Dir _) => Raise (OSError EISDIR)
    | inr (Link _) => Raise (OSError ELOOP)
    end
  else Raise ValueError.

(** [os.listdir(p)] *)
Definition listdir (o : t) (p : list string) : result (list string) :=
  if valid p then
    match scandir_fault o p with
    | Some e => Raise (OSError e)
    | None =>
        match stat o p with
        | inl e => Raise (OSError e)
        | inr (Dir es) => Ok (map fst es)
        | inr _ => Raise (OSError ENOTDIR)
        end
    end
  else Raise ValueError.

End OS.

(* ================================================================== *)
(** * [pathlib]: [Path.exists], [Path.is_dir] and [Path.glob] *)

Module Pathlib.

(** A relative path is the list of its parts. *)
Definition Path : Type := list string.

(** [str(p)] on a POSIX system. *)
Definition str (p : Path) : string := Str.join "/" p.

(** [p._make_child_relpath(name)] *)
Definition make_child_relpath (p : Path) (name : string) : Path :=
  p ++ [name].

(** [_ignore_error]: errors that mean "this path is not there". *)
Definition ignore_error (e : errno) : bool :=
  match e with
  | ENOENT | ENOTDIR | EBADF | ELOOP => true
  | _ => false
  end.

(** The body of [Path.exists], given what [self.stat()] did. *)
Definition exists_of (st : errno + OS.node) : result bool :=
  match st with
  | inr _ => Ok true
  | inl e => if ignore_error e then Ok false else Raise (OSError e)
  end.

(** The body of [Path.is_dir], given what [self.stat()] did. *)
Definition is_dir_of (st : errno + OS.node) : result bool :=
  match st with
  | inr n => Ok (OS.is_dir_node n)
  | inl e => if ignore_error e then Ok false else Raise (OSError e)
  end.

Definition exists_ (o : OS.t) (p : Path) : result bool :=
  exists_of (OS.stat o p).

Definition is_dir (o : OS.t) (p : Path) : result bool :=
  is_dir_of (OS.stat o p).

(** A generator that has run to its end: the items it yielded and the
    exception that ended it, if one did. *)
Definition gen (A : Type) : Type := (list A * option exn)%type.

(** Run [g1], then [g2] unless [g1] ended in an exception. *)
Definition gen_seq {A : Type} (g1 g2 : gen A) : gen A :=
  match g1 with
  | (l1, Some e) => (l1, Some e)
  | (l1, None) => (l1 ++ fst g2, snd g2)
  end.

Fixpoint gen_concat {A : Type} (gs : list (gen A)) : gen A :=
  match gs with
  | [] => ([], None)
  | g :: rest => gen_seq g (gen_concat rest)
  end.

(** [try: ... except PermissionError: return] around a generator body. *)
Definition catch_PermissionError {A : Type} (g : gen A) : gen A :=
  match g with
  | (l, Some (OSError e)) =>
      if is_PermissionError e then (l, None) else g
  | _ => g
  end.

Definition path_eqb (p q : Path) : bool :=
  if list_eq_dec String.string_dec p q then true else false.

(** [if p not in yielded: yield p; yielded.add(p)] *)
Fixpoint unseen (yielded : list Path) (l : list Path) : list Path :=
  match l with
  | [] => []
  | p :: rest =>
      if existsb (path_eqb p) yielded then unseen yielded rest
      else p :: unseen (p :: yielded) rest
  end.

(** The pattern selectors.  A component with [*], [?] or a bracket is
    outside the model; the handler's pattern has none. *)
Inductive selector : Type :=
| Terminating
| Precise (name : string) (successor : selector)
| RecursiveWildcard (successor : selector).

(** [_make_selector(pattern_parts)] *)
Fixpoint make_selector (pattern_parts : list string) : selector :=
  match pattern_parts with
  | [] => Terminating
  | pat :: child_parts =>
      if Str.eqb pat "" then Terminating
      else if Str.eqb pat "**" then RecursiveWildcard (make_selector child_parts)
      else Precise pat (make_selector child_parts)
  end.

(** [self.dironly]: set when the selector has child parts. *)
Definition dironly (successor : selector) : bool :=
  match successor with
  | Terminating => false
  | _ => true
  end.

(** [entry.is_dir()] inside [try ... except OSError as e: if not
    _ignore_error(e): raise]: [scandir] has told the kind of an entry
    that is no link, a link is looked up with [stat]. *)
Definition entry_is_dir (o : OS.t) (path : Path) (entry : OS.node)
  : result bool :=
  match entry with
  | OS.Dir _ => Ok true
  | OS.File _ _ _ _ => Ok false
  | OS.Link _ =>
      is_dir_of (match OS.fault o path with
                 | Some e => inl e
                 | None => OS.follow entry
                 end)
  end.

(** [_RecursiveWildcardSelector._iterate_directories]: the directory
    itself, then, unless [scandir] fails, every entry that is a
    directory and no symbolic link, with what lies below it, depth
    first, in [scandir] order.  A [PermissionError] ends the generator
    of the directory it arose in, any other error travels on.  Each
    path comes with the node the walk found there. *)
Fixpoint iterate_directories (o : OS.t) (parent_path : Path) (n : OS.node)
  : gen (Path * OS.node) :=
  let below :=
    catch_PermissionError
      match n with
      | OS.Dir entries =>
          match OS.scandir_fault o parent_path with
          | Some e => ([], Some (OSError e))
          | None =>
              (fix each (entries : list (string * OS.node))
                 : gen (Path * OS.node) :=
                 match entries with
                 | [] => ([], None)
                 | (name, entry) :: entries' =>
                     let path := make_child_relpath parent_path name in
                     match entry_is_dir o path entry with
                     | Raise e => ([], Some e)
                     | Ok entry_is_dir_ =>
                         if entry_is_dir_ && negb (OS.is_symlink entry)
                         then gen_seq (iterate_directories o path entry)
                                      (each entries')
                         else each entries'
                     end
                 end) entries
          end
      | _ => ([], Some (OSError ENOTDIR))
      end in
  ((parent_path, n) :: fst below, snd below).

(** [stat] of the child [name] of a directory that the walk has reached:
    the injected errors apply to the full path, the entry is looked up
    in the directory the walk holds. *)
Definition stat_child (o : OS.t) (parent_path : Path) (n : OS.node)
           (name : string) : errno + OS.node :=
  match OS.fault o (make_child_relpath parent_path name) with
  | Some e => inl e
  | None => OS.resolve n [name]
  end.

(** [selector._select_from(parent_path, ...)].  The recursive selector
    runs its successor on each starting point as the directory
    generator yields it, so an exception of the directory generator
    comes after the successor has run on everything yielded before. *)
Fixpoint select_from_ (s : selector) (o : OS.t) (parent_path : Path)
         (n : OS.node) : gen Path :=
  match s with
  | Terminating => ([parent_path], None)
  | Precise name successor =>
      catch_PermissionError
        (let path := make_child_relpath parent_path name in
         let st := stat_child o parent_path n name in
         match (if dironly successor then is_dir_of st else exists_of st) with
         | Raise e => ([], Some e)
         | Ok false => ([], None)
         | Ok true =>
             match st with
             | inr c => select_from_ successor o path c
             | inl _ => ([], None)
             end
         end)
  | RecursiveWildcard successor =>
      catch_PermissionError
        (let starting_points := iterate_directories o parent_path n in
         let g :=
           gen_seq
             (gen_concat
                (map (fun sp => select_from_ successor o (fst sp) (snd sp))
                     (fst starting_points)))
             ([], snd starting_points) in
         (unseen [] (fst g), snd g))
  end.

(** [selector.select_from(parent_path)] *)
Definition select_from (s : selector) (o : OS.t) (parent_path : Path)
  : gen Path :=
  match is_dir o parent_path with
  | Raise e => ([], Some e)
  | Ok false => ([], None)
  | Ok true =>
      match OS.stat o parent_path with
      | inr n => select_from_ s o parent_path n
      | inl _ => ([], None)
      end
  end.

(** [self.glob(pattern)] *)
Definition glob (o : OS.t) (self : Path) (pattern : string) : gen Path :=
  select_from (make_selector (Str.split "/" pattern)) o self.

End Pathlib.


(* ================================================================== *)
(** * [json.dumps] on a list of strings, and a reader for its output *)

Module Json.

(** The double quote character. *)
Definition dquote : ascii := "034"%char.

Definition hexdigit (n : N) : ascii :=
  if (n <? 10)%N then ascii_of_N (48 + n) else ascii_of_N (87 + n).

(** ['{0:04x}'.format(n)] *)
Definition hex4 (n : N) : string :=
  String (hexdigit ((n / 4096) mod 16))
    (String (hexdigit ((n / 256) mod 16))
       (String (hexdigit ((n / 16) mod 16))
          (String (hexdigit (n mod 16)) EmptyString))).

(** The replacement [py_encode_basestring_ascii] makes for one
    character: the entries of [ESCAPE_DCT], printable ASCII kept as it
    is, a [\uXXXX] escape for everything else. *)
Definition escape (c : ascii) : string :=
  let n := N_of_ascii c in
  if (n =? 92)%N then "\\"
  else if (n =? 34)%N then String "\" (String dquote EmptyString)
  else if (n =? 8)%N then "\b"
  else if (n =? 12)%N then "\f"
  else if (n =? 10)%N then "\n"
  else if (n =? 13)%N then "\r"
  else if (n =? 9)%N then "\t"
  else if ((32 <=? n) && (n <=? 126))%N then String c EmptyString
  else "\u" ++ hex4 n.

Fixpoint escape_all (s : string) : string :=
  match s with
  | EmptyString => EmptyString
  | String c rest => escape c ++ escape_all rest
  end.

(** [encode_basestring_ascii(s)] *)
Definition encode_basestring_ascii (s : string) : string :=
  String dquote (escape_all s ++ String dquote EmptyString).

Fixpoint encode_rest (l : list string) : string :=
  match l with
  | [] => "]"
  | x :: rest => ", " ++ encode_basestring_ascii x ++ encode_rest rest
  end.

(** [json.dumps(lst)] for a list of [str]: the text [[]] when the list
    is empty, otherwise the items between brackets, separated by a
    comma and a space. *)
Definition dumps (lst : list string) : string :=
  match lst with
  | [] => "[]"
  | x :: rest => "[" ++ encode_basestring_ascii x ++ encode_rest rest
  end.

(** [s.encode()]: UTF-8 of code points below 256. *)
Fixpoint encode (s : string) : string :=
  match s with
  | EmptyString => EmptyString
  | String c rest =>
      let n := N_of_ascii c in
      if (n <? 128)%N then String c (encode rest)
      else String (ascii_of_N (192 + n / 64))
             (String (ascii_of_N (128 + n mod 64)) (encode rest))
  end.

(** ** A reader for JSON arrays of strings (RFC 8259, ASCII texts)

    The reader is a state machine over the characters of the text.  It
    accepts the texts made of an opening bracket, strings separated by
    commas, and a closing bracket, with white space allowed around each
    token, and returns the decoded strings, each a list of code
    units. *)

Inductive phase : Type :=
| Start                       (* before the opening bracket *)
| Open                        (* after the bracket: a string or the end *)
| InStr (cur : list N)        (* inside a string *)
| Esc (cur : list N)          (* after a backslash *)
| Hex (cur : list N) (k : nat) (v : N)  (* k hex digits still to read *)
| AfterStr                    (* after a string: comma or end *)
| AfterComma                  (* after a comma: a string *)
| Done.                       (* after the closing bracket *)

Definition is_ws (n : N) : bool :=
  ((n =? 32) || (n =? 9) || (n =? 10) || (n =? 13))%N.

Definition hexval (n : N) : option N :=
  if ((48 <=? n) && (n <=? 57))%N then Some (n - 48)%N
  else if ((97 <=? n) && (n <=? 102))%N then Some (n - 87)%N
  else if ((65 <=? n) && (n <=? 70))%N then Some (n - 55)%N
  else None.

Definition unescape (n : N) : option N :=
  if (n =? 34)%N then Some 34%N
  else if (n =? 92)%N then Some 92%N
  else if (n =? 47)%N then Some 47%N
  else if (n =? 98)%N then Some 8%N
  else if (n =? 102)%N then Some 12%N
  else if (n =? 110)%N then Some 10%N
  else if (n =? 114)%N then Some 13%N
  else if (n =? 116)%N then Some 9%N
  else None.

Definition state : Type := (phase * list (list N))%type.

(** One character of input: the next phase and the strings completed so
    far, or [None] when the text is not a JSON array of strings. *)
Definition step (st : state) (c : ascii) : option state :=
  let n := N_of_ascii c in
  let acc := snd st in
  match fst st with
  | Start =>
      if is_ws n then Some (Start, acc)
      else if (n =? 91)%N then Some (Open, acc) else None
  | Open =>
      if is_ws n then Some (Open, acc)
      else if (n =? 93)%N then Some (Done, acc)
      else if (n =? 34)%N then Some (InStr [], acc) else None
  | InStr cur =>
      if (n =? 34)%N then Some (AfterStr, acc ++ [cur])
      else if (n =? 92)%N then Some (Esc cur, acc)
      else if ((32 <=? n) && (n <? 128))%N then Some (InStr (cur ++ [n]), acc)
      else None
  | Esc cur =>
      if (n =? 117)%N then Some (Hex cur 4 0%N, acc)
      else match unescape n with
           | Some u => Some (InStr (cur ++ [u]), acc)
           | None => None
           end
  | Hex cur k v =>
      match hexval n with
      | None => None
      | Some d =>
          let v' := (16 * v + d)%N in
          match k with
          | 0%nat => None
          | 1%nat => Some (InStr (cur ++ [v']), acc)
          | S k' => Some (Hex cur k' v', acc)
          end
      end
  | AfterStr =>
      if is_ws n then Some (AfterStr, acc)
      else if (n =? 44)%N then Some (AfterComma, acc)
      else if (n =? 93)%N then Some (Done, acc) else None
  | AfterComma =>
      if is_ws n then Some (AfterComma, acc)
      else if (n =? 34)%N then Some (InStr [], acc) else None
  | Done =>
      if is_ws n then Some (Done, acc) else None
  end.

Fixpoint run (st : state) (s : string) : option state :=
  match s with
  | EmptyString => Some st
  | String c rest =>
      match step st c with
      | Some st' => run st' rest
      | None => None
      end
  end.

(** The strings of a JSON array of strings; [None] for any other text. *)
Definition loads_strings (text : string) : option (list (list N)) :=
  match run (Start, []) text with
  | Some (Done, acc) => Some acc
  | _ => None
  end.

(** Every character of [s] is ASCII. *)
Fixpoint all_ascii (s : string) : bool :=
  match s with
  | EmptyString => true
  | String c rest => (N_of_ascii c <? 128)%N && all_ascii rest
  end.

(** The code points of a [str]. *)
Fixpoint codes (s : string) : list N :=
  match s with
  | EmptyString => []
  | String c rest => N_of_ascii c :: codes rest
  end.

End Json.


(* ================================================================== *)
(** * The library, the wire and the requests *)

(** The zone of a date that [email.utils.parsedate_to_datetime] has
    read: none given, offset zero, or another offset. *)
Inductive tzinfo : Type :=
| NoZone
| UTC
| OtherZone.

(** What the model takes from the rest of the standard library as it is:
    formatting, tables and URL handling that the handler passes through
    without looking inside. *)
Record Lib : Type := mkLib {
  (** [self.version_string()], the value of the [Server] header *)
  version_string : string;
  (** [self.date_time_string(timestamp)] *)
  date_time_string : N -> string;
  (** [self.responses]: short and long message of a status code *)
  responses : N -> option (string * string);
  (** [error_message_format % {...}] encoded, from code, message, explain *)
  error_page : N -> string -> string -> string;
  (** [urllib.parse.unquote] as [translate_path] calls it *)
  unquote : string -> string;
  (** [urllib.parse.urlsplit(p).path] *)
  url_path : string -> string;
  (** [urlunsplit] of the parts of [p] with a slash added to the path *)
  url_add_slash : string -> string;
  (** [mimetypes.guess_type(p)[0]] *)
  mimetypes_guess_type : string -> option string;
  (** The encoded HTML page of [list_directory], from the request path
      and the entries with their [os.path.isdir] and [os.path.islink] *)
  listing_page : string -> list (string * bool * bool) -> string;
  (** [sys.getfilesystemencoding()] *)
  filesystemencoding : string;
  (** [repr(s)] of a [str], as the format [%r] prints it *)
  repr : string -> string;
  (** [email.utils.parsedate_to_datetime(s)]: the instant in seconds
      since the epoch and the zone, or [None] where the call raises *)
  parsedate_to_datetime : string -> option (Z * tzinfo);
  (** [unquote] begins with [if '%' not in string: return string] *)
  unquote_plain : forall u, has_char "%" u = false -> unquote u = u
}.

(** One line of the header block, and one [write] on the socket. *)
Inductive hline : Type :=
| StatusLine (version : string) (code : N) (message : string)
| Header (keyword value : string)
| EndLine.

Inductive chunk : Type :=
| Head (lines : list hline)
| Data (bytes : string).

(** What [parse_request] makes of the bytes of a connection.
    [Request]: the request line and the header block were accepted;
    [command], [path] and [headers] are what the handler object holds
    afterwards.  [Malformed]: the request line was refused, with the
    arguments of the [send_error] call that answers it (a bad version,
    a bad syntax, a line that is too long).  [NoRequest]: there was no
    request line, or an empty one. *)
Inductive request : Type :=
| Request (command path : string) (headers : list (string * string))
| Malformed (code : N) (message : option string)
| NoRequest.

(* ================================================================== *)
(** * [socketserver.TCPServer] *)

Module TCPServer.

(** What reaches the process while [serve_forever] waits: a connection
    with one request, read at clock [now] on machine state [o], or the
    interrupt signal. *)
Inductive event : Type :=
| Connection (now : N) (o : OS.t) (r : request)
| Interrupt.

Record server : Type := mkServer {
  server_address : string * N;
  listening : bool;
  is_shut_down : bool;                 (* the Event [__is_shut_down] *)
  shutdown_request : bool;             (* [__shutdown_request] *)
  replies : list (list chunk);         (* the writes on each connection *)
  tracebacks : list exn                (* printed by [handle_error] *)
}.

Inductive outcome : Type :=
| Returned
| Raised (e : exn)
| Waiting.                             (* inside [selector.select] *)

(** [TCPServer(server_address, RequestHandlerClass)]: bound and
    listening. *)
Definition __init__ (server_address : string * N) : server :=
  mkServer server_address true false false [] [].

Section Methods.

(** [self.RequestHandlerClass]: constructing a handler object for a
    connection serves the connection.  The constructor is given the
    server object itself; what comes back is how the constructor ended,
    what was written on the connection, and the server object as the
    handler left it. *)
Variable RequestHandlerClass :
  server -> N -> OS.t -> request -> result unit * list chunk * server.

(** [finish_request]: [self.RequestHandlerClass(request, client_address,
    self)] *)
Definition finish_request (now : N) (o : OS.t) (r : request) (s : server)
  : result unit * list chunk * server :=
  RequestHandlerClass s now o r.

Definition record_reply (s : server) (w : list chunk) : server :=
  mkServer (server_address s) (listening s) (is_shut_down s)
           (shutdown_request s) (replies s ++ [w]) (tracebacks s).

(** [handle_error]: a traceback on the error stream. *)
Definition handle_error (s : server) (e : exn) : server :=
  mkServer (server_address s) (listening s) (is_shut_down s)
           (shutdown_request s) (replies s) (tracebacks s ++ [e]).

(** [_handle_request_noblock] *)
Definition handle_request_noblock (now : N) (o : OS.t) (r : request)
           (s : server) : result unit * server :=
  match finish_request now o r s with
  | (Ok _, w, s') => (Ok tt, record_reply s' w)
  | (Raise e, w, s') =>
      if is_Exception e
      then (Ok tt, handle_error (record_reply s' w) e)
      else (Raise e, record_reply s' w)
  end.

(** The [while not self.__shutdown_request] loop. *)
Fixpoint serve_loop (events : list event) (s : server)
  : outcome * server :=
  if shutdown_request s then (Returned, s)
  else
    match events with
    | [] => (Waiting, s)
    | Interrupt :: _ => (Raised KeyboardInterrupt, s)
    | Connection now o r :: rest =>
        match handle_request_noblock now o r s with
        | (Ok _, s') => serve_loop rest s'
        | (Raise e, s') => (Raised e, s')
        end
    end.

(** [serve_forever()]: the flag is cleared, the loop runs, and the
    [finally] clause resets the request and sets the flag when the
    loop is left. *)
Definition serve_forever (events : list event) (s : server)
  : outcome * server :=
  let s := mkServer (server_address s) (listening s) false
                    (shutdown_request s) (replies s) (tracebacks s) in
  match serve_loop events s with
  | (Waiting, s') => (Waiting, s')
  | (out, s') =>
      (out, mkServer (server_address s') (listening s') true false
                     (replies s') (tracebacks s'))
  end.

End Methods.

(** [shutdown()]: sets the request and waits for the flag; [None] when
    the flag is not set, for then the wait does not end. *)
Definition shutdown (s : server) : option server :=
  if is_shut_down s
  then Some (mkServer (server_address s) (listening s) (is_shut_down s)
                      true (replies s) (tracebacks s))
  else None.

(** [server_close()] *)
Definition server_close (s : server) : server :=
  mkServer (server_address s) false (is_shut_down s) (shutdown_request s)
           (replies s) (tracebacks s).

End TCPServer.

(* ================================================================== *)
(** * Handler objects *)

(** The attributes of a handler object that the methods read or write.
    [server] is the server object the constructor was given; [command]
    and [path] are unset until [parse_request] assigns them; [time] is
    the clock reading during the request. *)
Record handler : Type := mkHandler {
  server : TCPServer.server;
  command : option string;
  path : option string;
  request_headers : list (string * string);   (* [self.headers] *)
  time : N;
  headers_buffer : list hline;
  wfile : list chunk;
  close_connection : bool
}.

(** A method body: it may change the handler and may raise. *)
Definition M (A : Type) : Type := handler -> result A * handler.

Definition ret {A} (a : A) : M A := fun h => (Ok a, h).

Definition bind {A B} (m : M A) (k : A -> M B) : M B :=
  fun h =>
    match m h with
    | (Ok a, h') => k a h'
    | (Raise e, h') => (Raise e, h')
    end.

Notation "x <- m ;; k" := (bind m (fun x => k))
  (at level 61, m at next level, right associativity).
Notation "m ;; k" := (bind m (fun _ => k))
  (at level 61, right associativity).

(** A call that cannot change the handler. *)
Definition lift {A} (r : result A) : M A := fun h => (r, h).

Definition get {A} (f : handler -> A) : M A := fun h => (Ok (f h), h).

(** Reading an attribute that may not have been assigned. *)
Definition attr {A} (name : string) (f : handler -> option A) : M A :=
  fun h =>
    match f h with
    | Some a => (Ok a, h)
    | None => (Raise (AttributeError name), h)
    end.

(** [self._headers_buffer.append(line)] *)
Definition buffer_append (l : hline) : M unit :=
  fun h => (Ok tt,
            mkHandler (server h) (command h) (path h) (request_headers h)
                      (time h) (headers_buffer h ++ [l]) (wfile h)
                      (close_connection h)).

Definition buffer_clear : M unit :=
  fun h => (Ok tt,
            mkHandler (server h) (command h) (path h) (request_headers h)
                      (time h) [] (wfile h) (close_connection h)).

(** [self.wfile.write(...)] *)
Definition wfile_write (c : chunk) : M unit :=
  fun h => (Ok tt,
            mkHandler (server h) (command h) (path h) (request_headers h)
                      (time h) (headers_buffer h) (wfile h ++ [c])
                      (close_connection h)).

Definition set_close_connection (b : bool) : M unit :=
  fun h => (Ok tt,
            mkHandler (server h) (command h) (path h) (request_headers h)
                      (time h) (headers_buffer h) (wfile h) b).

(** [self.command = c] *)
Definition set_command (c : option string) : M unit :=
  fun h => (Ok tt,
            mkHandler (server h) c (path h) (request_headers h)
                      (time h) (headers_buffer h) (wfile h)
                      (close_connection h)).

(** [self.command, self.path = command, path] and [self.headers =
    headers] *)
Definition set_request (c p : string) (hs : list (string * string))
  : M unit :=
  fun h => (Ok tt,
            mkHandler (server h) (Some c) (Some p) hs
                      (time h) (headers_buffer h) (wfile h)
                      (close_connection h)).

(** ASCII and Latin-1 lower case, as [str.lower()] on code points below
    256. *)
Definition lower_char (c : ascii) : ascii :=
  let n := N_of_ascii c in
  if ((65 <=? n) && (n <=? 90)
      || (192 <=? n) && (n <=? 222) && negb (n =? 215))%N
  then ascii_of_N (n + 32) else c.

Fixpoint lower (s : string) : string :=
  match s with
  | EmptyString => EmptyString
  | String c rest => String (lower_char c) (lower rest)
  end.

(** [self.headers[name]]: the value of the first field of that name,
    whatever the case of its letters; [None] when [name not in
    self.headers]. *)
Definition header_get (name : string) (hs : list (string * string))
  : option string :=
  match find (fun kv => Str.eqb (lower (fst kv)) (lower name)) hs with
  | Some kv => Some (snd kv)
  | None => None
  end.

Module BaseHTTPRequestHandler.

Definition protocol_version : string := "HTTP/1.0".

Section Methods.
Variable lib : Lib.

(** [send_response_only(code, message=None)] *)
Definition send_response_only (code : N) (message : option string)
  : M unit :=
  let message :=
    match message with
    | Some m => m
    | None =>
        match responses lib code with
        | Some (short, _) => short
        | None => ""
        end
    end in
  buffer_append (StatusLine protocol_version code message).

(** [send_header(keyword, value)] *)
Definition send_header (keyword value : string) : M unit :=
  buffer_append (Header keyword value) ;;
  if Str.eqb (lower keyword) "connection" then
    if Str.eqb (lower value) "close" then set_close_connection true
    else if Str.eqb (lower value) "keep-alive"
         then set_close_connection false
         else ret tt
  else ret tt.

(** [send_response(code, message=None)]; the line that
    [log_request] prints on the error stream is not kept. *)
Definition send_response (code : N) (message : option string) : M unit :=
  send_response_only code message ;;
  send_header "Server" (version_string lib) ;;
  now <- get time ;;
  send_header "Date" (date_time_string lib now).

(** [flush_headers()] *)
Definition flush_headers : M unit :=
  buf <- get headers_buffer ;;
  wfile_write (Head buf) ;;
  buffer_clear.

(** [end_headers()] of the base class *)
Definition end_headers : M unit :=
  buffer_append EndLine ;;
  flush_headers.

(** The methods below call [self.end_headers()], which a subclass may
    have replaced. *)
Variable self_end_headers : M unit.

(** [send_error(code, message=None, explain=None)] *)
Definition send_error (code : N) (message : option string) : M unit :=
  let '(shortmsg, longmsg) :=
    match responses lib code with
    | Some sl => sl
    | None => ("???", "???")
    end in
  let message :=
    match message with Some m => m | None => shortmsg end in
  let explain := longmsg in
  send_response code (Some message) ;;
  send_header "Connection" "close" ;;
  let has_body :=
    ((200 <=? code) && negb ((code =? 204) || (code =? 205) || (code =? 304)))%N in
  let body := error_page lib code message explain in
  (if has_body then
     send_header "Content-Type" "text/html;charset=utf-8" ;;
     send_header "Content-Length" (Str.of_N (N.of_nat (String.length body)))
   else ret tt) ;;
  self_end_headers ;;
  cmd <- get command ;;
  if negb (match cmd with Some c => Str.eqb c "HEAD" | None => false end)
     && has_body && negb (Str.eqb body "")
  then wfile_write (Data body)
  else ret tt.

(** [parse_request()]: the decisions on the bytes read are in the
    request [r]; what the method does to the handler object is here.
    A refused request line is answered with [send_error] while
    [self.path] is still unset. *)
Definition parse_request (r : request) : M bool :=
  set_command None ;;
  set_close_connection true ;;
  match r with
  | NoRequest => ret false
  | Malformed code message =>
      send_error code message ;;
      ret false
  | Request command path headers =>
      set_request command path headers ;;
      ret true
  end.

End Methods.

End BaseHTTPRequestHandler.

Module SimpleHTTPRequestHandler.

Import BaseHTTPRequestHandler.

(** [posixpath.normpath(path)] *)
Definition normpath_step (initial_slashes : bool)
           (new_comps : list string) (comp : string) : list string :=
  if Str.eqb comp "" || Str.eqb comp "." then new_comps
  else if negb (Str.eqb comp "..")
          || (negb initial_slashes && match new_comps with [] => true | _ => false end)
          || match List.last (map Some new_comps) None with
             | Some l => Str.eqb l ".."
             | None => false
             end
       then new_comps ++ [comp]
       else removelast new_comps.

Definition normpath (path : string) : string :=
  if Str.eqb path "" then "."
  else
    let initial_slashes :=
      if Str.startswith path "/" then
        if Str.startswith path "//" && negb (Str.startswith path "///")
        then "//" else "/"
      else "" in
    let comps := Str.split "/" path in
    let new_comps :=
      fold_left (normpath_step (negb (Str.eqb initial_slashes ""))) comps [] in
    let path := (initial_slashes ++ Str.join "/" new_comps)%string in
    if Str.eqb path "" then "." else path.

(** The extension [posixpath.splitext] finds in the last component of a
    path: from the last dot on, unless only dots come before it. *)
Fixpoint ext_from (seen_other : bool) (s : string) : string :=
  match s with
  | EmptyString => EmptyString
  | String c rest =>
      let isdot := Ascii.eqb c "." in
      match ext_from (seen_other || negb isdot) rest with
      | EmptyString =>
          if isdot && seen_other then s else EmptyString
      | e => e
      end
  end.

Definition splitext_ext (name : string) : string := ext_from false name.

(** [self.extensions_map] *)
Definition extensions_map (ext : string) : option string :=
  if Str.eqb ext ".gz" then Some "application/gzip"
  else if Str.eqb ext ".Z" then Some "application/octet-stream"
  else if Str.eqb ext ".bz2" then Some "application/x-bzip2"
  else if Str.eqb ext ".xz" then Some "application/x-xz"
  else None.

Section Methods.
Variable lib : Lib.
Variable o : OS.t.

(** [translate_path(path)]: the words below [self.directory] that the
    URL path names, and whether the result ends in a slash.  (The
    joined string ends in a slash exactly when the flag is set, the
    working directory not being [/].) *)
Definition translate_path (path : string) : list string * bool :=
  let path := Str.before "?" path in
  let path := Str.before "#" path in
  let trailing_slash := Str.endswith_char (Str.rstrip path) "/" in
  let path := unquote lib path in
  let path := normpath path in
  let words := Str.split "/" path in
  let words := filter (fun w => negb (Str.eqb w "")) words in
  (filter (fun word => negb (Str.eqb word "." || Str.eqb word "..")) words,
   trailing_slash).

(** [guess_type(path)] *)
Definition guess_type (fs_path : list string) : string :=
  let ext := splitext_ext (List.last fs_path "") in
  match extensions_map ext with
  | Some t => t
  | None =>
      match extensions_map (lower ext) with
      | Some t => t
      | None =>
          match mimetypes_guess_type lib (Pathlib.str fs_path) with
          | Some guess => guess
          | None => "application/octet-stream"
          end
      end
  end.

(** The test of [send_head] on the cache of the browser: the request
    has an [If-Modified-Since] field and no [If-None-Match] field, the
    date can be read and is in universal time (or names no zone), and
    the file has not changed after it. *)
Definition not_modified (hs : list (string * string)) (mtime : N) : bool :=
  match header_get "If-Modified-Since" hs, header_get "If-None-Match" hs with
  | Some since, None =>
      match parsedate_to_datetime lib since with
      | Some (ims, NoZone) | Some (ims, UTC) => (Z.of_N mtime <=? ims)%Z
      | _ => false
      end
  | _, _ => false
  end.

Variable self_end_headers : M unit.

(** [list_directory(path)] *)
Definition list_directory (fs_path : list string) : M (option string) :=
  match OS.listdir o fs_path with
  | Raise (OSError _) =>
      send_error lib self_end_headers 404
                 (Some "No permission to list directory") ;;
      ret None
  | Raise e => lift (Raise e)
  | Ok names =>
      p <- attr "path" path ;;
      let encoded :=
        listing_page lib p
          (map (fun name => (name, OS.path_isdir o (fs_path ++ [name]),
                             OS.path_islink o (fs_path ++ [name])))
               names) in
      send_response lib 200 None ;;
      send_header "Content-type"
                  ("text/html; charset=" ++ filesystemencoding lib) ;;
      send_header "Content-Length"
                  (Str.of_N (N.of_nat (String.length encoded))) ;;
      self_end_headers ;;
      ret (Some encoded)
  end.

(** The part of [send_head] that opens and announces a file.  Only an
    [OSError] of [open] is caught and answered 404; the [ValueError]
    of a path with a NUL character travels on. *)
Definition send_file_head (fs_path : list string) (trailing_slash : bool)
  : M (option string) :=
  let ctype := guess_type fs_path in
  if trailing_slash then
    send_error lib self_end_headers 404 (Some "File not found") ;;
    ret None
  else
    match OS.open_rb o fs_path with
    | Raise (OSError _) =>
        send_error lib self_end_headers 404 (Some "File not found") ;;
        ret None
    | Raise e => lift (Raise e)
    | Ok (mtime, size, data) =>
        hs <- get request_headers ;;
        if not_modified hs mtime then
          send_response lib 304 None ;;
          self_end_headers ;;
          ret None
        else
          send_response lib 200 None ;;
          send_header "Content-type" ctype ;;
          send_header "Content-Length" (Str.of_N size) ;;
          send_header "Last-Modified" (date_time_string lib mtime) ;;
          self_end_headers ;;
          ret (Some data)
    end.

(** [send_head()]: the status line and headers; the bytes to copy when
    there is a body. *)
Definition send_head : M (option string) :=
  p <- attr "path" path ;;
  let '(fs_path, trailing_slash) := translate_path p in
  if OS.path_isdir o fs_path then
    if negb (Str.endswith_char (url_path lib p) "/") then
      send_response lib 301 None ;;
      send_header "Location" (url_add_slash lib p) ;;
      send_header "Content-Length" "0" ;;
      self_end_headers ;;
      ret None
    else if OS.path_isfile o (fs_path ++ ["index.html"]) then
      send_file_head (fs_path ++ ["index.html"]) false
    else if OS.path_isfile o (fs_path ++ ["index.htm"]) then
      send_file_head (fs_path ++ ["index.htm"]) false
    else list_directory fs_path
  else send_file_head fs_path trailing_slash.

(** [copyfile(source, outputfile)]: [shutil.copyfileobj] writes what
    it reads and nothing for an empty source. *)
Definition copyfile (source : string) : M unit :=
  if Str.eqb source "" then ret tt else wfile_write (Data source).

(** [do_GET()] of the base class *)
Definition do_GET : M unit :=
  f <- send_head ;;
  match f with
  | Some source => copyfile source
  | None => ret tt
  end.

(** [do_HEAD()] *)
Definition do_HEAD : M unit :=
  f <- send_head ;;
  ret tt.

End Methods.

End SimpleHTTPRequestHandler.

(* ================================================================== *)
(** * [FalAIHandler]: the two methods of [server.py] *)

Module FalAIHandler.

Section Methods.
Variable lib : Lib.
Variable o : OS.t.

(** [end_headers]: CORS headers for API requests, then the base
    class. *)
Definition end_headers : M unit :=
  p <- attr "path" path ;;
  (if Str.startswith p "/endpoints" then
     BaseHTTPRequestHandler.send_header "Access-Control-Allow-Origin" "*" ;;
     BaseHTTPRequestHandler.send_header
       "Access-Control-Allow-Methods" "GET, POST, OPTIONS" ;;
     BaseHTTPRequestHandler.send_header
       "Access-Control-Allow-Headers" "Content-Type, Authorization"
   else ret tt) ;;
  BaseHTTPRequestHandler.end_headers.

(** The loop [for openapi_file in g: endpoints.append(str(openapi_file))]
    started from [endpoints]: the list after the loop, or the
    exception that came out of the generator. *)
Definition collect (endpoints : list string) (g : Pathlib.gen Pathlib.Path)
  : result (list string) :=
  match snd g with
  | Some e => Raise e
  | None => Ok (endpoints ++ map Pathlib.str (fst g))
  end.

(** [do_GET] *)
Definition do_GET : M unit :=
  p <- attr "path" path ;;
  if Str.eqb p "/endpoints" then
    BaseHTTPRequestHandler.send_response lib 200 None ;;
    BaseHTTPRequestHandler.send_header "Content-type" "application/json" ;;
    BaseHTTPRequestHandler.send_header "Access-Control-Allow-Origin" "*" ;;
    end_headers ;;
    let endpoints := [] in
    let endpoints_dir : Pathlib.Path := ["endpoints"] in
    present <- lift (Pathlib.exists_ o endpoints_dir) ;;
    endpoints <-
      (if present : bool then
         lift (collect endpoints
                 (Pathlib.glob o endpoints_dir "**/openapi.json"))
       else ret endpoints) ;;
    wfile_write (Data (Json.encode (Json.dumps endpoints)))
  else
    SimpleHTTPRequestHandler.do_GET lib o end_headers.

(** The method [do_<command>] when the class has one, and 501
    otherwise: the part of [handle_one_request] that follows a
    [parse_request] that accepted the request. *)
Definition dispatch : M unit :=
  cmd <- attr "command" command ;;
  if Str.eqb cmd "GET" then do_GET
  else if Str.eqb cmd "HEAD" then
    SimpleHTTPRequestHandler.do_HEAD lib o end_headers
  else
    BaseHTTPRequestHandler.send_error lib end_headers 501
      (Some ("Unsupported method (" ++ repr lib cmd ++ ")")%string).

(** [handle_one_request] *)
Definition handle_one_request (r : request) : M unit :=
  accepted <- BaseHTTPRequestHandler.parse_request lib end_headers r ;;
  if accepted : bool then dispatch else ret tt.

(** [handle]: requests are served until [close_connection] is set; a
    connection carries one request, so a second round would find
    nothing to read. *)
Definition handle (r : request) : M unit :=
  set_close_connection true ;;
  handle_one_request r ;;
  closing <- get close_connection ;;
  if closing : bool then ret tt else handle_one_request NoRequest.

End Methods.

(** [FalAIHandler(request, client_address, server)]: the constructor
    keeps the server object, runs [handle] and flushes what was
    written, also when [handle] raises. *)
Definition __init__ (lib : Lib) (s : TCPServer.server) (now : N) (o : OS.t)
           (r : request) : result unit * list chunk * TCPServer.server :=
  let self := mkHandler s None None [] now [] [] false in
  let (res, self') := handle lib o r self in
  (res, wfile self', server self').

End FalAIHandler.

(* ================================================================== *)
(** * What a client reads from the connection *)

Record response : Type := mkResponse {
  status : N;
  reason : string;
  headers : list (string * string);
  body : string
}.

Definition header_fields (ls : list hline) : list (string * string) :=
  flat_map (fun l => match l with
                     | Header k v => [(k, v)]
                     | _ => []
                     end) ls.

(** The bytes after the header block. *)
Fixpoint data_of (cs : list chunk) : option string :=
  match cs with
  | [] => Some EmptyString
  | Data b :: rest =>
      match data_of rest with
      | Some d => Some (b ++ d)%string
      | None => None
      end
  | Head _ :: _ => None
  end.

(** The response in what was written: one header block that starts with
    a status line, then body bytes.  [None] when the writes do not have
    that shape. *)
Definition response_of (w : list chunk) : option response :=
  match w with
  | Head (StatusLine _ code msg :: ls) :: rest =>
      match data_of rest with
      | Some d => Some (mkResponse code msg (header_fields ls) d)
      | None => None
      end
  | _ => None
  end.

(** [name: value] is among the headers of [r]. *)
Definition has_header (r : response) (name value : string) : Prop :=
  In (name, value) (headers r).

(** How many times the header [name: value] occurs in [r]. *)
Definition count_header (r : response) (name value : string) : nat :=
  List.length
    (filter (fun kv => Str.eqb (fst kv) name && Str.eqb (snd kv) value)
            (headers r)).

(* ================================================================== *)
(** * The start-up script *)

Module Main.

Import TCPServer.

Definition PORT : N := 8000.

(** How a run of the script stands after the events it was given. *)
Inductive state : Type :=
| Exited (code : N)
| Serving                               (* still inside [serve_forever] *)
| Stuck.                                (* [shutdown] waits for ever *)

Record run : Type := mkRun {
  stdout : list string;                 (* one item per [print] *)
  httpd : option server;                (* the server, once created *)
  state_of : state
}.

Definition banner : list string :=
  [ "FalAI Development Server";
    ("Serving at http://localhost:" ++ Str.of_N PORT)%string;
    "Press Ctrl+C to stop" ].

Definition stop_message : string := String "010" "Server stopped".

(** The script.  [bind_error] is what binding the socket reports;
    [events] is what happens while the server runs. *)
Definition main (lib : Lib) (bind_error : option errno)
           (events : list event) : run :=
  let out := banner in
  match bind_error with
  | Some _ => mkRun out None (Exited 1)
  | None =>
      let httpd := TCPServer.__init__ ("", PORT) in
      match serve_forever (FalAIHandler.__init__ lib) events httpd with
      | (Waiting, httpd) => mkRun out (Some httpd) Serving
      | (Raised KeyboardInterrupt, httpd) =>
          let out := out ++ [stop_message] in
          match shutdown httpd with
          | Some httpd => mkRun out (Some (server_close httpd)) (Exited 0)
          | None => mkRun out (Some httpd) Stuck
          end
      | (Raised _, httpd) => mkRun out (Some (server_close httpd)) (Exited 1)
      | (Returned, httpd) => mkRun out (Some (server_close httpd)) (Exited 0)
      end
  end.

End Main.

(* ================================================================== *)
(** * A concrete library and machine, for running the model *)

Module Sample.

Import OS.

Definition responses (code : N) : option (string * string) :=
  if (code =? 200)%N then Some ("OK", "Request fulfilled, document follows")
  else if (code =? 301)%N
       then Some ("Moved Permanently", "Object moved permanently")
  else if (code =? 304)%N
       then Some ("Not Modified",
                  "Document has not changed since given time")
  else if (code =? 400)%N
       then Some ("Bad Request", "Bad request syntax or unsupported method")
  else if (code =? 404)%N
       then Some ("Not Found", "Nothing matches the given URI")
  else if (code =? 501)%N
       then Some ("Not Implemented",
                  "Server does not support this operation")
  else None.

(** The decimal number that [s] spells. *)
Fixpoint number (s : string) (acc : N) : option N :=
  match s with
  | EmptyString => Some acc
  | String c rest =>
      let n := N_of_ascii c in
      if ((48 <=? n) && (n <=? 57))%N
      then number rest (10 * acc + (n - 48))
      else None
  end.

(** Dates are written [t=] followed by the seconds since the epoch. *)
Definition parsedate (s : string) : option (Z * tzinfo) :=
  match s with
  | String "t" (String "=" (String c rest)) =>
      match number (String c rest) 0 with
      | Some n => Some (Z.of_N n, UTC)
      | None => None
      end
  | _ => None
  end.

Definition lib : Lib :=
  mkLib "SimpleHTTP/0.6 Python/3.11.2"
        (fun t => ("t=" ++ Str.of_N t)%string)
        responses
        (fun code message explain =>
           (Str.of_N code ++ " " ++ message ++ ": " ++ explain)%string)
        (fun p => p)
        (fun p => Str.before "#" (Str.before "?" p))
        (fun p => (p ++ "/")%string)
        (fun p => if Str.eqb (SimpleHTTPRequestHandler.splitext_ext p) ".html"
                    then Some "text/html" else None)
        (fun p names => ("listing of " ++ p)%string)
        "utf-8"
        (fun s => ("'" ++ s ++ "'")%string)
        parsedate
        (fun u _ => eq_refl).

Definition spec_file : node := File true 1 2 "{}".

(** A working directory with [index.html], a secret file without read
    permission, and two endpoint descriptions. *)
Definition cwd : node :=
  Dir [ ("index.html", File true 5 13 "<html></html>");
        ("secret.txt", File false 6 6 "hidden");
        ("endpoints",
         Dir [ ("b", Dir [("c", Dir [("openapi.json", spec_file)])]);
               ("a", Dir [("openapi.json", spec_file);
                          ("notes.txt", File true 2 1 "n")]) ]) ].

(** The same directory on a machine where [stat] of [endpoints] fails
    with an I/O error. *)
Definition broken : OS.t :=
  OS.mk cwd
        (fun p => if Pathlib.path_eqb p ["endpoints"] then Some EIO else None)
        no_fault.

(** The same directory on a machine where access to
    [endpoints/a/openapi.json] is refused. *)
Definition denied : OS.t :=
  OS.mk cwd
        (fun p => if Pathlib.path_eqb p ["endpoints"; "a"; "openapi.json"]
                  then Some EACCES else None)
        no_fault.

(** The same directory on a machine where [endpoints/b] cannot be
    read. *)
Definition unreadable : OS.t :=
  OS.mk cwd no_fault
        (fun p => if Pathlib.path_eqb p ["endpoints"; "b"]
                  then Some EACCES else None).

(** A working directory where [endpoints/alias] is a symbolic link to a
    directory that holds a description, and where [endpoints/odd] holds
    a directory that is named [openapi.json]. *)
Definition linked : node :=
  Dir [ ("endpoints",
         Dir [ ("alias", Link (Some (Dir [("openapi.json", spec_file)])));
               ("odd", Dir [("openapi.json", Dir [])]) ]) ].

(** A request path below [/endpoints] that ends in the character NUL. *)
Definition nul_path : string := "/endpoints/" ++ String "000" EmptyString.

End Sample.

(* ================================================================== *)
(** * The vocabulary of the properties *)

(** The server object of the script. *)
Definition httpd0 : TCPServer.server := TCPServer.__init__ (EmptyString, Main.PORT).

(** One connection served by a new handler object that was given the
    server object [s]: how the constructor ended and what was written
    on the connection. *)
Definition serve (lib : Lib) (s : TCPServer.server) (now : N) (o : OS.t)
           (r : request) : result unit * list chunk :=
  fst (FalAIHandler.__init__ lib s now o r).

(** One accepted request without header fields, served on the server
    object of the script. *)
Definition handle (lib : Lib) (now : N) (o : OS.t) (cmd p : string)
  : result unit * list chunk :=
  serve lib httpd0 now o (Request cmd p []).

(** The headers [FalAIHandler.end_headers] adds for the path [p]. *)
Definition cors (p : string) : list hline :=
  if Str.startswith p "/endpoints" then
    [ Header "Access-Control-Allow-Origin" "*";
      Header "Access-Control-Allow-Methods" "GET, POST, OPTIONS";
      Header "Access-Control-Allow-Headers" "Content-Type, Authorization" ]
  else [].

(** The message of a status line. *)
Definition message_of (lib : Lib) (code : N) (message : option string)
  : string :=
  match message with
  | Some m => m
  | None => match responses lib code with
            | Some (short, _) => short
            | None => EmptyString
            end
  end.

(** The three lines [send_response] puts in the buffer. *)
Definition response_lines (lib : Lib) (now : N) (code : N)
           (message : option string) : list hline :=
  [ StatusLine BaseHTTPRequestHandler.protocol_version code
               (message_of lib code message);
    Header "Server" (version_string lib);
    Header "Date" (date_time_string lib now) ].

(** The header block of a discovery response. *)
Definition discovery_head (lib : Lib) (now : N) : list hline :=
  response_lines lib now 200 None ++
  [ Header "Content-type" "application/json";
    Header "Access-Control-Allow-Origin" "*";
    Header "Access-Control-Allow-Origin" "*";
    Header "Access-Control-Allow-Methods" "GET, POST, OPTIONS";
    Header "Access-Control-Allow-Headers" "Content-Type, Authorization";
    EndLine ].

(** Lines 22 to 26 of [server.py] as one function: the list [endpoints]
    after the walk, or the exception that interrupted it. *)
Definition walk (o : OS.t) : result (list string) :=
  match Pathlib.exists_ o ["endpoints"] with
  | Raise e => Raise e
  | Ok false => Ok []
  | Ok true =>
      FalAIHandler.collect [] (Pathlib.glob o ["endpoints"] "**/openapi.json")
  end.

(** [descends n ds m]: from the directory [n], the names [ds] lead down
    to the node [m] through entries that are directories themselves,
    not symbolic links. *)
Inductive descends : OS.node -> list string -> OS.node -> Prop :=
| descends_here n : descends n [] n
| descends_step es d c ds m :
    In (d, c) es -> OS.is_dir_node c = true -> descends c ds m ->
    descends (OS.Dir es) (d :: ds) m.

(** The node that the names [ds] lead down to from [n], through entries
    that are directories themselves, not symbolic links. *)
Fixpoint reach (n : OS.node) (ds : list string) : option OS.node :=
  match ds with
  | [] => Some n
  | d :: ds' =>
      match n with
      | OS.Dir es =>
          match OS.assoc d es with
          | Some c => if OS.is_dir_node c then reach c ds' else None
          | None => None
          end
      | _ => None
      end
  end.

(** The path of an [openapi.json] entry found by descending [ds] from
    the directory [endpoints]. *)
Definition spec_path (ds : list string) : string :=
  Pathlib.str ("endpoints" :: ds ++ ["openapi.json"]).

(** The directories a walk from [parent_path] visits when nothing
    fails: the directory itself, then every entry that is a directory
    and no symbolic link, with what lies below it, depth first. *)
Fixpoint directories (parent_path : Pathlib.Path) (n : OS.node)
  : list (Pathlib.Path * OS.node) :=
  (parent_path, n) ::
  match n with
  | OS.Dir entries =>
      flat_map
        (fun entry =>
           if OS.is_dir_node (snd entry)
           then directories
                  (Pathlib.make_child_relpath parent_path (fst entry))
                  (snd entry)
           else [])
        entries
  | _ => []
  end.

(** The paths [Path.glob] yields on a machine without injected errors:
    below the directory [endpoints], every visited directory that has
    an entry [openapi.json] contributes one path, in the order of the
    walk. *)
Definition found (root : OS.node) : list Pathlib.Path :=
  match OS.resolve root ["endpoints"] with
  | inr n =>
      if OS.is_dir_node n then
        Pathlib.unseen []
          (flat_map
             (fun sp =>
                match OS.resolve (snd sp) ["openapi.json"] with
                | inr _ => [Pathlib.make_child_relpath (fst sp) "openapi.json"]
                | inl _ => []
                end)
             (directories ["endpoints"] n))
      else []
  | inl _ => []
  end.

(** The listing of a discovery response on such a machine. *)
Definition listing (root : OS.node) : list string :=
  map Pathlib.str (found root).

(** The handler object of an accepted request, as [parse_request]
    leaves it: on the server object [s], with the header fields [hs]. *)
Definition parsed (s : TCPServer.server) (hs : list (string * string))
           (cmd p : string) (now : N) : handler :=
  mkHandler s (Some cmd) (Some p) hs now [] [] true.

(** The handler object of an accepted request without header fields,
    on the server object of the script. *)
Definition fresh (cmd p : string) (now : N) : handler :=
  parsed httpd0 [] cmd p now.

(** Whether [send_error] gives the response a body. *)
Definition error_has_body (code : N) : bool :=
  ((200 <=? code) && negb ((code =? 204) || (code =? 205) || (code =? 304)))%N.

(** What [send_error] writes for an accepted request. *)
Definition error_reply (lib : Lib) (now : N) (cmd p : string) (code : N)
           (message : option string) : list chunk :=
  let '(shortmsg, longmsg) :=
    match responses lib code with
    | Some sl => sl
    | None => ("???", "???")
    end in
  let message := match message with Some m => m | None => shortmsg end in
  let body := error_page lib code message longmsg in
  Head (response_lines lib now code (Some message) ++
        [Header "Connection" "close"] ++
        (if error_has_body code then
           [ Header "Content-Type" "text/html;charset=utf-8";
             Header "Content-Length" (Str.of_N (N.of_nat (String.length body))) ]
         else []) ++
        cors p ++ [EndLine])
  :: (if negb (Str.eqb cmd "HEAD") && error_has_body code
         && negb (Str.eqb body "")
      then [Data body] else []).

(** What is written for a file that was opened and has to be sent. *)
Definition file_reply (lib : Lib) (now : N) (p : string)
           (fs_path : list string) (mtime size : N) (data : string)
           (with_body : bool) : list chunk :=
  Head (response_lines lib now 200 None ++
        [ Header "Content-type" (SimpleHTTPRequestHandler.guess_type lib fs_path);
          Header "Content-Length" (Str.of_N size);
          Header "Last-Modified" (date_time_string lib mtime) ] ++
        cors p ++ [EndLine])
  :: (if with_body && negb (Str.eqb data "") then [Data data] else []).

(** What is written for a file that the browser has already. *)
Definition not_modified_reply (lib : Lib) (now : N) (p : string)
  : list chunk :=
  [ Head (response_lines lib now 304 None ++ cors p ++ [EndLine]) ].

(** What is written for a file system path that is not a directory. *)
Definition file_or_404 (lib : Lib) (o : OS.t) (now : N)
           (hs : list (string * string)) (cmd p : string)
           (fs_path : list string) (trailing_slash with_body : bool)
  : list chunk :=
  if trailing_slash then error_reply lib now cmd p 404 (Some "File not found")
  else
    match OS.open_rb o fs_path with
    | Raise (OSError _) => error_reply lib now cmd p 404 (Some "File not found")
    | Raise _ => []
    | Ok (mtime, size, data) =>
        if SimpleHTTPRequestHandler.not_modified lib hs mtime
        then not_modified_reply lib now p
        else file_reply lib now p fs_path mtime size data with_body
    end.

(** How [send_head] ends for a file system path that is not a
    directory: it returns, or the exception of [open] that is no
    [OSError] leaves it. *)
Definition file_outcome (o : OS.t) (fs_path : list string)
           (trailing_slash : bool) : result unit :=
  if trailing_slash then Ok tt
  else
    match OS.open_rb o fs_path with
    | Raise (OSError _) => Ok tt
    | Raise e => Raise e
    | Ok _ => Ok tt
    end.

(** The bytes [send_head] leaves to be copied for a file system path
    that is not a directory. *)
Definition file_source (lib : Lib) (o : OS.t) (hs : list (string * string))
           (fs_path : list string) (trailing_slash : bool) : option string :=
  if trailing_slash then None
  else
    match OS.open_rb o fs_path with
    | Ok (mtime, _, data) =>
        if SimpleHTTPRequestHandler.not_modified lib hs mtime
        then None else Some data
    | Raise _ => None
    end.

(** The redirect to the same URL with a slash. *)
Definition redirect_reply (lib : Lib) (now : N) (p : string) : list chunk :=
  [ Head (response_lines lib now 301 None ++
          [ Header "Location" (url_add_slash lib p);
            Header "Content-Length" "0" ] ++
          cors p ++ [EndLine]) ].

(** The page of [list_directory] for the directory [fs_path]. *)
Definition directory_page (lib : Lib) (o : OS.t) (p : string)
           (fs_path : list string) (names : list string) : string :=
  listing_page lib p
    (map (fun name => (name, OS.path_isdir o (fs_path ++ [name]),
                       OS.path_islink o (fs_path ++ [name])))
         names).

(** What [list_directory] writes, followed by the page when there is a
    body. *)
Definition directory_reply (lib : Lib) (o : OS.t) (now : N) (cmd p : string)
           (fs_path : list string) (with_body : bool) : list chunk :=
  match OS.listdir o fs_path with
  | Raise (OSError _) =>
      error_reply lib now cmd p 404 (Some "No permission to list directory")
  | Raise _ => []
  | Ok names =>
      let encoded := directory_page lib o p fs_path names in
      Head (response_lines lib now 200 None ++
            [ Header "Content-type"
                     ("text/html; charset=" ++ filesystemencoding lib);
              Header "Content-Length"
                     (Str.of_N (N.of_nat (String.length encoded))) ] ++
            cors p ++ [EndLine])
      :: (if with_body && negb (Str.eqb encoded "") then [Data encoded] else [])
  end.

(** How [list_directory] ends. *)
Definition directory_outcome (o : OS.t) (fs_path : list string)
  : result unit :=
  match OS.listdir o fs_path with
  | Raise (OSError _) => Ok tt
  | Raise e => Raise e
  | Ok _ => Ok tt
  end.

(** Everything the static file methods write for the path [p] of a
    request with the header fields [hs]: [with_body] tells [do_GET]
    from [do_HEAD]. *)
Definition static_reply (lib : Lib) (o : OS.t) (now : N)
           (hs : list (string * string)) (cmd p : string)
           (with_body : bool) : list chunk :=
  let '(fs_path, trailing_slash) :=
    SimpleHTTPRequestHandler.translate_path lib p in
  if OS.path_isdir o fs_path then
    if negb (Str.endswith_char (url_path lib p) "/") then redirect_reply lib now p
    else if OS.path_isfile o (fs_path ++ ["index.html"]) then
      file_or_404 lib o now hs cmd p (fs_path ++ ["index.html"]) false with_body
    else if OS.path_isfile o (fs_path ++ ["index.htm"]) then
      file_or_404 lib o now hs cmd p (fs_path ++ ["index.htm"]) false with_body
    else directory_reply lib o now cmd p fs_path with_body
  else file_or_404 lib o now hs cmd p fs_path trailing_slash with_body.

(** How the static file methods end for the path [p]. *)
Definition static_outcome (lib : Lib) (o : OS.t) (p : string) : result unit :=
  let '(fs_path, trailing_slash) :=
    SimpleHTTPRequestHandler.translate_path lib p in
  if OS.path_isdir o fs_path then
    if negb (Str.endswith_char (url_path lib p) "/") then Ok tt
    else if OS.path_isfile o (fs_path ++ ["index.html"]) then
      file_outcome o (fs_path ++ ["index.html"]) false
    else if OS.path_isfile o (fs_path ++ ["index.htm"]) then
      file_outcome o (fs_path ++ ["index.htm"]) false
    else directory_outcome o fs_path
  else file_outcome o fs_path trailing_slash.

(** How the constructor of the handler ends and what it writes, request
    by request. *)
Definition reply (lib : Lib) (now : N) (o : OS.t) (r : request)
  : result unit * list chunk :=
  match r with
  | NoRequest => (Ok tt, [])
  | Malformed _ _ => (Raise (AttributeError "path"), [])
  | Request cmd p hs =>
      if Str.eqb cmd "GET" then
        if Str.eqb p "/endpoints" then
          match walk o with
          | Ok l => (Ok tt, [Head (discovery_head lib now);
                             Data (Json.encode (Json.dumps l))])
          | Raise e => (Raise e, [Head (discovery_head lib now)])
          end
        else (static_outcome lib o p, static_reply lib o now hs cmd p true)
      else if Str.eqb cmd "HEAD"
           then (static_outcome lib o p, static_reply lib o now hs cmd p false)
      else (Ok tt, error_reply lib now cmd p 501
                     (Some ("Unsupported method (" ++ repr lib cmd ++ ")")%string))
  end.

(** What is written on the connection of the request [c]. *)
Definition answer (lib : Lib) (c : N * OS.t * request) : list chunk :=
  match c with
  | (now, o, r) => snd (serve lib httpd0 now o r)
  end.

(** The connections of a list of requests, as server events. *)
Definition connection (c : N * OS.t * request) : TCPServer.event :=
  match c with
  | (now, o, r) => TCPServer.Connection now o r
  end.

(** The headers the inherited methods send besides [Server] and [Date]. *)
Definition standard_header (l : hline) : bool :=
  match l with
  | Header k _ =>
      existsb (Str.eqb k)
              [ "Connection"; "Content-Type"; "Content-Length";
                "Content-type"; "Last-Modified"; "Location" ]
  | _ => false
  end.

(** Some character of [s] satisfies [f]. *)
Fixpoint any_char (f : ascii -> bool) (s : string) : bool :=
  match s with
  | EmptyString => false
  | String c rest => f c || any_char f rest
  end.

(** A printable character of ASCII other than the space. *)
Definition graphic (c : ascii) : bool :=
  ((33 <=? N_of_ascii c) && (N_of_ascii c <=? 126))%N.

(** A name that a request line can carry as it is: not empty, not [.]
    or [..], made of printable characters of ASCII, and free of the
    characters that split a URL and of the percent sign. *)
Definition plain (w : string) : bool :=
  negb (Str.eqb w "") && negb (Str.eqb w ".") && negb (Str.eqb w "..")
  && negb (has_char "/" w) && negb (has_char "?" w) && negb (has_char "#" w)
  && negb (has_char "%" w)
  && negb (any_char (fun c => negb (graphic c)) w).

(** The injected errors a discovery walk survives: on [stat], those
    that [pathlib] reads as "not there", and refused permissions
    anywhere but on [endpoints] itself; on reading a directory, refused
    permissions. *)
Definition survivable (o : OS.t) : Prop :=
  (forall p e,
      OS.fault o p = Some e ->
      Pathlib.ignore_error e = true \/
      (is_PermissionError e = true /\ p <> ["endpoints"])) /\
  (forall p e,
      OS.scandir_fault o p = Some e -> is_PermissionError e = true).

(** Every entry name in the tree satisfies [P], behind symbolic links
    too. *)
#[warnings="-register-all"]
Inductive all_names (P : string -> Prop) : OS.node -> Prop :=
| all_names_file r m sz d : all_names P (OS.File r m sz d)
| all_names_dir es :
    Forall (fun e => P (fst e) /\ all_names P (snd e)) es ->
    all_names P (OS.Dir es)
| all_names_link t : all_names P t -> all_names P (OS.Link (Some t))
| all_names_nowhere : all_names P (OS.Link None).

Module JsonFacts.

Import Json.

Lemma run_app (s1 s2 : string) (st : state) :
  run st (s1 ++ s2)%string =
  match run st s1 with
  | Some st' => run st' s2
  | None => None
  end.
Proof.
  revert st; induction s1 as [|c s1 IH]; intro st; simpl.
  - reflexivity.
  - destruct (step st c); [apply IH | reflexivity].
Qed.

(** The escape of one character is read back as that character. *)
Lemma run_escape (c : ascii) (cur : list N) (acc : list (list N)) :
  run (InStr cur, acc) (escape c) = Some (InStr (cur ++ [N_of_ascii c]), acc).
Proof.
  destruct c as [[|] [|] [|] [|] [|] [|] [|] [|]]; reflexivity.
Qed.

Lemma run_escape_all (s : string) (cur : list N) (acc : list (list N)) :
  run (InStr cur, acc) (escape_all s) = Some (InStr (cur ++ codes s), acc).
Proof.
  revert cur; induction s as [|c s IH]; intro cur; cbn [escape_all codes].
  - simpl. now rewrite app_nil_r.
  - rewrite run_app, run_escape, IH, <- app_assoc. reflexivity.
Qed.

(** An encoded string, read from a place where a string may start. *)
Lemma run_string (ph : phase) (s : string) (acc : list (list N)) :
  ph = Open \/ ph = AfterComma ->
  run (ph, acc) (encode_basestring_ascii s) = Some (AfterStr, acc ++ [codes s]).
Proof.
  intros Hph. unfold encode_basestring_ascii.
  assert (Hq : run (ph, acc) (String dquote (escape_all s ++ String dquote ""))
               = run (InStr [], acc) (escape_all s ++ String dquote "")).
  { destruct Hph; subst ph; reflexivity. }
  rewrite Hq, run_app, run_escape_all. reflexivity.
Qed.

Lemma encode_rest_cons (x : string) (l : list string) :
  encode_rest (x :: l) =
  String "," (String " " (encode_basestring_ascii x ++ encode_rest l)).
Proof. reflexivity. Qed.

Lemma run_separator (acc : list (list N)) (s : string) :
  run (AfterStr, acc) (String "," (String " " s)) = run (AfterComma, acc) s.
Proof. reflexivity. Qed.

Lemma run_encode_rest (l : list string) (acc : list (list N)) :
  run (AfterStr, acc) (encode_rest l) = Some (Done, acc ++ map codes l).
Proof.
  revert acc; induction l as [|x l IH]; intro acc.
  - simpl. now rewrite app_nil_r.
  - rewrite encode_rest_cons, run_separator, run_app, run_string by auto.
    rewrite IH, <- app_assoc. reflexivity.
Qed.

Lemma dumps_cons (x : string) (l : list string) :
  dumps (x :: l) = String "[" (encode_basestring_ascii x ++ encode_rest l).
Proof. reflexivity. Qed.

Lemma run_bracket (s : string) :
  run (Start, []) (String "[" s) = run (Open, []) s.
Proof. reflexivity. Qed.

(** Reading back the output of [dumps] gives the list that was written. *)
Lemma loads_dumps (l : list string) :
  loads_strings (dumps l) = Some (map codes l).
Proof.
  unfold loads_strings. destruct l as [|x l].
  - reflexivity.
  - rewrite dumps_cons, run_bracket, run_app, run_string by auto.
    rewrite run_encode_rest. reflexivity.
Qed.

(** ** The output of [dumps] is ASCII, so [encode] leaves it as it is *)

Lemma all_ascii_app (s t : string) :
  all_ascii (s ++ t) = all_ascii s && all_ascii t.
Proof.
  induction s as [|c s IH]; simpl; [reflexivity|].
  now rewrite IH, andb_assoc.
Qed.

Lemma all_ascii_escape (c : ascii) : all_ascii (escape c) = true.
Proof.
  destruct c as [[|] [|] [|] [|] [|] [|] [|] [|]]; reflexivity.
Qed.

Lemma all_ascii_escape_all (s : string) : all_ascii (escape_all s) = true.
Proof.
  induction s as [|c s IH]; cbn [escape_all]; [reflexivity|].
  now rewrite all_ascii_app, all_ascii_escape, IH.
Qed.

Lemma all_ascii_string (s : string) :
  all_ascii (encode_basestring_ascii s) = true.
Proof.
  unfold encode_basestring_ascii. simpl.
  now rewrite all_ascii_app, all_ascii_escape_all.
Qed.

Lemma all_ascii_rest (l : list string) : all_ascii (encode_rest l) = true.
Proof.
  induction l as [|x l IH]; [reflexivity|].
  rewrite encode_rest_cons. cbn [all_ascii].
  now rewrite all_ascii_app, all_ascii_string, IH.
Qed.

Lemma all_ascii_dumps (l : list string) : all_ascii (dumps l) = true.
Proof.
  destruct l as [|x l]; [reflexivity|].
  rewrite dumps_cons. cbn [all_ascii].
  now rewrite all_ascii_app, all_ascii_string, all_ascii_rest.
Qed.

Lemma encode_ascii (s : string) : all_ascii s = true -> encode s = s.
Proof.
  induction s as [|c s IH]; simpl; [reflexivity|].
  intros H. apply andb_true_iff in H as [Hc Hs].
  rewrite Hc, IH by assumption. reflexivity.
Qed.

Lemma encode_dumps (l : list string) : encode (dumps l) = dumps l.
Proof. apply encode_ascii, all_ascii_dumps. Qed.

End JsonFacts.


(* ================================================================== *)
(** * Trees *)

Section NodeInduction.

Variable P : OS.node -> Prop.
Hypothesis P_file : forall r m sz d, P (OS.File r m sz d).
Hypothesis P_dir :
  forall es, Forall (fun e => P (snd e)) es -> P (OS.Dir es).
Hypothesis P_link : forall t, P t -> P (OS.Link (Some t)).
Hypothesis P_nowhere : P (OS.Link None).

(** Induction on a tree, with the hypothesis for every entry of a
    directory and for the target of a link. *)
Fixpoint node_induction (n : OS.node) : P n :=
  match n with
  | OS.File r m sz d => P_file r m sz d
  | OS.Dir es =>
      P_dir
        ((fix entries (l : list (string * OS.node))
            : Forall (fun e => P (snd e)) l :=
            match l with
            | [] => Forall_nil _
            | e :: rest =>
                @Forall_cons _ (fun e => P (snd e)) e rest
                             (node_induction (snd e)) (entries rest)
            end) es)
  | OS.Link (Some t) => P_link (node_induction t)
  | OS.Link None => P_nowhere
  end.

End NodeInduction.

Lemma assoc_In name es c : OS.assoc name es = Some c -> In (name, c) es.
Proof.
  induction es as [|[k v] es IH]; simpl; [discriminate|].
  destruct (String.eqb name k) eqn:E.
  - apply String.eqb_eq in E. intros [= ->]. subst. now left.
  - intros H. right. now apply IH.
Qed.

Lemma In_assoc name es c :
  In (name, c) es -> exists c', OS.assoc name es = Some c'.
Proof.
  induction es as [|[k v] es IH]; simpl; [tauto|].
  intros [[= -> ->]|H].
  - rewrite String.eqb_refl. eauto.
  - destruct (String.eqb name k); eauto.
Qed.

(** Following links ends on a file or a directory, or fails with an
    error that [pathlib] reads as "not there". *)
Lemma follow_spec n :
  match OS.follow n with
  | inr m => OS.is_symlink m = false
  | inl e => e = ENOENT
  end.
Proof.
  induction n as [r m sz d|es _|t IH|] using node_induction; cbn; auto.
Qed.

Lemma follow_dir n : OS.is_dir_node n = true -> OS.follow n = inr n.
Proof. destruct n; cbn; congruence. Qed.

Lemma resolve_nil n : OS.resolve n [] = OS.follow n.
Proof. cbn. now destruct (OS.follow n). Qed.

(** Looking one name up in a node. *)
Lemma resolve_one n name :
  OS.resolve n [name] =
  match OS.follow n with
  | inl e => inl e
  | inr (OS.Dir es) =>
      match OS.assoc name es with
      | Some c => OS.follow c
      | None => inl ENOENT
      end
  | inr _ => inl ENOTDIR
  end.
Proof.
  cbn [OS.resolve]. destruct (OS.follow n) as [e|[r m sz d|es|t]]; try reflexivity.
  destruct (OS.assoc name es) as [c|]; [|reflexivity].
  destruct (OS.follow c); reflexivity.
Qed.

(** The tree itself gives no other error than "not there". *)
Lemma resolve_error n : forall p e,
  OS.resolve n p = inl e -> Pathlib.ignore_error e = true.
Proof.
  intros p. revert n. induction p as [|w ws IH]; intros n e.
  - rewrite resolve_nil. pose proof (follow_spec n) as H.
    destruct (OS.follow n); [|discriminate]. intros [= <-]. now subst.
  - cbn [OS.resolve]. pose proof (follow_spec n) as H.
    destruct (OS.follow n) as [e'|[r m sz d|es|t]].
    + intros [= <-]. now subst.
    + now intros [= <-].
    + destruct (OS.assoc w es) as [c|]; [apply IH|now intros [= <-]].
    + now intros [= <-].
Qed.

Lemma resolve_one_error n name e :
  OS.resolve n [name] = inl e -> Pathlib.ignore_error e = true.
Proof. apply resolve_error. Qed.

(** What path resolution finds is no symbolic link. *)
Lemma resolve_followed n : forall p m,
  OS.resolve n p = inr m -> OS.is_symlink m = false.
Proof.
  intros p. revert n. induction p as [|w ws IH]; intros n m.
  - rewrite resolve_nil. pose proof (follow_spec n) as H.
    destruct (OS.follow n); [discriminate|]. now intros [= <-].
  - cbn [OS.resolve].
    destruct (OS.follow n) as [e'|[r t sz d|es|t]]; try discriminate.
    destruct (OS.assoc w es) as [c|]; [apply IH|discriminate].
Qed.

(* ================================================================== *)
(** * The walk *)

(** The directories of a walk are those reached by descending from the
    start. *)
Lemma directories_descends n :
  forall path q m,
    In (q, m) (directories path n) <->
    exists ds, descends n ds m /\ q = path ++ ds.
Proof.
  induction n as [r t sz d|es IH|t _|] using node_induction; intros path q m.
  2:{ cbn [directories]. split.
      + intros [[= <- <-]|Hin].
        * exists []. split; [constructor|now rewrite app_nil_r].
        * apply in_flat_map in Hin as [[d c] [Hdc Hin]]. cbn [fst snd] in Hin.
          destruct (OS.is_dir_node c) eqn:Hc; [|contradiction].
          rewrite Forall_forall in IH. specialize (IH _ Hdc).
          apply IH in Hin as [ds [Hds ->]].
          exists (d :: ds). split.
          -- econstructor; eauto.
          -- unfold Pathlib.make_child_relpath. now rewrite <- app_assoc.
      + intros [ds [Hd ->]]. inversion Hd as [|es' d c ds' m' Hdc Hc Hrest]; subst.
        * left. now rewrite app_nil_r.
        * right. apply in_flat_map. exists (d, c). split; [assumption|].
          cbn [fst snd]. rewrite Hc.
          rewrite Forall_forall in IH. apply (IH _ Hdc).
          exists ds'. split; [assumption|].
          unfold Pathlib.make_child_relpath. now rewrite <- app_assoc. }
  all: simpl; split;
    [ intros [[= <- <-]|[]]; exists []; split; [constructor|now rewrite app_nil_r]
    | intros [ds [Hd ->]]; inversion Hd; subst; left; now rewrite app_nil_r ].
Qed.

Lemma path_eqb_true p q : Pathlib.path_eqb p q = true <-> p = q.
Proof.
  unfold Pathlib.path_eqb.
  destruct (list_eq_dec string_dec p q); split; congruence.
Qed.

(** Dropping what was yielded before keeps every path once. *)
Lemma unseen_In l : forall seen q,
  In q (Pathlib.unseen seen l) <-> In q l /\ ~ In q seen.
Proof.
  induction l as [|p l IH]; intros seen q; simpl; [tauto|].
  destruct (existsb (Pathlib.path_eqb p) seen) eqn:E.
  - apply existsb_exists in E as [x [Hx Hpx]]. apply path_eqb_true in Hpx. subst x.
    rewrite IH. split.
    + intros [H1 H2]. auto.
    + intros [[->|H1] H2]; [contradiction|auto].
  - assert (Hp : ~ In p seen).
    { intros Hin. assert (existsb (Pathlib.path_eqb p) seen = true).
      { apply existsb_exists. exists p. split; [assumption|now apply path_eqb_true]. }
      congruence. }
    simpl. rewrite IH. simpl. split.
    + intros [->|[H1 H2]]; [auto|]. split; [auto|]. intros H. apply H2. now right.
    + intros [[->|H1] H2]; [now left|].
      destruct (list_eq_dec string_dec p q) as [->|Hne]; [now left|].
      right. split; [assumption|]. intros [H|H]; [congruence|contradiction].
Qed.

Lemma unseen_NoDup l : forall seen, NoDup (Pathlib.unseen seen l).
Proof.
  induction l as [|p l IH]; intros seen; simpl; [constructor|].
  destruct (existsb (Pathlib.path_eqb p) seen); [apply IH|].
  constructor; [|apply IH].
  rewrite unseen_In. intros [_ H]. apply H. now left.
Qed.

(** The entries of the discovery listing. *)
Lemma found_spec root q :
  In q (found root) <->
  exists e ds m c,
    OS.resolve root ["endpoints"] = inr e /\ OS.is_dir_node e = true /\
    descends e ds m /\ OS.resolve m ["openapi.json"] = inr c /\
    q = "endpoints" :: ds ++ ["openapi.json"].
Proof.
  unfold found. split.
  - destruct (OS.resolve root ["endpoints"]) as [|e] eqn:He; [intros []|].
    destruct (OS.is_dir_node e) eqn:Hd; [|intros []].
    rewrite unseen_In. intros [Hin _].
    apply in_flat_map in Hin as [[p m] [Hpm Hin]]. cbn [fst snd] in Hin.
    apply directories_descends in Hpm as [ds [Hds ->]].
    destruct (OS.resolve m ["openapi.json"]) as [|c] eqn:Hc; [contradiction|].
    destruct Hin as [<-|[]].
    exists e, ds, m, c. repeat split; auto.
  - intros (e & ds & m & c & He & Hd & Hds & Hc & ->).
    rewrite He, Hd. rewrite unseen_In. split; [|intros []].
    apply in_flat_map. exists ("endpoints" :: ds, m). split.
    + apply directories_descends. exists ds. split; [assumption|reflexivity].
    + cbn [fst snd]. rewrite Hc. now left.
Qed.

(** ** Generators *)

Lemma catch_fst (A : Type) (g : Pathlib.gen A) :
  fst (Pathlib.catch_PermissionError g) = fst g.
Proof.
  destruct g as [l [[en| |name|]|]]; cbn; try reflexivity.
  now destruct (is_PermissionError en).
Qed.

Lemma catch_raises (A : Type) (g : Pathlib.gen A) e :
  snd (Pathlib.catch_PermissionError g) = Some e -> snd g = Some e.
Proof.
  destruct g as [l [[en| |name|]|]]; cbn; try (intros H; exact H).
  destruct (is_PermissionError en); cbn; [discriminate|auto].
Qed.

Lemma catch_pure (A : Type) (l : list A) :
  Pathlib.catch_PermissionError (l, None) = (l, None).
Proof. reflexivity. Qed.

Lemma gen_seq_In (A : Type) (g1 g2 : Pathlib.gen A) x :
  In x (fst (Pathlib.gen_seq g1 g2)) -> In x (fst g1) \/ In x (fst g2).
Proof.
  destruct g1 as [l1 [e|]]; cbn; [auto|]. apply in_app_or.
Qed.

Lemma gen_seq_raises (A : Type) (g1 g2 : Pathlib.gen A) e :
  snd (Pathlib.gen_seq g1 g2) = Some e -> snd g1 = Some e \/ snd g2 = Some e.
Proof. destruct g1 as [l1 [e'|]]; cbn; auto. Qed.

Lemma gen_concat_In (A : Type) (gs : list (Pathlib.gen A)) x :
  In x (fst (Pathlib.gen_concat gs)) -> exists g, In g gs /\ In x (fst g).
Proof.
  induction gs as [|g gs IH]; cbn; [intros []|].
  intros H. apply gen_seq_In in H as [H|H].
  - exists g. auto.
  - destruct (IH H) as [g' [Hg Hx]]. exists g'. auto.
Qed.

Lemma gen_concat_raises (A : Type) (gs : list (Pathlib.gen A)) e :
  snd (Pathlib.gen_concat gs) = Some e -> exists g, In g gs /\ snd g = Some e.
Proof.
  induction gs as [|g gs IH]; cbn; [discriminate|].
  intros H. apply gen_seq_raises in H as [H|H].
  - exists g. auto.
  - destruct (IH H) as [g' [Hg He]]. exists g'. auto.
Qed.

Lemma gen_concat_pure (A B : Type) (f : A -> list B) (l : list A) :
  Pathlib.gen_concat (map (fun x => (f x, @None exn)) l) = (flat_map f l, None).
Proof.
  induction l as [|x l IH]; [reflexivity|].
  cbn [map Pathlib.gen_concat flat_map]. rewrite IH. reflexivity.
Qed.

(** ** [Path.exists] and [Path.is_dir] *)

Lemma exists_of_raises st e :
  Pathlib.exists_of st = Raise e -> exists en, e = OSError en.
Proof.
  unfold Pathlib.exists_of. destruct st as [en|n]; [|discriminate].
  destruct (Pathlib.ignore_error en); [discriminate|]. intros [= <-]. eauto.
Qed.

Lemma is_dir_of_raises st e :
  Pathlib.is_dir_of st = Raise e -> exists en, e = OSError en.
Proof.
  unfold Pathlib.is_dir_of. destruct st as [en|n]; [|discriminate].
  destruct (Pathlib.ignore_error en); [discriminate|]. intros [= <-]. eauto.
Qed.

(** ** The directory generator *)

(** [entry.is_dir()] on a machine without injected errors. *)
Lemma entry_is_dir_healthy root path c :
  exists b,
    Pathlib.entry_is_dir (OS.healthy root) path c = Ok b /\
    b && negb (OS.is_symlink c) = OS.is_dir_node c.
Proof.
  destruct c as [r m sz d|es|t]; cbn.
  - now exists false.
  - now exists true.
  - unfold OS.no_fault.
    change (match t with Some t0 => OS.follow t0 | None => inl ENOENT end)
      with (OS.follow (OS.Link t)).
    pose proof (follow_spec (OS.Link t)) as H.
    destruct (OS.follow (OS.Link t)) as [e|m]; cbn.
    + subst e. exists false. split; reflexivity.
    + exists (OS.is_dir_node m). split; [reflexivity|apply andb_false_r].
Qed.

(** Without injected errors the directory generator yields the
    directories of the tree and ends without an exception. *)
Lemma iterate_directories_healthy root n :
  forall path,
    OS.is_dir_node n = true ->
    Pathlib.iterate_directories (OS.healthy root) path n
    = (directories path n, None).
Proof.
  induction n as [r m sz d|es IH|t _|] using node_induction;
    intros path Hn; try discriminate.
  cbn [Pathlib.iterate_directories directories OS.healthy OS.scandir_fault].
  unfold OS.no_fault at 1.
  match goal with
  | |- context [Pathlib.catch_PermissionError (?f es)] =>
      assert (Heach : f es =
                      (flat_map
                         (fun entry =>
                            if OS.is_dir_node (snd entry)
                            then directories
                                   (Pathlib.make_child_relpath path (fst entry))
                                   (snd entry)
                            else []) es, None))
  end.
  { clear Hn. induction es as [|[name c] es IHes]; [reflexivity|].
    inversion IH as [|? ? Hc Hrest]; subst. cbn [fst snd] in Hc.
    cbn [flat_map fst snd].
    destruct (entry_is_dir_healthy root (Pathlib.make_child_relpath path name) c)
      as (b & Hb & Hbc).
    rewrite Hb, Hbc. destruct (OS.is_dir_node c) eqn:Hd.
    - rewrite (Hc _ eq_refl), (IHes Hrest). reflexivity.
    - apply (IHes Hrest). }
  rewrite Heach. reflexivity.
Qed.

(** Whatever errors are injected, the directory generator yields only
    directories of the tree. *)
Lemma iterate_directories_sound o n :
  forall path sp,
    In sp (fst (Pathlib.iterate_directories o path n)) ->
    In sp (directories path n).
Proof.
  induction n as [r m sz d|es IH|t _|] using node_induction; intros path sp;
    cbn [Pathlib.iterate_directories directories fst];
    rewrite catch_fst.
  2:{ intros [<-|Hin]; [now left|right].
      destruct (OS.scandir_fault o path); [destruct Hin|].
      induction es as [|[name c] es IHes]; [destruct Hin|].
      inversion IH as [|? ? Hc Hrest]; subst. cbn [fst snd] in Hc.
      cbn [flat_map fst snd]. apply in_or_app.
      destruct (Pathlib.entry_is_dir o (Pathlib.make_child_relpath path name) c)
        as [b|e] eqn:Eb; [|destruct Hin].
      destruct (b && negb (OS.is_symlink c)) eqn:Hb.
      - apply gen_seq_In in Hin as [Hin|Hin].
        + left. apply andb_true_iff in Hb as [Hb1 Hb2].
          assert (Hd : OS.is_dir_node c = true).
          { destruct c; cbn in *; congruence. }
          rewrite Hd. now apply Hc.
        + right. now apply IHes.
      - right. now apply IHes. }
  all: cbn; tauto.
Qed.

(** The directory generator ends in no other exception than an
    [OSError]. *)
Lemma iterate_directories_raises o n :
  forall path e,
    snd (Pathlib.iterate_directories o path n) = Some e ->
    exists en, e = OSError en.
Proof.
  induction n as [r m sz d|es IH|t _|] using node_induction; intros path e;
    cbn [Pathlib.iterate_directories snd]; intros H; apply catch_raises in H.
  2:{ destruct (OS.scandir_fault o path); [injection H as <-; eauto|].
      induction es as [|[name c] es IHes]; [discriminate|].
      inversion IH as [|? ? Hc Hrest]; subst. cbn [fst snd] in Hc.
      destruct (Pathlib.entry_is_dir o (Pathlib.make_child_relpath path name) c)
        as [b|e'] eqn:Eb.
      - destruct (b && negb (OS.is_symlink c)).
        + apply gen_seq_raises in H as [H|H]; [eapply Hc; eauto|now apply IHes].
        + now apply IHes.
      - cbn in H. injection H as ->.
        destruct c; cbn in Eb; try discriminate.
        eapply is_dir_of_raises; eauto. }
  all: cbn in H; injection H as <-; eauto.
Qed.

(** ** The selectors *)

(** The precise selector on a machine without injected errors. *)
Lemma precise_healthy root path n name :
  Pathlib.select_from_ (Pathlib.Precise name Pathlib.Terminating)
                       (OS.healthy root) path n =
  (match OS.resolve n [name] with
   | inr _ => [Pathlib.make_child_relpath path name]
   | inl _ => []
   end, None).
Proof.
  cbn [Pathlib.select_from_ Pathlib.dironly].
  unfold Pathlib.stat_child, OS.healthy, OS.no_fault. cbn [OS.fault].
  destruct (OS.resolve n [name]) as [e|c] eqn:E.
  - unfold Pathlib.exists_of. now rewrite (resolve_one_error _ _ E).
  - reflexivity.
Qed.

(** Whatever errors are injected, the precise selector yields nothing
    but the child, and only when the tree has it. *)
Lemma precise_sound o path n name q :
  In q (fst (Pathlib.select_from_ (Pathlib.Precise name Pathlib.Terminating)
                                  o path n)) ->
  q = Pathlib.make_child_relpath path name /\
  OS.fault o q = None /\
  exists c, OS.resolve n [name] = inr c.
Proof.
  cbn [Pathlib.select_from_ Pathlib.dironly]. rewrite catch_fst.
  unfold Pathlib.stat_child.
  destruct (OS.fault o (Pathlib.make_child_relpath path name)) as [e|] eqn:F.
  - unfold Pathlib.exists_of. destruct (Pathlib.ignore_error e); intros [].
  - destruct (OS.resolve n [name]) as [e|c] eqn:E.
    + unfold Pathlib.exists_of. rewrite (resolve_one_error _ _ E). intros [].
    + cbn. intros [<-|[]]. repeat split; eauto.
Qed.

(** A selector ends in no other exception than an [OSError]. *)
Lemma select_raises s o :
  forall path n e,
    snd (Pathlib.select_from_ s o path n) = Some e -> exists en, e = OSError en.
Proof.
  induction s as [|name s IH|s IH]; intros path n e; cbn [Pathlib.select_from_].
  - discriminate.
  - intros H. apply catch_raises in H.
    destruct (Pathlib.dironly s).
    + destruct (Pathlib.is_dir_of (Pathlib.stat_child o path n name)) as [[|]|e'] eqn:E.
      * destruct (Pathlib.stat_child o path n name); [discriminate|]. eapply IH; eauto.
      * discriminate.
      * cbn in H. injection H as ->. eapply is_dir_of_raises; eauto.
    + destruct (Pathlib.exists_of (Pathlib.stat_child o path n name)) as [[|]|e'] eqn:E.
      * destruct (Pathlib.stat_child o path n name); [discriminate|]. eapply IH; eauto.
      * discriminate.
      * cbn in H. injection H as ->. eapply exists_of_raises; eauto.
  - intros H. apply catch_raises in H. cbn [snd] in H.
    apply gen_seq_raises in H as [H|H].
    + apply gen_concat_raises in H as [g [Hg He]].
      apply in_map_iff in Hg as [sp [<- _]]. eapply IH; eauto.
    + cbn [snd] in H. eapply iterate_directories_raises; eauto.
Qed.

(** ** [glob] and the walk of [do_GET] *)

Lemma glob_selector :
  Pathlib.make_selector (Str.split "/" "**/openapi.json")
  = Pathlib.RecursiveWildcard
      (Pathlib.Precise "openapi.json" Pathlib.Terminating).
Proof. reflexivity. Qed.

Lemma glob_healthy root :
  Pathlib.glob (OS.healthy root) ["endpoints"] "**/openapi.json" =
  (found root, None).
Proof.
  unfold Pathlib.glob. rewrite glob_selector.
  unfold Pathlib.select_from, Pathlib.is_dir, OS.stat, found.
  cbn [OS.healthy OS.fault OS.root]. unfold OS.no_fault at 1 2.
  destruct (OS.resolve root ["endpoints"]) as [e|n] eqn:E.
  - unfold Pathlib.is_dir_of. now rewrite (resolve_one_error _ _ E).
  - unfold Pathlib.is_dir_of. destruct (OS.is_dir_node n) eqn:Hn; [|reflexivity].
    cbn [Pathlib.select_from_].
    rewrite (iterate_directories_healthy root n ["endpoints"] Hn). cbn [fst snd].
    rewrite (map_ext _ (fun sp =>
               (match OS.resolve (snd sp) ["openapi.json"] with
                | inr _ => [Pathlib.make_child_relpath (fst sp) "openapi.json"]
                | inl _ => []
                end, @None exn))) by (intro; apply precise_healthy).
    rewrite gen_concat_pure. cbn. now rewrite app_nil_r.
Qed.

(** On a machine without injected errors the walk ends, with the
    listing. *)
Lemma walk_healthy root : walk (OS.healthy root) = Ok (listing root).
Proof.
  unfold walk. rewrite glob_healthy.
  unfold Pathlib.exists_, OS.stat, listing, found.
  cbn [OS.healthy OS.fault OS.root]. unfold OS.no_fault.
  destruct (OS.resolve root ["endpoints"]) as [e|n] eqn:E.
  - unfold Pathlib.exists_of. now rewrite (resolve_one_error _ _ E).
  - reflexivity.
Qed.

(** Whatever errors are injected, what [glob] yields is in the listing
    of the tree, and [stat] works on it. *)
Lemma glob_sound o q :
  In q (fst (Pathlib.glob o ["endpoints"] "**/openapi.json")) ->
  In q (found (OS.root o)) /\ OS.fault o q = None.
Proof.
  unfold Pathlib.glob. rewrite glob_selector.
  unfold Pathlib.select_from, Pathlib.is_dir, OS.stat, found.
  destruct (OS.fault o ["endpoints"]) as [e|].
  { cbn. destruct (Pathlib.ignore_error e); intros []. }
  destruct (OS.resolve (OS.root o) ["endpoints"]) as [e|n] eqn:E.
  { cbn. destruct (Pathlib.ignore_error e); intros []. }
  cbn [Pathlib.is_dir_of]. destruct (OS.is_dir_node n); [|intros []].
  cbn [Pathlib.select_from_]. rewrite catch_fst. cbn [fst].
  intros H. apply unseen_In in H as [H _].
  apply gen_seq_In in H as [H|[]].
  apply gen_concat_In in H as [g [Hg H]].
  apply in_map_iff in Hg as [sp [<- Hsp]].
  apply precise_sound in H as (-> & F & c & Hc).
  split; [|exact F].
  apply unseen_In. split; [|intros []].
  apply in_flat_map. exists sp. split.
  - eapply iterate_directories_sound; eauto.
  - rewrite Hc. now left.
Qed.

(** Whatever errors are injected, a walk that ends lists only paths of
    the listing of the tree. *)
Lemma walk_sound o l s :
  walk o = Ok l -> In s l -> In s (listing (OS.root o)).
Proof.
  unfold walk, FalAIHandler.collect, listing.
  destruct (Pathlib.exists_ o ["endpoints"]) as [[|]|e]; [| |discriminate].
  - destruct (snd (Pathlib.glob o ["endpoints"] "**/openapi.json"));
      [discriminate|].
    intros [= <-]. cbn [app]. intros H.
    apply in_map_iff in H as (q & <- & Hq). apply in_map.
    now apply glob_sound.
  - intros [= <-] [].
Qed.

(** The walk of [do_GET] raises nothing but an [OSError]. *)
Lemma walk_raises o e : walk o = Raise e -> exists en, e = OSError en.
Proof.
  unfold walk, Pathlib.exists_.
  destruct (Pathlib.exists_of (OS.stat o ["endpoints"])) as [[|]|e'] eqn:E.
  - unfold FalAIHandler.collect.
    destruct (snd (Pathlib.glob o ["endpoints"] "**/openapi.json")) as [e'|] eqn:G;
      [|discriminate].
    intros [= <-]. unfold Pathlib.glob, Pathlib.select_from in G.
    destruct (Pathlib.is_dir o ["endpoints"]) as [[|]|e''] eqn:D.
    + destruct (OS.stat o ["endpoints"]); [discriminate|]. eapply select_raises; eauto.
    + discriminate.
    + cbn in G. injection G as ->. eapply is_dir_of_raises; eauto.
  - discriminate.
  - intros [= <-]. eapply exists_of_raises; eauto.
Qed.

(* ================================================================== *)
(** * The inherited methods on the handler of an accepted request *)

Arguments Str.of_N : simpl never.
Arguments Str.endswith_char : simpl never.
Arguments cors : simpl never.
Arguments SimpleHTTPRequestHandler.translate_path : simpl never.
Arguments SimpleHTTPRequestHandler.guess_type : simpl never.
Arguments SimpleHTTPRequestHandler.not_modified : simpl never.
Arguments OS.path_isdir : simpl never.
Arguments OS.path_isfile : simpl never.
Arguments OS.path_islink : simpl never.
Arguments OS.open_rb : simpl never.
Arguments OS.listdir : simpl never.
Arguments OS.valid : simpl never.
Arguments file_or_404 : simpl never.
Arguments file_outcome : simpl never.
Arguments directory_outcome : simpl never.
Arguments file_reply : simpl never.
Arguments file_source : simpl never.
Arguments not_modified_reply : simpl never.
Arguments error_reply : simpl never.
Arguments directory_reply : simpl never.
Arguments directory_page : simpl never.
Arguments redirect_reply : simpl never.
Arguments SimpleHTTPRequestHandler.send_file_head : simpl never.
Arguments SimpleHTTPRequestHandler.list_directory : simpl never.
Arguments SimpleHTTPRequestHandler.copyfile : simpl never.

Lemma bind_assoc (A B C : Type) (m : M A) (f : A -> M B) (g : B -> M C) h :
  bind (bind m f) g h = bind m (fun a => bind (f a) g) h.
Proof. unfold bind. destruct (m h) as [[a|e] h']; reflexivity. Qed.

Lemma bind_get (A B : Type) (f : handler -> A) (k : A -> M B) h :
  bind (get f) k h = k (f h) h.
Proof. reflexivity. Qed.

Lemma bind_path (B : Type) (k : string -> M B) s c p hs t buf w cc :
  bind (attr "path" path) k (mkHandler s c (Some p) hs t buf w cc) =
  k p (mkHandler s c (Some p) hs t buf w cc).
Proof. reflexivity. Qed.

Lemma bind_command (B : Type) (k : string -> M B) s c p hs t buf w cc :
  bind (attr "command" command) k (mkHandler s (Some c) p hs t buf w cc) =
  k c (mkHandler s (Some c) p hs t buf w cc).
Proof. reflexivity. Qed.

Lemma bind_end_headers (B : Type) (k : unit -> M B) s c p hs t buf w cc :
  bind FalAIHandler.end_headers k (mkHandler s c (Some p) hs t buf w cc) =
  k tt (mkHandler s c (Some p) hs t []
          (w ++ [Head (buf ++ cors p ++ [EndLine])]) cc).
Proof.
  unfold FalAIHandler.end_headers, cors.
  rewrite bind_assoc, bind_path.
  destruct (Str.startswith p "/endpoints"); cbn;
    rewrite <- ?app_assoc; reflexivity.
Qed.

(** [end_headers] before [parse_request] has assigned [self.path]. *)
Lemma end_headers_unset s c hs t buf w cc :
  FalAIHandler.end_headers (mkHandler s c None hs t buf w cc) =
  (Raise (AttributeError "path"), mkHandler s c None hs t buf w cc).
Proof. reflexivity. Qed.

Lemma send_error_parsed lib s hs cmd p now code message :
  BaseHTTPRequestHandler.send_error lib FalAIHandler.end_headers code message
    (parsed s hs cmd p now) =
  (Ok tt, mkHandler s (Some cmd) (Some p) hs now []
            (error_reply lib now cmd p code message) true).
Proof.
  unfold BaseHTTPRequestHandler.send_error, error_reply, parsed, error_has_body.
  destruct (responses lib code) as [[shortmsg longmsg]|];
    destruct message as [m|];
    destruct ((200 <=? code)%N && negb ((code =? 204)%N || (code =? 205)%N || (code =? 304)%N));
    cbn; rewrite bind_end_headers; cbn; unfold Str.eqb;
    destruct (String.eqb cmd "HEAD"); cbn; try reflexivity;
    match goal with
    | |- context [String.eqb ?b ""] => destruct (String.eqb b "")
    end; reflexivity.
Qed.

Lemma bind_send_error (B : Type) (k : unit -> M B) lib s hs cmd p now code message :
  bind (BaseHTTPRequestHandler.send_error lib FalAIHandler.end_headers code message)
       k (mkHandler s (Some cmd) (Some p) hs now [] [] true) =
  k tt (mkHandler s (Some cmd) (Some p) hs now []
          (error_reply lib now cmd p code message) true).
Proof.
  unfold bind at 1. fold (parsed s hs cmd p now). now rewrite send_error_parsed.
Qed.

Ltac run_methods :=
  cbn; rewrite ?bind_send_error, ?bind_end_headers; cbn.

Lemma send_file_head_parsed lib o s hs cmd p now fs_path slash :
  SimpleHTTPRequestHandler.send_file_head lib o FalAIHandler.end_headers
    fs_path slash (parsed s hs cmd p now) =
  (match file_outcome o fs_path slash with
   | Ok _ => Ok (file_source lib o hs fs_path slash)
   | Raise e => Raise e
   end,
   mkHandler s (Some cmd) (Some p) hs now []
     (file_or_404 lib o now hs cmd p fs_path slash false) true).
Proof.
  unfold SimpleHTTPRequestHandler.send_file_head, file_or_404, file_reply,
    file_source, file_outcome, not_modified_reply, parsed.
  destruct slash.
  - run_methods. reflexivity.
  - destruct (OS.open_rb o fs_path) as [[[m sz] d]|[e| |name|]];
      try (run_methods; reflexivity).
    rewrite bind_get. cbn [request_headers].
    destruct (SimpleHTTPRequestHandler.not_modified lib hs m);
      run_methods; reflexivity.
Qed.

Lemma list_directory_parsed lib o s hs cmd p now fs_path :
  SimpleHTTPRequestHandler.list_directory lib o FalAIHandler.end_headers
    fs_path (parsed s hs cmd p now) =
  (match OS.listdir o fs_path with
   | Ok names => Ok (Some (directory_page lib o p fs_path names))
   | Raise (OSError _) => Ok None
   | Raise e => Raise e
   end,
   mkHandler s (Some cmd) (Some p) hs now []
     (directory_reply lib o now cmd p fs_path false) true).
Proof.
  unfold SimpleHTTPRequestHandler.list_directory, directory_reply, parsed.
  destruct (OS.listdir o fs_path) as [names|[e| |name|]];
    rewrite ?bind_path; run_methods; reflexivity.
Qed.

Ltac run_static :=
  repeat (progress (rewrite ?bind_assoc, ?bind_get, ?bind_path, ?bind_command,
                      ?bind_send_error, ?bind_end_headers; cbn)).

Lemma file_or_404_body lib o now hs cmd p fs_path slash :
  file_or_404 lib o now hs cmd p fs_path slash true =
  file_or_404 lib o now hs cmd p fs_path slash false ++
  match file_source lib o hs fs_path slash with
  | Some d => if Str.eqb d "" then [] else [Data d]
  | None => []
  end.
Proof.
  unfold file_or_404, file_reply, file_source. destruct slash.
  - now rewrite app_nil_r.
  - destruct (OS.open_rb o fs_path) as [[[m sz] d]|[e| |name|]];
      try now rewrite app_nil_r.
    destruct (SimpleHTTPRequestHandler.not_modified lib hs m).
    + now rewrite app_nil_r.
    + cbn. now destruct (Str.eqb d "").
Qed.

Lemma copy_source lib o hs fs_path slash h :
  match file_source lib o hs fs_path slash with
  | Some source => SimpleHTTPRequestHandler.copyfile source
  | None => ret tt
  end h =
  (Ok tt,
   mkHandler (server h) (command h) (path h) (request_headers h) (time h)
     (headers_buffer h)
     (wfile h ++ match file_source lib o hs fs_path slash with
                 | Some d => if Str.eqb d "" then [] else [Data d]
                 | None => []
                 end)
     (close_connection h)).
Proof.
  destruct h. unfold SimpleHTTPRequestHandler.copyfile.
  destruct (file_source lib o hs fs_path slash) as [d|]; cbn;
    [destruct (Str.eqb d ""); cbn|]; rewrite ?app_nil_r; reflexivity.
Qed.

(** What is written does not depend on the body when [open] raises. *)
Lemma file_or_404_raised lib o now hs cmd p fs_path slash with_body e :
  file_outcome o fs_path slash = Raise e ->
  file_or_404 lib o now hs cmd p fs_path slash with_body = [].
Proof.
  unfold file_outcome, file_or_404. destruct slash; [discriminate|].
  destruct (OS.open_rb o fs_path) as [[[m sz] d]|[en| |name|]];
    try discriminate; reflexivity.
Qed.

(** A file system path that is not a directory, under [do_GET] and
    under [do_HEAD]. *)
Lemma file_run lib o s hs cmd p now fs_path slash :
  bind (SimpleHTTPRequestHandler.send_file_head lib o FalAIHandler.end_headers
          fs_path slash)
       (fun f => match f with
                 | Some source => SimpleHTTPRequestHandler.copyfile source
                 | None => ret tt
                 end)
       (parsed s hs cmd p now) =
  (file_outcome o fs_path slash,
   mkHandler s (Some cmd) (Some p) hs now []
     (file_or_404 lib o now hs cmd p fs_path slash true) true)
  /\
  bind (SimpleHTTPRequestHandler.send_file_head lib o FalAIHandler.end_headers
          fs_path slash)
       (fun _ => ret tt)
       (parsed s hs cmd p now) =
  (file_outcome o fs_path slash,
   mkHandler s (Some cmd) (Some p) hs now []
     (file_or_404 lib o now hs cmd p fs_path slash false) true).
Proof.
  pose proof (file_or_404_raised lib o now hs cmd p fs_path slash) as R.
  split; unfold bind; rewrite send_file_head_parsed;
    destruct (file_outcome o fs_path slash) as [[]|e];
    rewrite ?(R _ _ eq_refl); try reflexivity.
  rewrite copy_source, file_or_404_body. reflexivity.
Qed.

(** A directory without an index file, under [do_GET] and under
    [do_HEAD]. *)
Lemma directory_run lib o s hs cmd p now fs_path :
  bind (SimpleHTTPRequestHandler.list_directory lib o FalAIHandler.end_headers
          fs_path)
       (fun f => match f with
                 | Some source => SimpleHTTPRequestHandler.copyfile source
                 | None => ret tt
                 end)
       (parsed s hs cmd p now) =
  (directory_outcome o fs_path,
   mkHandler s (Some cmd) (Some p) hs now []
     (directory_reply lib o now cmd p fs_path true) true)
  /\
  bind (SimpleHTTPRequestHandler.list_directory lib o FalAIHandler.end_headers
          fs_path)
       (fun _ => ret tt)
       (parsed s hs cmd p now) =
  (directory_outcome o fs_path,
   mkHandler s (Some cmd) (Some p) hs now []
     (directory_reply lib o now cmd p fs_path false) true).
Proof.
  split; unfold bind; rewrite list_directory_parsed;
    unfold directory_outcome, directory_reply;
    destruct (OS.listdir o fs_path) as [names|[e| |name|]];
    try reflexivity.
  cbn. unfold SimpleHTTPRequestHandler.copyfile.
  match goal with |- context [Str.eqb ?b ""] => destruct (Str.eqb b "") end;
    reflexivity.
Qed.

Lemma static_run lib o s hs cmd p now :
  SimpleHTTPRequestHandler.do_GET lib o FalAIHandler.end_headers
    (parsed s hs cmd p now) =
  (static_outcome lib o p,
   mkHandler s (Some cmd) (Some p) hs now []
     (static_reply lib o now hs cmd p true) true)
  /\ SimpleHTTPRequestHandler.do_HEAD lib o FalAIHandler.end_headers
       (parsed s hs cmd p now) =
  (static_outcome lib o p,
   mkHandler s (Some cmd) (Some p) hs now []
     (static_reply lib o now hs cmd p false) true).
Proof.
  unfold SimpleHTTPRequestHandler.do_GET, SimpleHTTPRequestHandler.do_HEAD,
    SimpleHTTPRequestHandler.send_head, static_reply, static_outcome.
  unfold parsed at 1 2. rewrite !bind_assoc, !bind_path.
  fold (parsed s hs cmd p now).
  destruct (SimpleHTTPRequestHandler.translate_path lib p) as [fs_path slash].
  destruct (OS.path_isdir o fs_path).
  - destruct (Str.endswith_char (url_path lib p) "/"); cbn [negb].
    + destruct (OS.path_isfile o (fs_path ++ ["index.html"]));
        [|destruct (OS.path_isfile o (fs_path ++ ["index.htm"]))].
      * apply file_run.
      * apply file_run.
      * apply directory_run.
    + unfold redirect_reply, parsed. split; run_static; reflexivity.
  - apply file_run.
Qed.

(* ================================================================== *)
(** * The handler, request by request *)

(** The discovery branch. *)
Lemma discovery_run lib o s hs now :
  FalAIHandler.do_GET lib o (parsed s hs "GET" "/endpoints" now) =
  match walk o with
  | Ok l =>
      (Ok tt, mkHandler s (Some "GET") (Some "/endpoints") hs now []
                [Head (discovery_head lib now);
                 Data (Json.encode (Json.dumps l))] true)
  | Raise e =>
      (Raise e, mkHandler s (Some "GET") (Some "/endpoints") hs now []
                  [Head (discovery_head lib now)] true)
  end.
Proof.
  unfold FalAIHandler.do_GET, walk, parsed.
  rewrite bind_path.
  change (Str.eqb "/endpoints" "/endpoints") with true. cbv iota.
  destruct (Pathlib.exists_ o ["endpoints"]) as [[|]|e];
    [ destruct (FalAIHandler.collect [] (Pathlib.glob o ["endpoints"] "**/openapi.json")) | | ];
    reflexivity.
Qed.

(** What the method of an accepted request does. *)
Lemma dispatch_run lib o s hs cmd p now :
  FalAIHandler.dispatch lib o (parsed s hs cmd p now) =
  (fst (reply lib now o (Request cmd p hs)),
   mkHandler s (Some cmd) (Some p) hs now []
     (snd (reply lib now o (Request cmd p hs))) true).
Proof.
  unfold FalAIHandler.dispatch, reply, parsed. rewrite bind_command.
  destruct (Str.eqb cmd "GET") eqn:Hget.
  - apply String.eqb_eq in Hget. subst cmd.
    destruct (Str.eqb p "/endpoints") eqn:Hp.
    + apply String.eqb_eq in Hp. subst p.
      fold (parsed s hs "GET" "/endpoints" now). rewrite discovery_run.
      destruct (walk o); reflexivity.
    + unfold FalAIHandler.do_GET. rewrite bind_path, Hp.
      fold (parsed s hs "GET" p now).
      now rewrite (proj1 (static_run lib o s hs "GET" p now)).
  - destruct (Str.eqb cmd "HEAD").
    + fold (parsed s hs cmd p now).
      now rewrite (proj2 (static_run lib o s hs cmd p now)).
    + fold (parsed s hs cmd p now). now rewrite send_error_parsed.
Qed.

(** The constructor of the handler: what it returns and writes, and the
    server object, which it leaves as it was given. *)
Lemma init_run lib s now o r :
  FalAIHandler.__init__ lib s now o r = (reply lib now o r, s).
Proof.
  unfold FalAIHandler.__init__, FalAIHandler.handle,
    FalAIHandler.handle_one_request, BaseHTTPRequestHandler.parse_request.
  destruct r as [cmd p hs|code message|].
  - cbv beta iota zeta delta
      [bind set_command set_close_connection set_request ret get
       server command path request_headers time headers_buffer wfile
       close_connection].
    fold (parsed s hs cmd p now). rewrite dispatch_run.
    destruct (reply lib now o (Request cmd p hs)) as [[[]|e] w]; reflexivity.
  - unfold BaseHTTPRequestHandler.send_error.
    destruct (responses lib code) as [[shortmsg longmsg]|];
      destruct message as [m|];
      destruct ((200 <=? code)%N && negb ((code =? 204)%N || (code =? 205)%N || (code =? 304)%N));
      reflexivity.
  - reflexivity.
Qed.

Lemma serve_run lib s now o r : serve lib s now o r = reply lib now o r.
Proof. unfold serve. now rewrite init_run. Qed.

(** What [handle] returns and writes, request by request. *)
Lemma handle_run lib now o cmd p :
  handle lib now o cmd p =
  if Str.eqb cmd "GET" then
    if Str.eqb p "/endpoints" then
      match walk o with
      | Ok l => (Ok tt, [Head (discovery_head lib now);
                         Data (Json.encode (Json.dumps l))])
      | Raise e => (Raise e, [Head (discovery_head lib now)])
      end
    else (static_outcome lib o p, static_reply lib o now [] cmd p true)
  else if Str.eqb cmd "HEAD"
       then (static_outcome lib o p, static_reply lib o now [] cmd p false)
  else (Ok tt, error_reply lib now cmd p 501
                 (Some ("Unsupported method (" ++ repr lib cmd ++ ")")%string)).
Proof. unfold handle. now rewrite serve_run. Qed.

(* ================================================================== *)
(** * The response in each kind of reply *)

Lemma header_fields_app l1 l2 :
  header_fields (l1 ++ l2) = header_fields l1 ++ header_fields l2.
Proof. unfold header_fields. apply flat_map_app. Qed.

(** A header block built by [send_response], more headers and
    [end_headers], followed by data. *)
Lemma reply_view lib now code message extra p datas d :
  data_of datas = Some d ->
  response_of
    (Head (response_lines lib now code message ++ extra ++ cors p ++ [EndLine])
     :: datas) =
  Some (mkResponse code (message_of lib code message)
          (("Server", version_string lib)
           :: ("Date", date_time_string lib now)
           :: header_fields extra ++ header_fields (cors p))
          d).
Proof.
  intros Hd. unfold response_lines. cbn [app response_of]. rewrite Hd.
  cbn [header_fields flat_map app]. fold (header_fields (extra ++ cors p ++ [EndLine])).
  rewrite !header_fields_app. cbn [header_fields flat_map]. now rewrite app_nil_r.
Qed.

(** The three CORS headers are in a response whose headers end with
    those of [cors p], when [p] starts with [/endpoints]. *)
Lemma cors_present p (hs : list (string * string)) (r : response) :
  Str.startswith p "/endpoints" = true ->
  headers r = hs ++ header_fields (cors p) ->
  has_header r "Access-Control-Allow-Origin" "*" /\
  has_header r "Access-Control-Allow-Methods" "GET, POST, OPTIONS" /\
  has_header r "Access-Control-Allow-Headers" "Content-Type, Authorization".
Proof.
  intros Hp Hh. unfold has_header, cors in *. rewrite Hh, Hp.
  repeat split; apply in_or_app; right; cbn; auto.
Qed.

Lemma string_app_nil_r (s : string) : (s ++ "")%string = s.
Proof. induction s as [|c s IH]; cbn; [reflexivity|now rewrite IH]. Qed.

Lemma data_of_optional (c : bool) (b : string) :
  data_of (if c then [Data b] else []) = Some (if c then b else EmptyString).
Proof. destruct c; cbn; [now rewrite string_app_nil_r|reflexivity]. Qed.

(** Without an [If-Modified-Since] field the file is sent. *)
Lemma not_modified_none lib hs mtime :
  header_get "If-Modified-Since" hs = None ->
  SimpleHTTPRequestHandler.not_modified lib hs mtime = false.
Proof.
  unfold SimpleHTTPRequestHandler.not_modified. now intros ->.
Qed.

(** The response of [send_error]. *)
Lemma error_reply_view lib now cmd p code message :
  exists resp,
    response_of (error_reply lib now cmd p code (Some message)) = Some resp /\
    status resp = code /\ reason resp = message /\
    (exists hs, headers resp = hs ++ header_fields (cors p)) /\
    (Str.eqb cmd "HEAD" = true -> body resp = EmptyString).
Proof.
  unfold error_reply.
  destruct (responses lib code) as [[shortmsg longmsg]|].
  all: rewrite (app_assoc [Header "Connection" "close"] _ (cors p ++ [EndLine]));
    erewrite reply_view by apply data_of_optional;
    eexists; split; [reflexivity|]; cbn [status reason headers body];
    repeat split; eauto using app_comm_cons;
    try (eexists; rewrite !app_comm_cons; reflexivity);
    intros ->; reflexivity.
Qed.

(** The response for a file that was opened and is sent. *)
Lemma file_reply_view lib now p fs_path mtime size d with_body :
  exists resp,
    response_of (file_reply lib now p fs_path mtime size d with_body) = Some resp /\
    status resp = 200%N /\
    has_header resp "Content-type" (SimpleHTTPRequestHandler.guess_type lib fs_path) /\
    has_header resp "Content-Length" (Str.of_N size) /\
    (exists hs, headers resp = hs ++ header_fields (cors p)) /\
    body resp = (if with_body then d else EmptyString).
Proof.
  unfold file_reply. erewrite reply_view by apply data_of_optional.
  eexists; split; [reflexivity|]. cbn [status headers body].
  repeat split.
  - unfold has_header. cbn. auto.
  - unfold has_header. cbn. auto.
  - eexists. rewrite !app_comm_cons. reflexivity.
  - destruct with_body; [|reflexivity]. cbn [andb].
    destruct (Str.eqb d "") eqn:E; [|reflexivity].
    apply String.eqb_eq in E. now subst d.
Qed.

(** The response for a file that has not changed. *)
Lemma not_modified_reply_view lib now p :
  exists resp,
    response_of (not_modified_reply lib now p) = Some resp /\
    status resp = 304%N /\
    (exists hs, headers resp = hs ++ header_fields (cors p)) /\
    body resp = EmptyString.
Proof.
  unfold not_modified_reply.
  change (response_lines lib now 304 None ++ cors p ++ [EndLine])
    with (response_lines lib now 304 None ++ [] ++ cors p ++ [EndLine]).
  erewrite reply_view by reflexivity.
  eexists; split; [reflexivity|]. cbn [status headers body].
  repeat split. eexists. rewrite !app_comm_cons. reflexivity.
Qed.

(** The response that redirects to the URL with a slash. *)
Lemma redirect_reply_view lib now p :
  exists resp,
    response_of (redirect_reply lib now p) = Some resp /\
    status resp = 301%N /\
    (exists hs, headers resp = hs ++ header_fields (cors p)) /\
    body resp = EmptyString.
Proof.
  unfold redirect_reply.
  erewrite reply_view by reflexivity.
  eexists; split; [reflexivity|]. cbn [status headers body].
  repeat split. eexists. rewrite !app_comm_cons. reflexivity.
Qed.

(** ** Paths that cannot be handed to the operating system *)

Lemma valid_app p q : OS.valid (p ++ q) = OS.valid p && OS.valid q.
Proof. apply forallb_app. Qed.

Lemma path_isdir_valid o p : OS.path_isdir o p = true -> OS.valid p = true.
Proof. unfold OS.path_isdir. now destruct (OS.valid p). Qed.

(** [open] raises an [OSError], or [ValueError] for a path that is not
    valid, and nothing else. *)
Lemma open_rb_raises o p e :
  OS.open_rb o p = Raise e ->
  (exists en, e = OSError en) \/ (e = ValueError /\ OS.valid p = false).
Proof.
  unfold OS.open_rb. destruct (OS.valid p); [|intros [= <-]; now right].
  destruct (OS.stat o p) as [en|[[|] m sz d|es|t]]; try discriminate;
    intros [= <-]; left; eauto.
Qed.

Lemma listdir_raises o p e :
  OS.listdir o p = Raise e ->
  (exists en, e = OSError en) \/ (e = ValueError /\ OS.valid p = false).
Proof.
  unfold OS.listdir. destruct (OS.valid p); [|intros [= <-]; now right].
  destruct (OS.scandir_fault o p) as [en|]; [intros [= <-]; left; eauto|].
  destruct (OS.stat o p) as [en|[r m sz d|es|t]]; try discriminate;
    intros [= <-]; left; eauto.
Qed.

(** The static file methods raise exactly for a path that is not valid
    and has no final slash, and what they raise is [ValueError]. *)
Lemma file_outcome_spec o fs_path slash :
  file_outcome o fs_path slash =
  if slash || OS.valid fs_path then Ok tt else Raise ValueError.
Proof.
  unfold file_outcome. destruct slash; [reflexivity|]. cbn [orb].
  destruct (OS.open_rb o fs_path) as [x|e] eqn:E.
  - unfold OS.open_rb in E. now destruct (OS.valid fs_path).
  - destruct (open_rb_raises _ _ E) as [[en ->]|[-> ->]]; [|reflexivity].
    unfold OS.open_rb in E. now destruct (OS.valid fs_path).
Qed.

Lemma directory_outcome_valid o fs_path :
  OS.valid fs_path = true -> directory_outcome o fs_path = Ok tt.
Proof.
  intros V. unfold directory_outcome.
  destruct (OS.listdir o fs_path) as [x|e] eqn:E; [reflexivity|].
  destruct (listdir_raises _ _ E) as [[en ->]|[_ H]]; [reflexivity|congruence].
Qed.

Lemma static_outcome_spec lib o p :
  static_outcome lib o p =
  if snd (SimpleHTTPRequestHandler.translate_path lib p)
     || OS.valid (fst (SimpleHTTPRequestHandler.translate_path lib p))
  then Ok tt else Raise ValueError.
Proof.
  unfold static_outcome.
  destruct (SimpleHTTPRequestHandler.translate_path lib p) as [fs_path slash].
  cbn [fst snd].
  destruct (OS.path_isdir o fs_path) eqn:D; [|apply file_outcome_spec].
  pose proof (path_isdir_valid _ _ D) as V. rewrite V, orb_true_r.
  destruct (negb (Str.endswith_char (url_path lib p) "/")); [reflexivity|].
  destruct (OS.path_isfile o (fs_path ++ ["index.html"]));
    [|destruct (OS.path_isfile o (fs_path ++ ["index.htm"]))].
  - now rewrite file_outcome_spec, valid_app, V.
  - now rewrite file_outcome_spec, valid_app, V.
  - now apply directory_outcome_valid.
Qed.

Lemma static_outcome_valid lib o p :
  OS.valid (fst (SimpleHTTPRequestHandler.translate_path lib p)) = true ->
  static_outcome lib o p = Ok tt.
Proof. intros V. now rewrite static_outcome_spec, V, orb_true_r. Qed.

(** When the static file methods raise, nothing has been written. *)
Lemma static_reply_raised lib o now hs cmd p with_body e :
  static_outcome lib o p = Raise e ->
  static_reply lib o now hs cmd p with_body = [].
Proof.
  unfold static_outcome, static_reply.
  destruct (SimpleHTTPRequestHandler.translate_path lib p) as [fs_path slash].
  destruct (OS.path_isdir o fs_path) eqn:D.
  - pose proof (path_isdir_valid _ _ D) as V.
    destruct (negb (Str.endswith_char (url_path lib p) "/")); [discriminate|].
    destruct (OS.path_isfile o (fs_path ++ ["index.html"]));
      [|destruct (OS.path_isfile o (fs_path ++ ["index.htm"]))].
    + rewrite file_outcome_spec, valid_app, V. discriminate.
    + rewrite file_outcome_spec, valid_app, V. discriminate.
    + now rewrite directory_outcome_valid.
  - unfold file_outcome, file_or_404. destruct slash; [discriminate|].
    destruct (OS.open_rb o fs_path) as [[[m sz] d]|[en| |name|]];
      try discriminate; reflexivity.
Qed.

(** The two ways the static file methods end. *)
Lemma static_cases lib o now hs cmd p with_body :
  if negb (snd (SimpleHTTPRequestHandler.translate_path lib p))
     && negb (OS.valid (fst (SimpleHTTPRequestHandler.translate_path lib p)))
  then static_outcome lib o p = Raise ValueError /\
       static_reply lib o now hs cmd p with_body = []
  else static_outcome lib o p = Ok tt.
Proof.
  pose proof (static_reply_raised lib o now hs cmd p with_body) as R.
  rewrite static_outcome_spec in *.
  destruct (snd (SimpleHTTPRequestHandler.translate_path lib p));
    destruct (OS.valid (fst (SimpleHTTPRequestHandler.translate_path lib p)));
    cbn [negb andb orb] in *; try reflexivity.
  split; [reflexivity|]. now apply (R ValueError).
Qed.

(** The path of the discovery request names [endpoints] in the working
    directory. *)
Lemma translate_endpoints lib :
  SimpleHTTPRequestHandler.translate_path lib "/endpoints"
  = (["endpoints"], false).
Proof.
  unfold SimpleHTTPRequestHandler.translate_path.
  change (Str.before "#" (Str.before "?" "/endpoints")) with "/endpoints".
  rewrite (unquote_plain lib "/endpoints" eq_refl).
  vm_compute. reflexivity.
Qed.

Lemma static_outcome_endpoints lib o : static_outcome lib o "/endpoints" = Ok tt.
Proof.
  apply static_outcome_valid. rewrite translate_endpoints. reflexivity.
Qed.

(** ** The responses of the static file methods *)

(** The response of [list_directory]. *)
Lemma directory_reply_view lib o now cmd p fs_path with_body :
  OS.valid fs_path = true ->
  exists resp,
    response_of (directory_reply lib o now cmd p fs_path with_body) = Some resp /\
    (status resp = 200%N \/ status resp = 404%N) /\
    (exists hs, headers resp = hs ++ header_fields (cors p)) /\
    (Str.eqb cmd "HEAD" = true -> with_body = false -> body resp = EmptyString).
Proof.
  intros V. unfold directory_reply.
  destruct (OS.listdir o fs_path) as [names|e] eqn:E.
  - erewrite reply_view by apply data_of_optional.
    eexists; split; [reflexivity|]. cbn [status headers body].
    repeat split; [now left| |].
    + eexists. rewrite !app_comm_cons. reflexivity.
    + intros _ ->. reflexivity.
  - destruct (listdir_raises _ _ E) as [[en ->]|[_ H]]; [|congruence].
    destruct (error_reply_view lib now cmd p 404 "No permission to list directory")
      as (resp & H1 & H2 & _ & H3 & H4).
    exists resp. repeat split; auto.
Qed.

(** The response for a path that is not a directory. *)
Lemma file_or_404_view lib o now hs cmd p fs_path slash with_body :
  slash || OS.valid fs_path = true ->
  exists resp,
    response_of (file_or_404 lib o now hs cmd p fs_path slash with_body)
    = Some resp /\
    (exists hs', headers resp = hs' ++ header_fields (cors p)) /\
    (Str.eqb cmd "HEAD" = true -> with_body = false -> body resp = EmptyString) /\
    match (if slash then Raise (OSError ENOENT) else OS.open_rb o fs_path) with
    | Ok (mtime, size, d) =>
        if SimpleHTTPRequestHandler.not_modified lib hs mtime
        then status resp = 304%N /\ body resp = EmptyString
        else
          status resp = 200%N /\
          has_header resp "Content-type"
                     (SimpleHTTPRequestHandler.guess_type lib fs_path) /\
          has_header resp "Content-Length" (Str.of_N size) /\
          body resp = (if with_body then d else EmptyString)
    | Raise _ => status resp = 404%N /\ reason resp = "File not found"
    end.
Proof.
  intros V. unfold file_or_404.
  destruct slash; [|destruct (OS.open_rb o fs_path) as [[[m sz] d]|e] eqn:E].
  - destruct (error_reply_view lib now cmd p 404 "File not found")
      as (resp & H1 & H2 & H3 & H4 & H5).
    exists resp. repeat split; auto.
  - destruct (SimpleHTTPRequestHandler.not_modified lib hs m).
    + destruct (not_modified_reply_view lib now p) as (resp & H1 & H2 & H3 & H4).
      exists resp. repeat split; auto.
    + destruct (file_reply_view lib now p fs_path m sz d with_body)
        as (resp & H1 & H2 & H3 & H4 & H5 & H6).
      exists resp. repeat split; auto.
      intros _ ->. exact H6.
  - cbn [orb] in V.
    destruct (open_rb_raises _ _ E) as [[en ->]|[_ H]]; [|congruence].
    destruct (error_reply_view lib now cmd p 404 "File not found")
      as (resp & H1 & H2 & H3 & H4 & H5).
    exists resp. repeat split; auto.
Qed.

(** The status of the response for a path that is not a directory. *)
Lemma file_or_404_status lib o now hs cmd p fs_path slash with_body :
  slash || OS.valid fs_path = true ->
  exists resp,
    response_of (file_or_404 lib o now hs cmd p fs_path slash with_body)
    = Some resp /\
    (status resp = 200%N \/ status resp = 304%N \/ status resp = 404%N) /\
    (header_get "If-Modified-Since" hs = None -> status resp <> 304%N) /\
    (exists hs', headers resp = hs' ++ header_fields (cors p)) /\
    (Str.eqb cmd "HEAD" = true -> with_body = false -> body resp = EmptyString).
Proof.
  intros V.
  destruct (file_or_404_view lib o now hs cmd p fs_path slash with_body V)
    as (resp & H1 & H2 & H3 & H4).
  exists resp. repeat split; auto.
  - destruct (if slash then Raise (OSError ENOENT) else OS.open_rb o fs_path)
      as [[[m sz] d]|e]; [|tauto].
    destruct (SimpleHTTPRequestHandler.not_modified lib hs m); tauto.
  - intros Hn.
    destruct (if slash then Raise (OSError ENOENT) else OS.open_rb o fs_path)
      as [[[m sz] d]|e].
    + rewrite (not_modified_none lib hs m Hn) in H4.
      destruct H4 as [-> _]. discriminate.
    + destruct H4 as [-> _]. discriminate.
Qed.

(** The response of the static file methods, when they return. *)
Lemma static_reply_view lib o now hs cmd p with_body :
  static_outcome lib o p = Ok tt ->
  exists resp,
    response_of (static_reply lib o now hs cmd p with_body) = Some resp /\
    (status resp = 200%N \/ status resp = 301%N \/ status resp = 304%N
     \/ status resp = 404%N) /\
    (header_get "If-Modified-Since" hs = None -> status resp <> 304%N) /\
    (exists hs', headers resp = hs' ++ header_fields (cors p)) /\
    (Str.eqb cmd "HEAD" = true -> with_body = false -> body resp = EmptyString) /\
    (OS.path_isdir o (fst (SimpleHTTPRequestHandler.translate_path lib p)) = true ->
     Str.endswith_char (url_path lib p) "/" = false -> status resp = 301%N) /\
    (OS.path_isdir o (fst (SimpleHTTPRequestHandler.translate_path lib p)) = false ->
     match (if snd (SimpleHTTPRequestHandler.translate_path lib p)
            then Raise (OSError ENOENT)
            else OS.open_rb o (fst (SimpleHTTPRequestHandler.translate_path lib p)))
     with
     | Ok (mtime, size, d) =>
         if SimpleHTTPRequestHandler.not_modified lib hs mtime
         then status resp = 304%N /\ body resp = EmptyString
         else
           status resp = 200%N /\
           has_header resp "Content-type"
             (SimpleHTTPRequestHandler.guess_type lib
                (fst (SimpleHTTPRequestHandler.translate_path lib p))) /\
           has_header resp "Content-Length" (Str.of_N size) /\
           body resp = (if with_body then d else EmptyString)
     | Raise _ => status resp = 404%N /\ reason resp = "File not found"
     end).
Proof.
  rewrite static_outcome_spec. unfold static_reply.
  destruct (SimpleHTTPRequestHandler.translate_path lib p) as [fs_path slash].
  cbn [fst snd]. intros V.
  assert (V' : slash || OS.valid fs_path = true)
    by (destruct (slash || OS.valid fs_path); [reflexivity|discriminate]).
  clear V.
  destruct (OS.path_isdir o fs_path) eqn:D.
  - pose proof (path_isdir_valid _ _ D) as Vd.
    destruct (Str.endswith_char (url_path lib p) "/"); cbn [negb].
    + destruct (OS.path_isfile o (fs_path ++ ["index.html"]));
        [|destruct (OS.path_isfile o (fs_path ++ ["index.htm"]))].
      * destruct (file_or_404_status lib o now hs cmd p
                    (fs_path ++ ["index.html"]) false with_body)
          as (resp & H1 & H2 & H3 & H4 & H5);
          [now rewrite valid_app, Vd|].
        exists resp. repeat split; auto; try discriminate. tauto.
      * destruct (file_or_404_status lib o now hs cmd p
                    (fs_path ++ ["index.htm"]) false with_body)
          as (resp & H1 & H2 & H3 & H4 & H5);
          [now rewrite valid_app, Vd|].
        exists resp. repeat split; auto; try discriminate. tauto.
      * destruct (directory_reply_view lib o now cmd p fs_path with_body Vd)
          as (resp & H1 & H2 & H3 & H4).
        exists resp. repeat split; auto; try discriminate; [tauto|].
        intros _. destruct H2 as [->| ->]; discriminate.
    + destruct (redirect_reply_view lib now p) as (resp & H1 & H2 & H3 & H4).
      exists resp. repeat split; auto; try discriminate.
      intros _. rewrite H2. discriminate.
  - destruct (file_or_404_status lib o now hs cmd p fs_path slash with_body V')
      as (resp & H1 & H2 & H3 & H4 & H5).
    destruct (file_or_404_view lib o now hs cmd p fs_path slash with_body V')
      as (resp' & H1' & _ & _ & H6).
    rewrite H1 in H1'. injection H1' as <-.
    exists resp. repeat split; auto; try discriminate. tauto.
Qed.

(* ================================================================== *)
(** * The discovery response and the exceptions of the handler *)

Lemma discovery_view lib now datas d :
  data_of datas = Some d ->
  response_of (Head (discovery_head lib now) :: datas) =
  Some (mkResponse 200 (message_of lib 200 None)
          [ ("Server", version_string lib);
            ("Date", date_time_string lib now);
            ("Content-type", "application/json");
            ("Access-Control-Allow-Origin", "*");
            ("Access-Control-Allow-Origin", "*");
            ("Access-Control-Allow-Methods", "GET, POST, OPTIONS");
            ("Access-Control-Allow-Headers", "Content-Type, Authorization") ]
          d).
Proof. intros Hd. cbn. now rewrite Hd. Qed.

(** Whatever the request, a handler that raises raises an [Exception]. *)
Lemma reply_raises lib now o r e :
  fst (reply lib now o r) = Raise e -> is_Exception e = true.
Proof.
  destruct r as [cmd p hs|code message|]; cbn [reply].
  - destruct (Str.eqb cmd "GET");
      [destruct (Str.eqb p "/endpoints")|destruct (Str.eqb cmd "HEAD")];
      cbn [fst]; rewrite ?static_outcome_spec; try discriminate.
    + destruct (walk o) as [l|e'] eqn:W; [discriminate|].
      intros [= <-]. destruct (walk_raises _ W) as [en ->]. reflexivity.
    + destruct (_ || _); [discriminate|now intros [= <-]].
    + destruct (_ || _); [discriminate|now intros [= <-]].
  - now intros [= <-].
  - discriminate.
Qed.

Lemma handle_raises lib now o cmd p e :
  fst (handle lib now o cmd p) = Raise e -> is_Exception e = true.
Proof. unfold handle. rewrite serve_run. apply reply_raises. Qed.

(* ================================================================== *)
(** * The accept loop *)

Lemma answer_reply lib now o r : answer lib (now, o, r) = snd (reply lib now o r).
Proof. unfold answer. now rewrite serve_run. Qed.

Lemma handle_request_noblock_ok lib now o r s :
  TCPServer.handle_request_noblock (FalAIHandler.__init__ lib) now o r s =
  (Ok tt,
   let s' := TCPServer.record_reply s (answer lib (now, o, r)) in
   match fst (reply lib now o r) with
   | Ok _ => s'
   | Raise e => TCPServer.handle_error s' e
   end).
Proof.
  unfold TCPServer.handle_request_noblock, TCPServer.finish_request.
  rewrite init_run, answer_reply.
  pose proof (reply_raises lib now o r) as Hr.
  destruct (reply lib now o r) as [[u|e] w]; cbn [fst snd] in *.
  - reflexivity.
  - now rewrite (Hr e eq_refl).
Qed.

(** Connections alone never end the loop: each gets its reply, whatever
    the earlier ones were. *)
Lemma serve_loop_connections lib cs :
  forall s,
    TCPServer.shutdown_request s = false ->
    exists s',
      TCPServer.serve_loop (FalAIHandler.__init__ lib) (map connection cs) s
      = (TCPServer.Waiting, s') /\
      TCPServer.replies s' = TCPServer.replies s ++ map (answer lib) cs /\
      TCPServer.shutdown_request s' = false /\
      TCPServer.listening s' = TCPServer.listening s /\
      TCPServer.server_address s' = TCPServer.server_address s /\
      TCPServer.is_shut_down s' = TCPServer.is_shut_down s.
Proof.
  induction cs as [|[[now o] r] cs IH]; intros s Hs.
  - exists s. cbn. rewrite Hs, app_nil_r. repeat split; auto.
  - cbn [map connection TCPServer.serve_loop]. rewrite Hs.
    rewrite handle_request_noblock_ok.
    match goal with
    | |- context [TCPServer.serve_loop _ _ ?s1] =>
        destruct (IH s1) as (s' & H1 & H2 & H3 & H4 & H5 & H6)
    end.
    { now destruct (fst (reply lib now o r)). }
    exists s'. rewrite H1, H2, H4, H5, H6.
    destruct (fst (reply lib now o r)); cbn;
      rewrite <- app_assoc; repeat split; auto.
Qed.

(** An interrupt after any number of connections leaves the loop with
    [KeyboardInterrupt]. *)
Lemma serve_loop_interrupt lib cs rest :
  forall s,
    TCPServer.shutdown_request s = false ->
    exists s',
      TCPServer.serve_loop (FalAIHandler.__init__ lib)
        (map connection cs ++ TCPServer.Interrupt :: rest) s
      = (TCPServer.Raised KeyboardInterrupt, s') /\
      TCPServer.replies s' = TCPServer.replies s ++ map (answer lib) cs /\
      TCPServer.listening s' = TCPServer.listening s /\
      TCPServer.server_address s' = TCPServer.server_address s /\
      TCPServer.is_shut_down s' = TCPServer.is_shut_down s.
Proof.
  induction cs as [|[[now o] r] cs IH]; intros s Hs.
  - exists s. cbn. rewrite Hs, app_nil_r. repeat split; auto.
  - cbn [map app connection TCPServer.serve_loop]. rewrite Hs.
    rewrite handle_request_noblock_ok.
    match goal with
    | |- context [TCPServer.serve_loop _ _ ?s1] =>
        destruct (IH s1) as (s' & H1 & H2 & H3 & H4 & H5)
    end.
    { now destruct (fst (reply lib now o r)). }
    exists s'. rewrite H1, H2, H3, H4, H5.
    destruct (fst (reply lib now o r)); cbn;
      rewrite <- app_assoc; repeat split; auto.
Qed.

(* ================================================================== *)
(** * Paths in the tree and paths in the listing *)

Lemma reach_descends ds :
  forall n m, reach n ds = Some m -> descends n ds m.
Proof.
  induction ds as [|d ds IH]; intros n m; cbn [reach].
  - intros [= <-]. constructor.
  - destruct n as [r t sz b|es|t]; try discriminate.
    destruct (OS.assoc d es) as [c|] eqn:A; [|discriminate].
    destruct (OS.is_dir_node c) eqn:Hc; [|discriminate].
    intros H. econstructor; eauto using assoc_In.
Qed.

(** An entry [openapi.json] in a directory reached from [endpoints]
    through directories proper is in the listing. *)
Lemma reached_is_listed root e ds m c :
  OS.resolve root ["endpoints"] = inr e -> OS.is_dir_node e = true ->
  reach e ds = Some m -> OS.resolve m ["openapi.json"] = inr c ->
  In (spec_path ds) (listing root).
Proof.
  intros He Hd Hm Hc. unfold listing, spec_path. apply in_map.
  apply found_spec. exists e, ds, m, c.
  repeat split; auto using reach_descends.
Qed.

(** Every listed path has the directory [endpoints] first and the name
    [openapi.json] last. *)
Lemma listed_shape root s :
  In s (listing root) ->
  exists parts,
    s = Str.join "/" parts /\ 2 <= List.length parts /\
    List.hd EmptyString parts = "endpoints" /\
    List.last parts EmptyString = "openapi.json".
Proof.
  unfold listing. intros H. apply in_map_iff in H as (q & <- & Hq).
  apply found_spec in Hq as (e & ds & m & c & _ & _ & _ & _ & ->).
  exists ("endpoints" :: ds ++ ["openapi.json"]). repeat split.
  - cbn [List.length]. rewrite length_app. cbn. lia.
  - change ("endpoints" :: ds ++ ["openapi.json"])
      with (("endpoints" :: ds) ++ ["openapi.json"]).
    apply last_last.
Qed.

(* ================================================================== *)
(** * Properties of the server *)

Lemma handle_discovery lib now o :
  handle lib now o "GET" "/endpoints" =
  match walk o with
  | Ok l => (Ok tt, [Head (discovery_head lib now);
                     Data (Json.encode (Json.dumps l))])
  | Raise e => (Raise e, [Head (discovery_head lib now)])
  end.
Proof. now rewrite handle_run. Qed.

Lemma serve_discovery lib s now o hs :
  serve lib s now o (Request "GET" "/endpoints" hs) =
  match walk o with
  | Ok l => (Ok tt, [Head (discovery_head lib now);
                     Data (Json.encode (Json.dumps l))])
  | Raise e => (Raise e, [Head (discovery_head lib now)])
  end.
Proof. now rewrite serve_run. Qed.

(** C1, as the specification states it, fails: on the sample machine
    where [stat] of [endpoints] reports an I/O error, the handler does
    not return but raises, and the body of what was sent is empty, which
    is no JSON array. *)
Lemma C1_counterexample :
  fst (handle Sample.lib 7 Sample.broken "GET" "/endpoints")
  = Raise (OSError EIO) /\
  exists resp,
    response_of (snd (handle Sample.lib 7 Sample.broken "GET" "/endpoints"))
    = Some resp /\
    body resp = EmptyString /\
    Json.loads_strings (body resp) = None.
Proof.
  split; [vm_compute; reflexivity|].
  rewrite handle_discovery.
  replace (walk Sample.broken) with (@Raise (list string) (OSError EIO))
    by (vm_compute; reflexivity).
  cbn [snd]. erewrite discovery_view by reflexivity.
  eexists. split; [reflexivity|]. cbn [body]. split; reflexivity.
Qed.

(** C1, amended.  Every GET request whose path is exactly [/endpoints],
    whatever its header fields, is answered with status 200 and content
    type [application/json].  When the walk ends without an error of the
    operating system, the handler returns and the body is [json.dumps] of
    the list, which reads back as a JSON array of strings; when the walk
    fails, the exception leaves the handler and the body is empty.  On a
    machine that reports no errors the walk always ends. *)
Theorem C1_discovery_response lib s now o hs :
  (exists resp,
      response_of (snd (serve lib s now o (Request "GET" "/endpoints" hs)))
      = Some resp /\
      status resp = 200%N /\
      has_header resp "Content-type" "application/json" /\
      match walk o with
      | Ok l =>
          fst (serve lib s now o (Request "GET" "/endpoints" hs)) = Ok tt /\
          body resp = Json.dumps l /\
          Json.loads_strings (body resp) = Some (map Json.codes l)
      | Raise e =>
          fst (serve lib s now o (Request "GET" "/endpoints" hs)) = Raise e /\
          body resp = EmptyString /\
          Json.loads_strings (body resp) = None
      end)
  /\
  (forall root, exists l, walk (OS.healthy root) = Ok l).
Proof.
  split.
  - rewrite serve_discovery. destruct (walk o) as [l|e]; cbn [fst snd].
    + erewrite discovery_view by (cbn; now rewrite string_app_nil_r).
      eexists. repeat split; cbn [status body].
      * unfold has_header. cbn. tauto.
      * apply JsonFacts.encode_dumps.
      * rewrite JsonFacts.encode_dumps. apply JsonFacts.loads_dumps.
    + erewrite discovery_view by reflexivity.
      eexists. repeat split; cbn [status body].
      unfold has_header. cbn. tauto.
  - intros root. exists (listing root). apply walk_healthy.
Qed.

(** C2, as the specification states it, fails.  In the sample directory
    with a symbolic link, [endpoints/alias/openapi.json] is a file that
    exists and is not listed, and the one path listed names a
    directory, not a file.  On the sample machine that refuses access to
    [endpoints/a/openapi.json], that file and
    [endpoints/b/c/openapi.json] both exist and only the second is
    listed. *)
Lemma C2_counterexample :
  (OS.resolve Sample.linked ["endpoints"; "alias"; "openapi.json"]
   = inr Sample.spec_file /\
   OS.resolve Sample.linked ["endpoints"; "odd"; "openapi.json"]
   = inr (OS.Dir []) /\
   handle Sample.lib 7 (OS.healthy Sample.linked) "GET" "/endpoints"
   = (Ok tt, [Head (discovery_head Sample.lib 7);
              Data (Json.encode (Json.dumps ["endpoints/odd/openapi.json"]))]))
  /\
  (OS.resolve (OS.root Sample.denied) ["endpoints"; "a"; "openapi.json"]
   = inr Sample.spec_file /\
   OS.resolve (OS.root Sample.denied) ["endpoints"; "b"; "c"; "openapi.json"]
   = inr Sample.spec_file /\
   handle Sample.lib 7 Sample.denied "GET" "/endpoints"
   = (Ok tt, [Head (discovery_head Sample.lib 7);
              Data (Json.encode (Json.dumps ["endpoints/b/c/openapi.json"]))])).
Proof.
  repeat split; vm_compute; reflexivity.
Qed.

(** C2, amended.  On a machine that reports no errors, the body of the
    discovery response is [json.dumps] of the listing, which reads back
    as the listing; the listing holds exactly the paths, with their
    intermediate directories, of the entries named [openapi.json],
    files or not, in [endpoints] and in the directories reached from it
    through directories proper, not through symbolic links; every listed
    path has two or more segments and ends in [openapi.json]; when
    [endpoints/a/openapi.json] and [endpoints/b/c/openapi.json] exist
    and [a], [b] and [c] are directories proper, both are listed; and
    the order is the order of the walk, not a sorted one (in the sample
    directory [b] comes before [a]).  On a machine that reports errors,
    a walk that ends lists no path that is not in that listing. *)
Theorem C2_listing lib s now hs root :
  (exists resp,
      serve lib s now (OS.healthy root) (Request "GET" "/endpoints" hs)
      = (Ok tt, [Head (discovery_head lib now);
                 Data (Json.encode (Json.dumps (listing root)))]) /\
      response_of
        (snd (serve lib s now (OS.healthy root) (Request "GET" "/endpoints" hs)))
      = Some resp /\
      body resp = Json.dumps (listing root) /\
      Json.loads_strings (body resp) = Some (map Json.codes (listing root))) /\
  (forall p,
      In p (listing root) <->
      exists e ds m c,
        OS.resolve root ["endpoints"] = inr e /\ OS.is_dir_node e = true /\
        descends e ds m /\ OS.resolve m ["openapi.json"] = inr c /\
        p = spec_path ds) /\
  (forall p,
      In p (listing root) ->
      exists parts,
        p = Str.join "/" parts /\ 2 <= List.length parts /\
        List.hd EmptyString parts = "endpoints" /\
        List.last parts EmptyString = "openapi.json") /\
  (forall e a c f g,
      OS.resolve root ["endpoints"] = inr e -> OS.is_dir_node e = true ->
      reach e ["a"] = Some a -> OS.resolve a ["openapi.json"] = inr f ->
      reach e ["b"; "c"] = Some c -> OS.resolve c ["openapi.json"] = inr g ->
      In "endpoints/a/openapi.json" (listing root) /\
      In "endpoints/b/c/openapi.json" (listing root)) /\
  listing Sample.cwd
  = ["endpoints/b/c/openapi.json"; "endpoints/a/openapi.json"] /\
  (forall o l p,
      OS.root o = root -> walk o = Ok l -> In p l -> In p (listing root)).
Proof.
  split; [|split; [|split; [|split; [|split]]]].
  - rewrite serve_discovery, walk_healthy. cbn [snd].
    erewrite discovery_view by (cbn; now rewrite string_app_nil_r).
    eexists. split; [reflexivity|]. split; [reflexivity|]. cbn [body].
    rewrite JsonFacts.encode_dumps. split; [reflexivity|].
    apply JsonFacts.loads_dumps.
  - intros p. unfold listing, spec_path. rewrite in_map_iff. split.
    + intros (q & <- & Hq).
      apply found_spec in Hq as (e & ds & m & c & H1 & H2 & H3 & H4 & ->).
      exists e, ds, m, c. repeat split; auto.
    + intros (e & ds & m & c & H1 & H2 & H3 & H4 & ->).
      exists ("endpoints" :: ds ++ ["openapi.json"]). split; [reflexivity|].
      apply found_spec. exists e, ds, m, c. repeat split; auto.
  - apply listed_shape.
  - intros e a c f g He Hd Ha Hf Hc Hg. split.
    + apply (reached_is_listed root ["a"] He Hd Ha Hf).
    + apply (reached_is_listed root ["b"; "c"] He Hd Hc Hg).
  - vm_compute. reflexivity.
  - intros o l p <-. apply walk_sound.
Qed.




(** C4, as the specification states it, fails: on the sample machine
    where [stat] of [endpoints] reports an I/O error, the walk of the
    discovery request fails, yet the client has received status 200 with
    the usual headers and an empty body, not a 5xx status. *)
Lemma C4_counterexample :
  walk Sample.broken = Raise (OSError EIO) /\
  fst (handle Sample.lib 7 Sample.broken "GET" "/endpoints")
  = Raise (OSError EIO) /\
  exists resp,
    response_of (snd (handle Sample.lib 7 Sample.broken "GET" "/endpoints"))
    = Some resp /\
    status resp = 200%N /\ body resp = EmptyString /\
    ~ (500 <= status resp < 600)%N.
Proof.
  split; [vm_compute; reflexivity|]. split; [vm_compute; reflexivity|].
  rewrite handle_discovery.
  replace (walk Sample.broken) with (@Raise (list string) (OSError EIO))
    by (vm_compute; reflexivity).
  cbn [snd]. erewrite discovery_view by reflexivity.
  eexists. split; [reflexivity|]. cbn [status body]. repeat split. lia.
Qed.

(** A run in which only connections arrive keeps serving, and every
    connection has its reply. *)
Lemma main_connections lib cs :
  exists httpd,
    Main.main lib None (map connection cs)
    = Main.mkRun Main.banner (Some httpd) Main.Serving /\
    TCPServer.replies httpd = map (answer lib) cs.
Proof.
  unfold Main.main, TCPServer.serve_forever.
  match goal with
  | |- context [TCPServer.serve_loop _ _ ?s0] =>
      destruct (serve_loop_connections lib cs s0 eq_refl)
        as (s' & H1 & H2 & _)
  end.
  rewrite H1. exists s'. split; [reflexivity|]. exact H2.
Qed.

(** C4, amended.  A walk that fails during discovery is not turned into
    an error status: the status line 200 and the headers are already
    written, no body follows, and the exception, an [OSError], leaves
    the handler.  The accept loop records the exception and goes on with
    the next connection; no sequence of connections, whatever the
    requests, makes the process leave [serve_forever]. *)
Theorem C4_errors lib :
  (forall s now o hs e,
      walk o = Raise e ->
      serve lib s now o (Request "GET" "/endpoints" hs)
      = (Raise e, [Head (discovery_head lib now)]) /\
      is_Exception e = true)
  /\
  (forall now o hs e rest s,
      walk o = Raise e ->
      TCPServer.shutdown_request s = false ->
      TCPServer.serve_loop (FalAIHandler.__init__ lib)
        (TCPServer.Connection now o (Request "GET" "/endpoints" hs) :: rest) s
      = TCPServer.serve_loop (FalAIHandler.__init__ lib) rest
          (TCPServer.handle_error
             (TCPServer.record_reply s [Head (discovery_head lib now)]) e))
  /\
  (forall cs, exists httpd,
      Main.main lib None (map connection cs)
      = Main.mkRun Main.banner (Some httpd) Main.Serving /\
      TCPServer.replies httpd = map (answer lib) cs).
Proof.
  repeat split.
  - now rewrite serve_discovery, H.
  - destruct (walk_raises _ H) as [en ->]. reflexivity.
  - intros now o hs e rest s W Hs.
    cbn [TCPServer.serve_loop]. rewrite Hs, handle_request_noblock_ok.
    rewrite answer_reply. cbn [reply].
    change (Str.eqb "GET" "GET") with true.
    change (Str.eqb "/endpoints" "/endpoints") with true. cbv iota.
    rewrite W. reflexivity.
  - intros cs. apply main_connections.
Qed.

(** C4 on the sample machine with the failing [stat]. *)
Lemma C4_errors_witness :
  serve Sample.lib httpd0 7 Sample.broken (Request "GET" "/endpoints" [])
  = (Raise (OSError EIO), [Head (discovery_head Sample.lib 7)]).
Proof.
  apply (proj1 (C4_errors Sample.lib) httpd0 7%N Sample.broken [] (OSError EIO)).
  vm_compute. reflexivity.
Defined.

(** C5.  When [endpoints] is not a directory (nothing of that name, or a
    regular file), the discovery request succeeds and its body is the
    empty JSON array. *)
Theorem C5_no_directory lib now o :
  Pathlib.is_dir o ["endpoints"] = Ok false ->
  exists resp,
    handle lib now o "GET" "/endpoints"
    = (Ok tt, [Head (discovery_head lib now); Data "[]"]) /\
    response_of (snd (handle lib now o "GET" "/endpoints")) = Some resp /\
    status resp = 200%N /\ body resp = "[]".
Proof.
  intros Hd.
  assert (W : walk o = Ok []).
  { unfold walk, Pathlib.exists_. unfold Pathlib.is_dir in Hd.
    destruct (OS.stat o ["endpoints"]) as [e|n] eqn:S; cbn in *.
    - destruct (Pathlib.ignore_error e); [reflexivity|discriminate].
    - unfold Pathlib.glob, Pathlib.select_from, Pathlib.is_dir.
      rewrite S. cbn. injection Hd as ->. reflexivity. }
  rewrite handle_discovery, W. cbn [fst snd].
  erewrite discovery_view by reflexivity.
  eexists. repeat split.
Qed.

(** C5 in a working directory that has no [endpoints] at all. *)
Lemma C5_no_directory_witness :
  exists resp,
    handle Sample.lib 7 (OS.healthy (OS.Dir [])) "GET" "/endpoints"
    = (Ok tt, [Head (discovery_head Sample.lib 7); Data "[]"]) /\
    response_of (snd (handle Sample.lib 7 (OS.healthy (OS.Dir [])) "GET"
                             "/endpoints")) = Some resp /\
    status resp = 200%N /\ body resp = "[]".
Proof.
  apply (C5_no_directory Sample.lib 7 (OS.healthy (OS.Dir []))).
  vm_compute. reflexivity.
Defined.



(** C7.  The script prints the three lines of its banner first, whatever
    happens next, and creates its listener on port 8000 of every
    interface (the empty host name); while only connections arrive it
    keeps serving; when the interrupt arrives, after any number of
    connections, it prints the stop message, [shutdown] returns because
    [serve_forever] has set its flag on the way out, the listener is
    closed and the process ends with status 0. *)
Theorem C7_startup_and_interrupt lib :
  Main.PORT = 8000%N /\
  Main.banner = [ "FalAI Development Server";
                  "Serving at http://localhost:8000";
                  "Press Ctrl+C to stop" ] /\
  (forall bind_error events,
      firstn 3 (Main.stdout (Main.main lib bind_error events)) = Main.banner) /\
  (forall cs, exists httpd,
      Main.main lib None (map connection cs)
      = Main.mkRun Main.banner (Some httpd) Main.Serving /\
      TCPServer.server_address httpd = (EmptyString, 8000%N) /\
      TCPServer.listening httpd = true) /\
  (forall cs rest, exists httpd,
      Main.main lib None (map connection cs ++ TCPServer.Interrupt :: rest)
      = Main.mkRun (Main.banner ++ [Main.stop_message]) (Some httpd)
                   (Main.Exited 0) /\
      TCPServer.listening httpd = false /\
      TCPServer.replies httpd = map (answer lib) cs).
Proof.
  split; [reflexivity|]. split; [vm_compute; reflexivity|]. split; [|split].
  - intros bind_error events. unfold Main.main.
    destruct bind_error as [e|]; [vm_compute; reflexivity|].
    destruct (TCPServer.serve_forever _ events _) as [[|[e| |name|]|] s'];
      try (vm_compute; reflexivity).
    destruct (TCPServer.shutdown s'); vm_compute; reflexivity.
  - intros cs. unfold Main.main, TCPServer.serve_forever.
    match goal with
    | |- context [TCPServer.serve_loop _ _ ?s0] =>
        destruct (serve_loop_connections lib cs s0 eq_refl)
          as (s' & H1 & _ & _ & H4 & H5 & _)
    end.
    rewrite H1. exists s'. repeat split; assumption.
  - intros cs rest. unfold Main.main, TCPServer.serve_forever.
    match goal with
    | |- context [TCPServer.serve_loop _ _ ?s0] =>
        destruct (serve_loop_interrupt lib cs rest s0 eq_refl)
          as (s' & H1 & H2 & _)
    end.
    rewrite H1. cbn. eexists. split; [reflexivity|]. split; [reflexivity|].
    exact H2.
Qed.


(** C9.  The response to a GET request for exactly [/endpoints] has the
    header [Access-Control-Allow-Origin: *] twice: once from [do_GET] and
    once from [end_headers]. *)
Theorem C9_origin_header_twice lib now o :
  exists resp,
    response_of (snd (handle lib now o "GET" "/endpoints")) = Some resp /\
    status resp = 200%N /\
    count_header resp "Access-Control-Allow-Origin" "*" = 2.
Proof.
  rewrite handle_discovery.
  destruct (walk o); cbn [snd];
    (erewrite discovery_view by (cbn; reflexivity));
    eexists; (split; [reflexivity|]); split; reflexivity.
Qed.

(** C10.  A request for [/endpoints] with another method than GET does
    not get the listing.  HEAD runs the inherited static file method and
    has no body; any other method gets 501 from [send_error].  Either way
    the handler returns and the three CORS headers are present. *)
Theorem C10_other_methods lib now o cmd :
  Str.eqb cmd "GET" = false ->
  exists resp,
    fst (handle lib now o cmd "/endpoints") = Ok tt /\
    response_of (snd (handle lib now o cmd "/endpoints")) = Some resp /\
    has_header resp "Access-Control-Allow-Origin" "*" /\
    has_header resp "Access-Control-Allow-Methods" "GET, POST, OPTIONS" /\
    has_header resp "Access-Control-Allow-Headers" "Content-Type, Authorization" /\
    (Str.eqb cmd "HEAD" = true ->
     handle lib now o cmd "/endpoints"
     = (fst (SimpleHTTPRequestHandler.do_HEAD lib o FalAIHandler.end_headers
               (fresh cmd "/endpoints" now)),
        wfile (snd (SimpleHTTPRequestHandler.do_HEAD lib o
                      FalAIHandler.end_headers (fresh cmd "/endpoints" now)))) /\
     body resp = EmptyString /\
     (status resp = 200%N \/ status resp = 301%N \/ status resp = 404%N)) /\
    (Str.eqb cmd "HEAD" = false ->
     handle lib now o cmd "/endpoints"
     = (fst (BaseHTTPRequestHandler.send_error lib FalAIHandler.end_headers 501
               (Some ("Unsupported method (" ++ repr lib cmd ++ ")")%string)
               (fresh cmd "/endpoints" now)),
        wfile (snd (BaseHTTPRequestHandler.send_error lib
                      FalAIHandler.end_headers 501
                      (Some ("Unsupported method (" ++ repr lib cmd ++ ")")%string)
                      (fresh cmd "/endpoints" now)))) /\
     status resp = 501%N).
Proof.
  intros Hget. rewrite handle_run, Hget.
  destruct (Str.eqb cmd "HEAD") eqn:Hhead; cbn [fst snd].
  - rewrite static_outcome_endpoints.
    destruct (static_reply_view lib o now [] cmd "/endpoints" false
                (static_outcome_endpoints lib o))
      as (resp & H1 & H2 & Hn & [hs H3] & H4 & _).
    destruct (cors_present "/endpoints" hs resp eq_refl H3) as (C1 & C2 & C3).
    exists resp. repeat split; auto; try discriminate.
    + unfold fresh.
      now rewrite (proj2 (static_run lib o httpd0 [] cmd "/endpoints" now)),
        static_outcome_endpoints.
    + specialize (Hn eq_refl). tauto.
  - match goal with
    | |- context [error_reply lib now cmd "/endpoints" 501 (Some ?msg)] =>
        destruct (error_reply_view lib now cmd "/endpoints" 501 msg)
          as (resp & H1 & H2 & _ & [hs H3] & _)
    end.
    destruct (cors_present "/endpoints" hs resp eq_refl H3) as (C1 & C2 & C3).
    exists resp. repeat split; auto; try discriminate.
    unfold fresh. now rewrite send_error_parsed.
Qed.

(** C10 for a POST request on the sample machine. *)
Lemma C10_other_methods_witness :
  exists resp,
    response_of (snd (handle Sample.lib 7 (OS.healthy Sample.cwd)
                             "POST" "/endpoints")) = Some resp /\
    status resp = 501%N.
Proof.
  destruct (C10_other_methods Sample.lib 7 (OS.healthy Sample.cwd) "POST")
    as (resp & _ & H & _ & _ & _ & _ & H501); [vm_compute; reflexivity|].
  exists resp. split; [assumption|]. apply H501. vm_compute. reflexivity.
Defined.

(* ================================================================== *)
(** * Further properties of the encoded listing *)

Lemma codes_injective s : forall t, Json.codes s = Json.codes t -> s = t.
Proof.
  induction s as [|c s IH]; intros [|d t]; cbn; try discriminate; [reflexivity|].
  intros [= Hc Hs].
  assert (c = d) as -> by (rewrite <- (ascii_N_embedding c), <- (ascii_N_embedding d); now rewrite Hc).
  now rewrite (IH t Hs).
Qed.

Lemma map_codes_injective l : forall l', map Json.codes l = map Json.codes l' -> l = l'.
Proof.
  induction l as [|x l IH]; intros [|y l']; cbn; try discriminate; [reflexivity|].
  intros [= Hx Hl]. apply codes_injective in Hx. subst y. now rewrite (IH l' Hl).
Qed.

(** X1.  Line 28 of [server.py]: for every list of strings, the bytes of
    [json.dumps(endpoints).encode()] are ASCII, they read back as exactly
    the strings that were written, and so two different lists never give
    the same body. *)
Theorem X1_body_round_trip (endpoints : list string) :
  Json.all_ascii (Json.encode (Json.dumps endpoints)) = true /\
  Json.loads_strings (Json.encode (Json.dumps endpoints))
  = Some (map Json.codes endpoints) /\
  (forall endpoints',
      Json.encode (Json.dumps endpoints) = Json.encode (Json.dumps endpoints') ->
      endpoints = endpoints').
Proof.
  rewrite JsonFacts.encode_dumps. split; [apply JsonFacts.all_ascii_dumps|].
  split; [apply JsonFacts.loads_dumps|].
  intros l' H. rewrite JsonFacts.encode_dumps in H.
  apply map_codes_injective.
  pose proof (JsonFacts.loads_dumps endpoints) as H1.
  pose proof (JsonFacts.loads_dumps l') as H2.
  rewrite H in H1. congruence.
Qed.

(* ================================================================== *)
(** * Further properties of the script *)

Lemma events_split (events : list TCPServer.event) :
  (exists cs, events = map connection cs) \/
  (exists cs rest, events = map connection cs ++ TCPServer.Interrupt :: rest).
Proof.
  induction events as [|ev events IH].
  - left. now exists [].
  - destruct ev as [now o r|].
    + destruct IH as [[cs ->]|[cs [rest ->]]].
      * left. now exists ((now, o, r) :: cs).
      * right. now exists ((now, o, r) :: cs), rest.
    + right. now exists [], events.
Qed.

Lemma connection_not_interrupt cs : ~ In TCPServer.Interrupt (map connection cs).
Proof.
  intros H. apply in_map_iff in H as ([[now o] r] & H & _). discriminate.
Qed.

(** X2.  Lines 42 to 54: whatever arrives, the script ends in one of
    three ways and never hangs in [httpd.shutdown()].  When the socket
    cannot be bound it exits with status 1, having printed the banner and
    nothing else.  Otherwise it is still serving, with the banner alone
    on its output, as long as no interrupt has come; and from the first
    interrupt on it has printed the stop message, closed the listener and
    exited with status 0, the connections after the interrupt being left
    unanswered. *)
Theorem X2_every_run lib bind_error events :
  Main.state_of (Main.main lib bind_error events) <> Main.Stuck /\
  (forall e, bind_error = Some e ->
             Main.main lib bind_error events
             = Main.mkRun Main.banner None (Main.Exited 1)) /\
  (bind_error = None ->
   (~ In TCPServer.Interrupt events /\
    Main.state_of (Main.main lib bind_error events) = Main.Serving /\
    Main.stdout (Main.main lib bind_error events) = Main.banner)
   \/
   (In TCPServer.Interrupt events /\
    Main.state_of (Main.main lib bind_error events) = Main.Exited 0 /\
    Main.stdout (Main.main lib bind_error events)
    = Main.banner ++ [Main.stop_message] /\
    exists cs rest httpd,
      events = map connection cs ++ TCPServer.Interrupt :: rest /\
      Main.httpd (Main.main lib bind_error events) = Some httpd /\
      TCPServer.listening httpd = false /\
      TCPServer.replies httpd = map (answer lib) cs)).
Proof.
  destruct bind_error as [e|].
  - split; [discriminate|]. split; [intros e' _; reflexivity|discriminate].
  - assert (H : (~ In TCPServer.Interrupt events /\
                 Main.state_of (Main.main lib None events) = Main.Serving /\
                 Main.stdout (Main.main lib None events) = Main.banner)
                \/
                (In TCPServer.Interrupt events /\
                 Main.state_of (Main.main lib None events) = Main.Exited 0 /\
                 Main.stdout (Main.main lib None events)
                 = Main.banner ++ [Main.stop_message] /\
                 exists cs rest httpd,
                   events = map connection cs ++ TCPServer.Interrupt :: rest /\
                   Main.httpd (Main.main lib None events) = Some httpd /\
                   TCPServer.listening httpd = false /\
                   TCPServer.replies httpd = map (answer lib) cs)).
    { destruct (events_split events) as [[cs ->]|[cs [rest ->]]].
      - left. destruct (main_connections lib cs) as (httpd & -> & _).
        split; [apply connection_not_interrupt|]. split; reflexivity.
      - right. split; [apply in_or_app; right; now left|].
        unfold Main.main, TCPServer.serve_forever.
        match goal with
        | |- context [TCPServer.serve_loop _ _ ?s0] =>
            destruct (serve_loop_interrupt lib cs rest s0 eq_refl)
              as (s' & H1 & H2 & _)
        end.
        rewrite H1. cbn. split; [reflexivity|]. split; [reflexivity|].
        exists cs, rest. eexists. split; [reflexivity|]. split; [reflexivity|].
        split; [reflexivity|]. exact H2. }
    split; [|split; [discriminate|intros _; exact H]].
    destruct H as [(_ & -> & _)|(_ & -> & _)]; discriminate.
Qed.

(* ================================================================== *)
(** * Further properties of the responses *)

(** X3.  Lines 16 to 19: the header block of the discovery response is
    [Server], [Date], [Content-type], then [Access-Control-Allow-Origin]
    from [do_GET], then the three headers of [end_headers], in this order
    and nothing else.  In particular the response has no
    [Content-Length]: the end of the JSON body is the end of the
    connection.  This holds also when the walk fails after the headers. *)
Theorem X3_discovery_header_block lib now o :
  exists resp,
    response_of (snd (handle lib now o "GET" "/endpoints")) = Some resp /\
    map fst (headers resp)
    = [ "Server"; "Date"; "Content-type"; "Access-Control-Allow-Origin";
        "Access-Control-Allow-Origin"; "Access-Control-Allow-Methods";
        "Access-Control-Allow-Headers" ] /\
    (forall v, ~ has_header resp "Content-Length" v).
Proof.
  rewrite handle_discovery.
  destruct (walk o); cbn [snd];
    (erewrite discovery_view by (cbn; reflexivity));
    eexists; (split; [reflexivity|]); (split; [reflexivity|]);
    intros v; unfold has_header; cbn;
    intros H; repeat (destruct H as [H|H]; [discriminate H|]); exact H.
Qed.

(** ** The frame of every reply of the inherited methods *)

(** A reply with one header block made of the lines of [send_response],
    standard headers, the CORS headers of the path and the blank line,
    followed by at most one piece of data. *)
Lemma error_reply_frame lib now cmd p code message :
  exists m extra datas,
    error_reply lib now cmd p code message
    = Head (response_lines lib now code (Some m) ++ extra ++ cors p ++ [EndLine])
      :: datas /\
    forallb standard_header extra = true /\
    (datas = [] \/ exists b, datas = [Data b]).
Proof.
  unfold error_reply.
  destruct (responses lib code) as [[shortmsg longmsg]|];
    destruct message as [m|];
    rewrite (app_assoc [Header "Connection" "close"] _ (cors p ++ [EndLine]));
    eexists; eexists; eexists; (split; [reflexivity|]);
    (split; [destruct (error_has_body code); reflexivity|]);
    match goal with
    | |- context [if ?c then [Data ?b] else []] =>
        destruct c; [right; now exists b|now left]
    end.
Qed.

Lemma file_or_404_frame lib o now hs cmd p fs_path slash with_body :
  slash || OS.valid fs_path = true ->
  exists code m extra datas,
    file_or_404 lib o now hs cmd p fs_path slash with_body
    = Head (response_lines lib now code m ++ extra ++ cors p ++ [EndLine])
      :: datas /\
    forallb standard_header extra = true /\
    (datas = [] \/ exists b, datas = [Data b]).
Proof.
  intros V. unfold file_or_404.
  assert (E404 : exists code m extra datas,
             error_reply lib now cmd p 404 (Some "File not found")
             = Head (response_lines lib now code m ++ extra ++ cors p ++ [EndLine])
               :: datas /\
             forallb standard_header extra = true /\
             (datas = [] \/ exists b, datas = [Data b])).
  { destruct (error_reply_frame lib now cmd p 404 (Some "File not found"))
      as (m & extra & datas & H1 & H2 & H3).
    exists 404%N, (Some m), extra, datas. auto. }
  destruct slash; [exact E404|]. cbn [orb] in V.
  destruct (OS.open_rb o fs_path) as [[[mt sz] d]|e] eqn:E.
  - destruct (SimpleHTTPRequestHandler.not_modified lib hs mt).
    + unfold not_modified_reply.
      exists 304%N, None, [], []. split; [reflexivity|].
      split; [reflexivity|now left].
    + unfold file_reply.
      eexists; eexists; eexists; eexists. split; [reflexivity|].
      split; [reflexivity|].
      match goal with
      | |- context [if ?c then [Data ?b] else []] =>
          destruct c; [right; now exists b|now left]
      end.
  - destruct (open_rb_raises _ _ E) as [[en ->]|[_ H]]; [exact E404|congruence].
Qed.

Lemma directory_reply_frame lib o now cmd p fs_path with_body :
  OS.valid fs_path = true ->
  exists code m extra datas,
    directory_reply lib o now cmd p fs_path with_body
    = Head (response_lines lib now code m ++ extra ++ cors p ++ [EndLine])
      :: datas /\
    forallb standard_header extra = true /\
    (datas = [] \/ exists b, datas = [Data b]).
Proof.
  intros V. unfold directory_reply.
  destruct (OS.listdir o fs_path) as [names|e] eqn:E.
  - eexists; eexists; eexists; eexists. split; [reflexivity|].
    split; [reflexivity|].
    match goal with
    | |- context [if ?c then [Data ?b] else []] =>
        destruct c; [right; now exists b|now left]
    end.
  - destruct (listdir_raises _ _ E) as [[en ->]|[_ H]]; [|congruence].
    destruct (error_reply_frame lib now cmd p 404
                (Some "No permission to list directory"))
      as (m & extra & datas & H1 & H2 & H3).
    exists 404%N, (Some m), extra, datas. auto.
Qed.

Lemma static_reply_frame lib o now hs cmd p with_body :
  static_outcome lib o p = Ok tt ->
  exists code m extra datas,
    static_reply lib o now hs cmd p with_body
    = Head (response_lines lib now code m ++ extra ++ cors p ++ [EndLine])
      :: datas /\
    forallb standard_header extra = true /\
    (datas = [] \/ exists b, datas = [Data b]).
Proof.
  rewrite static_outcome_spec. unfold static_reply.
  destruct (SimpleHTTPRequestHandler.translate_path lib p) as [fs_path slash].
  cbn [fst snd]. intros V.
  assert (V' : slash || OS.valid fs_path = true)
    by (destruct (slash || OS.valid fs_path); [reflexivity|discriminate]).
  clear V.
  destruct (OS.path_isdir o fs_path) eqn:D; [|now apply file_or_404_frame].
  pose proof (path_isdir_valid _ _ D) as Vd.
  destruct (negb (Str.endswith_char (url_path lib p) "/")).
  - unfold redirect_reply.
    eexists; eexists; eexists; eexists. split; [reflexivity|].
    split; [reflexivity|now left].
  - destruct (OS.path_isfile o (fs_path ++ ["index.html"]));
      [apply file_or_404_frame; now rewrite valid_app, Vd|].
    destruct (OS.path_isfile o (fs_path ++ ["index.htm"]));
      [apply file_or_404_frame; now rewrite valid_app, Vd|].
    now apply directory_reply_frame.
Qed.






(** ** HEAD and the other methods *)

Lemma error_reply_head lib now p code message :
  error_reply lib now "HEAD" p code message
  = firstn 1 (error_reply lib now "GET" p code message).
Proof.
  unfold error_reply.
  destruct (responses lib code) as [[shortmsg longmsg]|]; reflexivity.
Qed.

Lemma file_or_404_head lib o now hs p fs_path slash :
  file_or_404 lib o now hs "HEAD" p fs_path slash false
  = firstn 1 (file_or_404 lib o now hs "GET" p fs_path slash true).
Proof.
  unfold file_or_404.
  destruct slash;
    [|destruct (OS.open_rb o fs_path) as [[[mt sz] d]|[e| |name|]]];
    try apply error_reply_head; try reflexivity.
  destruct (SimpleHTTPRequestHandler.not_modified lib hs mt); reflexivity.
Qed.

Lemma static_reply_head lib o now hs p :
  static_reply lib o now hs "HEAD" p false
  = firstn 1 (static_reply lib o now hs "GET" p true).
Proof.
  unfold static_reply.
  destruct (SimpleHTTPRequestHandler.translate_path lib p) as [fs_path slash].
  destruct (OS.path_isdir o fs_path); [|apply file_or_404_head].
  destruct (negb (Str.endswith_char (url_path lib p) "/")); [reflexivity|].
  destruct (OS.path_isfile o (fs_path ++ ["index.html"]));
    [apply file_or_404_head|].
  destruct (OS.path_isfile o (fs_path ++ ["index.htm"]));
    [apply file_or_404_head|].
  unfold directory_reply.
  destruct (OS.listdir o fs_path) as [names|[e| |name|]];
    try apply error_reply_head; reflexivity.
Qed.

(** X6.  For every path other than [/endpoints] and whatever the
    header fields, a HEAD request ends as the GET request for the same
    path ends, and what is written for it is the first write of the
    GET request: the header block (status line, headers, CORS headers)
    and no body.  When the GET request returns, as it does unless
    [open] raises [ValueError] for a NUL character in the path, there
    is such a header block. *)
Theorem X6_head_like_get lib s now o p hs :
  Str.eqb p "/endpoints" = false ->
  fst (serve lib s now o (Request "HEAD" p hs))
  = fst (serve lib s now o (Request "GET" p hs)) /\
  snd (serve lib s now o (Request "HEAD" p hs))
  = firstn 1 (snd (serve lib s now o (Request "GET" p hs))) /\
  (fst (serve lib s now o (Request "GET" p hs)) = Ok tt ->
   exists block datas,
     serve lib s now o (Request "GET" p hs) = (Ok tt, Head block :: datas) /\
     serve lib s now o (Request "HEAD" p hs) = (Ok tt, [Head block])).
Proof.
  intros Hp. rewrite !serve_run. cbn [reply].
  change (Str.eqb "GET" "GET") with true.
  change (Str.eqb "HEAD" "GET") with false.
  change (Str.eqb "HEAD" "HEAD") with true. cbv iota. rewrite Hp.
  cbn [fst snd]. rewrite static_reply_head.
  split; [reflexivity|]. split; [reflexivity|].
  intros Ho. rewrite Ho.
  destruct (static_reply_frame lib o now hs "GET" p true Ho)
    as (code & m & extra & datas & -> & _).
  eexists. exists datas. split; reflexivity.
Qed.

(** X6 on the sample directory: a path that names nothing. *)
Lemma X6_head_like_get_witness :
  exists block datas,
    serve Sample.lib httpd0 7 (OS.healthy Sample.cwd) (Request "GET" "/missing" [])
    = (Ok tt, Head block :: datas) /\
    serve Sample.lib httpd0 7 (OS.healthy Sample.cwd) (Request "HEAD" "/missing" [])
    = (Ok tt, [Head block]).
Proof.
  apply (X6_head_like_get Sample.lib httpd0 7 (OS.healthy Sample.cwd)
                          "/missing" []);
    vm_compute; reflexivity.
Defined.

(** X7.  The class defines [do_GET] and inherits [do_HEAD] and nothing
    else, so a request with any other method, POST and OPTIONS among
    them, is answered 501 with the reason [Unsupported method], whatever
    its path; this is so although [end_headers] announces POST and OPTIONS
    as allowed methods for the paths below [/endpoints]. *)
Theorem X7_other_methods_anywhere lib now o cmd p :
  Str.eqb cmd "GET" = false ->
  Str.eqb cmd "HEAD" = false ->
  exists resp,
    fst (handle lib now o cmd p) = Ok tt /\
    response_of (snd (handle lib now o cmd p)) = Some resp /\
    status resp = 501%N /\
    reason resp = ("Unsupported method (" ++ repr lib cmd ++ ")")%string /\
    (Str.startswith p "/endpoints" = true ->
     has_header resp "Access-Control-Allow-Methods" "GET, POST, OPTIONS").
Proof.
  intros Hget Hhead. rewrite handle_run, Hget, Hhead. cbn [fst snd].
  match goal with
  | |- context [error_reply lib now cmd p 501 (Some ?msg)] =>
      destruct (error_reply_view lib now cmd p 501 msg)
        as (resp & H1 & H2 & H3 & [hs H4] & _)
  end.
  exists resp. repeat split; auto.
  intros Hp. now destruct (cors_present p hs resp Hp H4) as (_ & C2 & _).
Qed.
(** X7 for an OPTIONS request below [/endpoints] on the sample machine. *)
Lemma X7_other_methods_anywhere_witness :
  exists resp,
    response_of (snd (handle Sample.lib 7 (OS.healthy Sample.cwd)
                             "OPTIONS" "/endpoints/a")) = Some resp /\
    status resp = 501%N /\
    has_header resp "Access-Control-Allow-Methods" "GET, POST, OPTIONS".
Proof.
  destruct (X7_other_methods_anywhere Sample.lib 7 (OS.healthy Sample.cwd)
              "OPTIONS" "/endpoints/a")
    as (resp & _ & H1 & H2 & _ & H3); [vm_compute; reflexivity ..|].
  exists resp. split; [exact H1|]. split; [exact H2|]. apply H3. vm_compute. reflexivity.
Defined.
(* ================================================================== *)
(** * Further properties of paths *)

Lemma split_plain sep w : has_char sep w = false -> Str.split sep w = [w].
Proof.
  induction w as [|c w IH]; cbn; [reflexivity|].
  intros H. apply orb_false_iff in H as [Hc Hw].
  rewrite Hc, (IH Hw). reflexivity.
Qed.

Lemma split_app sep w s :
  has_char sep w = false ->
  Str.split sep (w ++ String sep s) = w :: Str.split sep s.
Proof.
  induction w as [|c w IH]; cbn [append Str.split has_char].
  - intros _. now rewrite Ascii.eqb_refl.
  - intros H. apply orb_false_iff in H as [Hc Hw].
    rewrite Hc, (IH Hw). reflexivity.
Qed.

Lemma join_cons w w' rest :
  Str.join "/" (w :: w' :: rest) = (w ++ String "/" (Str.join "/" (w' :: rest)))%string.
Proof. reflexivity. Qed.

(** Splitting a joined path gives back its parts, when no part contains
    a slash. *)
Lemma split_join parts :
  parts <> [] ->
  Forall (fun w => has_char "/" w = false) parts ->
  Str.split "/" (Str.join "/" parts) = parts.
Proof.
  induction parts as [|w parts IH]; [congruence|].
  intros _ Hall. inversion Hall as [|? ? Hw Hrest]; subst.
  destruct parts as [|w' parts].
  - cbn [Str.join]. now apply split_plain.
  - rewrite join_cons, split_app by assumption.
    f_equal. apply IH; [discriminate|assumption].
Qed.

Lemma str_injective p q :
  p <> [] -> q <> [] ->
  Forall (fun w => has_char "/" w = false) p ->
  Forall (fun w => has_char "/" w = false) q ->
  Pathlib.str p = Pathlib.str q -> p = q.
Proof.
  intros Hp Hq Fp Fq H. unfold Pathlib.str in H.
  rewrite <- (@split_join p Hp Fp), <- (@split_join q Hq Fq). now rewrite H.
Qed.

Lemma all_names_follow (P : string -> Prop) n :
  forall m, all_names P n -> OS.follow n = inr m -> all_names P m.
Proof.
  induction n as [r t sz d|es _|t IH|] using node_induction; intros m Hn;
    cbn [OS.follow].
  - now intros [= <-].
  - now intros [= <-].
  - inversion Hn; subst. now apply IH.
  - discriminate.
Qed.

Lemma descends_names (P : string -> Prop) n ds m :
  all_names P n -> descends n ds m -> Forall P ds /\ all_names P m.
Proof.
  intros Hn Hd. induction Hd as [n|es d c ds m Hin Hdir Hd IH].
  - split; [constructor|assumption].
  - inversion Hn as [|? Hes| |]; subst.
    rewrite Forall_forall in Hes. destruct (Hes _ Hin) as [Pd Pc].
    destruct (IH Pc) as [Pds Pm]. split; [constructor|]; assumption.
Qed.

Lemma found_slash_free root q :
  all_names (fun w => has_char "/" w = false) root ->
  In q (found root) ->
  q <> [] /\ Forall (fun w => has_char "/" w = false) q.
Proof.
  intros Hroot Hq.
  apply found_spec in Hq as (e & ds & m & c & He & _ & Hd & _ & ->).
  split; [discriminate|].
  assert (Pe : all_names (fun w => has_char "/" w = false) e).
  { rewrite resolve_one in He.
    destruct (OS.follow root) as [en|r] eqn:Fr; [discriminate|].
    pose proof (all_names_follow Hroot Fr) as Hr.
    destruct r as [rd t sz b|es|t]; try discriminate.
    destruct (OS.assoc "endpoints" es) as [e'|] eqn:A; [|discriminate].
    apply assoc_In in A.
    inversion Hr as [|? Hes| |]; subst. rewrite Forall_forall in Hes.
    destruct (Hes _ A) as [_ He']. cbn [snd] in He'.
    eapply all_names_follow; eauto. }
  destruct (@descends_names _ e ds m Pe Hd) as [Pds _].
  constructor; [reflexivity|].
  apply Forall_app. split; [assumption|]. constructor; [reflexivity|constructor].
Qed.

Lemma found_NoDup root : NoDup (found root).
Proof.
  unfold found. destruct (OS.resolve root ["endpoints"]); [constructor|].
  destruct (OS.is_dir_node n); [apply unseen_NoDup|constructor].
Qed.

Lemma discovery_body lib now root :
  exists resp,
    response_of (snd (handle lib now (OS.healthy root) "GET" "/endpoints"))
    = Some resp /\
    Json.loads_strings (body resp) = Some (map Json.codes (listing root)).
Proof.
  rewrite handle_discovery, walk_healthy. cbn [snd].
  erewrite discovery_view by (cbn; now rewrite string_app_nil_r).
  eexists. split; [reflexivity|]. cbn [body].
  rewrite JsonFacts.encode_dumps. apply JsonFacts.loads_dumps.
Qed.

(** X9.  In a tree whose entry names contain no slash (as the names of a
    file system do), the discovery listing never has the same path
    twice, and the body reads back as a list without repetition: there
    is nothing left to deduplicate. *)
Theorem X9_listing_without_repetition lib now root :
  all_names (fun w => has_char "/" w = false) root ->
  NoDup (listing root) /\
  exists resp l,
    response_of (snd (handle lib now (OS.healthy root) "GET" "/endpoints"))
    = Some resp /\
    Json.loads_strings (body resp) = Some l /\
    NoDup l /\ List.length l = List.length (listing root).
Proof.
  intros Hroot.
  assert (Hnd : NoDup (listing root)).
  { unfold listing. apply NoDup_map_NoDup_ForallPairs; [|apply found_NoDup].
    intros p q Hp Hq Heq.
    destruct (@found_slash_free root p Hroot Hp) as [Np Fp].
    destruct (@found_slash_free root q Hroot Hq) as [Nq Fq].
    now apply str_injective. }
  split; [exact Hnd|].
  destruct (discovery_body lib now root) as (resp & H1 & H2).
  exists resp, (map Json.codes (listing root)). repeat split; auto.
  - apply NoDup_map_NoDup_ForallPairs; [|exact Hnd].
    intros s t _ _. apply codes_injective.
  - apply length_map.
Qed.
(** X9 on the sample directory. *)
Lemma X9_listing_without_repetition_witness : NoDup (listing Sample.cwd).
Proof.
  apply (X9_listing_without_repetition Sample.lib 7 (root := Sample.cwd)).
  unfold Sample.cwd, Sample.spec_file.
  repeat (constructor; cbn [fst snd]; try reflexivity; try split).
Defined.
(** ** From the listing to the file *)

Lemma has_char_app c s t :
  has_char c (s ++ t) = has_char c s || has_char c t.
Proof.
  induction s as [|d s IH]; cbn; [reflexivity|]. now rewrite IH, orb_assoc.
Qed.

Lemma has_char_join c parts :
  Ascii.eqb "/" c = false ->
  Forall (fun w => has_char c w = false) parts ->
  has_char c (Str.join "/" parts) = false.
Proof.
  intros Hc. induction parts as [|w parts IH]; intros Hall; [reflexivity|].
  inversion Hall as [|? ? Hw Hrest]; subst.
  destruct parts as [|w' parts]; [exact Hw|].
  rewrite join_cons, has_char_app, Hw. cbn [has_char orb].
  rewrite Hc. cbn [orb]. now apply IH.
Qed.

Lemma before_absent c s : has_char c s = false -> Str.before c s = s.
Proof.
  induction s as [|d s IH]; cbn; [reflexivity|].
  intros H. apply orb_false_iff in H as [Hd Hs]. now rewrite Hd, (IH Hs).
Qed.

Lemma last_app s t : t <> EmptyString -> Str.last (s ++ t) = Str.last t.
Proof.
  intros Ht. induction s as [|c s IH]; [reflexivity|].
  cbn [append Str.last]. rewrite IH.
  destruct (s ++ t)%string eqn:E; [|reflexivity].
  destruct s; cbn in E; [congruence|discriminate].
Qed.

Lemma rstrip_app s t :
  Str.rstrip t <> EmptyString -> Str.rstrip (s ++ t) = (s ++ Str.rstrip t)%string.
Proof.
  intros Ht. induction s as [|c s IH]; [reflexivity|].
  cbn [append Str.rstrip]. rewrite IH.
  destruct (s ++ Str.rstrip t)%string eqn:E; [|reflexivity].
  destruct s; cbn in E; [congruence|discriminate].
Qed.

Lemma string_app_assoc (s t u : string) :
  ((s ++ t) ++ u)%string = (s ++ (t ++ u))%string.
Proof. induction s as [|c s IH]; cbn; [reflexivity|now rewrite IH]. Qed.

Lemma join_last xs y :
  exists pre, Str.join "/" (xs ++ [y]) = (pre ++ y)%string.
Proof.
  induction xs as [|x xs [pre IH]].
  - now exists EmptyString.
  - destruct xs as [|x' xs].
    + exists (x ++ "/")%string. cbn. now rewrite string_app_assoc.
    + change ((x :: x' :: xs) ++ [y]) with (x :: x' :: (xs ++ [y])).
      rewrite join_cons. change (x' :: xs ++ [y]) with ((x' :: xs) ++ [y]).
      rewrite IH. exists (x ++ String "/" pre)%string.
      now rewrite string_app_assoc.
Qed.

Lemma plain_spec w :
  plain w = true ->
  Str.eqb w "" = false /\ Str.eqb w "." = false /\ Str.eqb w ".." = false /\
  has_char "/" w = false /\ has_char "?" w = false /\ has_char "#" w = false /\
  has_char "%" w = false.
Proof.
  unfold plain. rewrite !andb_true_iff, !negb_true_iff. tauto.
Qed.

Lemma normpath_plain b parts :
  forallb plain parts = true ->
  forall acc,
    fold_left (SimpleHTTPRequestHandler.normpath_step b) parts acc = acc ++ parts.
Proof.
  induction parts as [|w parts IH]; intros Hall acc; cbn [fold_left].
  - now rewrite app_nil_r.
  - cbn [forallb] in Hall. apply andb_true_iff in Hall as [Hw Hrest].
    destruct (plain_spec _ Hw) as (H1 & H2 & H3 & _).
    unfold SimpleHTTPRequestHandler.normpath_step at 2.
    rewrite H1, H2, H3. cbn [orb negb]. rewrite (IH Hrest), <- app_assoc.
    reflexivity.
Qed.

Lemma filter_all (A : Type) (f : A -> bool) l :
  forallb f l = true -> filter f l = l.
Proof.
  induction l as [|x l IH]; cbn; [reflexivity|].
  intros H. apply andb_true_iff in H as [Hx Hl]. now rewrite Hx, (IH Hl).
Qed.

(** [normpath] on a path with one leading slash: the components are
    normalised and joined again behind the slash. *)
Lemma normpath_rooted s comps :
  Str.startswith (String "/" s) "//" = false ->
  fold_left (SimpleHTTPRequestHandler.normpath_step true)
            (Str.split "/" (String "/" s)) [] = comps ->
  SimpleHTTPRequestHandler.normpath (String "/" s)
  = String "/" (Str.join "/" comps).
Proof.
  intros Hs Hc. unfold SimpleHTTPRequestHandler.normpath.
  change (Str.eqb (String "/" s) "") with false. cbv iota.
  assert (H1 : Str.startswith (String "/" s) "/" = true) by now destruct s.
  rewrite H1.
  rewrite Hs. cbn [andb]. cbv zeta.
  change (negb (Str.eqb "/" "")) with true.
  rewrite Hc. reflexivity.
Qed.

(** A URL made of plain names has no percent sign. *)
Lemma spec_path_no_percent ds :
  forallb plain ds = true -> has_char "%" (String "/" (spec_path ds)) = false.
Proof.
  intros Hds. cbn [has_char]. change (Ascii.eqb "/" "%") with false. cbn [orb].
  unfold spec_path, Pathlib.str. apply has_char_join; [reflexivity|].
  constructor; [reflexivity|]. apply Forall_app. split.
  - apply Forall_forall. intros w Hw. rewrite forallb_forall in Hds.
    now destruct (plain_spec _ (Hds w Hw)) as (_ & _ & _ & _ & _ & _ & H).
  - constructor; [reflexivity|constructor].
Qed.

(** The words [translate_path] finds in the URL of a listed path. *)
Lemma translate_listed lib ds :
  forallb plain ds = true ->
  unquote lib (String "/" (spec_path ds)) = String "/" (spec_path ds) ->
  SimpleHTTPRequestHandler.translate_path lib (String "/" (spec_path ds))
  = ("endpoints" :: ds ++ ["openapi.json"], false).
Proof.
  intros Hds Hunq.
  assert (Hparts : forallb plain ("endpoints" :: ds ++ ["openapi.json"]) = true).
  { cbn [forallb]. rewrite forallb_app, Hds. reflexivity. }
  set (parts := "endpoints" :: ds ++ ["openapi.json"]) in *.
  assert (Hall : forall c, In c ["/"; "?"; "#"]%char ->
                   Forall (fun w => has_char c w = false) parts).
  { intros c Hc. apply Forall_forall. intros w Hw.
    rewrite forallb_forall in Hparts.
    destruct (plain_spec _ (Hparts w Hw)) as (_ & _ & _ & A & B & C & _).
    cbn in Hc. destruct Hc as [<-|[<-|[<-|[]]]]; assumption. }
  assert (Hsplit : Str.split "/" (String "/" (Pathlib.str parts))
                   = EmptyString :: parts).
  { cbn [Str.split]. rewrite Ascii.eqb_refl. f_equal.
    apply split_join; [discriminate|]. apply Hall. cbn. auto. }
  assert (Hq : has_char "?" (String "/" (Pathlib.str parts)) = false).
  { cbn [has_char]. apply has_char_join; [reflexivity|]. apply Hall. cbn. auto. }
  assert (Hh : has_char "#" (String "/" (Pathlib.str parts)) = false).
  { cbn [has_char]. apply has_char_join; [reflexivity|]. apply Hall. cbn. auto. }
  assert (Hform : exists rest,
             Pathlib.str parts = ("endpoints" ++ String "/" rest)%string).
  { unfold parts, Pathlib.str. destruct ds as [|d ds'].
    - eexists. reflexivity.
    - eexists. cbn [app]. rewrite join_cons. reflexivity. }
  destruct Hform as [rest Hform].
  assert (Hend : exists pre,
             String "/" (Pathlib.str parts) = (pre ++ "openapi.json")%string).
  { unfold parts, Pathlib.str.
    change ("endpoints" :: ds ++ ["openapi.json"])
      with (("endpoints" :: ds) ++ ["openapi.json"]).
    destruct (join_last ("endpoints" :: ds) "openapi.json") as [pre ->].
    now exists (String "/" pre). }
  destruct Hend as [pre Hend].
  unfold spec_path in *. fold parts in Hunq |- *.
  unfold SimpleHTTPRequestHandler.translate_path.
  rewrite (before_absent _ _ Hq), (before_absent _ _ Hh), Hunq.
  assert (Hnorm : SimpleHTTPRequestHandler.normpath (String "/" (Pathlib.str parts))
                  = String "/" (Pathlib.str parts)).
  { apply normpath_rooted.
    - rewrite Hform. reflexivity.
    - rewrite Hsplit. cbn [fold_left].
      unfold SimpleHTTPRequestHandler.normpath_step at 2.
      change (Str.eqb "" "") with true. cbn [orb].
      now rewrite (normpath_plain _ _ Hparts). }
  rewrite Hnorm, Hsplit. f_equal.
  - cbn [filter Str.eqb String.eqb negb].
    rewrite (filter_all (fun w => negb (Str.eqb w "")) parts).
    + apply filter_all. apply forallb_forall. intros w Hw.
      rewrite forallb_forall in Hparts.
      destruct (plain_spec _ (Hparts w Hw)) as (_ & A & B & _).
      now rewrite A, B.
    + apply forallb_forall. intros w Hw.
      rewrite forallb_forall in Hparts.
      destruct (plain_spec _ (Hparts w Hw)) as (A & _).
      now rewrite A.
  - rewrite Hend. rewrite rstrip_app by (vm_compute; discriminate).
    unfold Str.endswith_char.
    rewrite last_app by (vm_compute; discriminate).
    vm_compute. reflexivity.
Qed.

Lemma resolve_unfold n p :
  OS.resolve n p =
  match OS.follow n with
  | inl e => inl e
  | inr m =>
      match p with
      | [] => inr m
      | w :: ws =>
          match m with
          | OS.Dir es =>
              match OS.assoc w es with
              | None => inl ENOENT
              | Some c => OS.resolve c ws
              end
          | _ => inl ENOTDIR
          end
      end
  end.
Proof. destruct p; reflexivity. Qed.

(** Path resolution from a link and from what the link leads to. *)
Lemma resolve_follow n m p : OS.follow n = inr m -> OS.resolve n p = OS.resolve m p.
Proof.
  intros H. rewrite (resolve_unfold n), (resolve_unfold m), H.
  pose proof (follow_spec n) as S. rewrite H in S.
  destruct m as [r t sz d|es|t]; [reflexivity|reflexivity|discriminate].
Qed.

(** Path resolution along a descent through directories. *)
Lemma resolve_reach ds :
  forall n m q, reach n ds = Some m -> OS.resolve n (ds ++ q) = OS.resolve m q.
Proof.
  induction ds as [|d ds IH]; intros n m q; cbn [reach app].
  - now intros [= ->].
  - destruct n as [r t sz b|es|t]; try discriminate.
    destruct (OS.assoc d es) as [c|] eqn:A; [|discriminate].
    destruct (OS.is_dir_node c); [|discriminate].
    intros H. cbn [OS.resolve OS.follow]. rewrite A. now apply IH.
Qed.

Lemma resolve_endpoints root e rest :
  OS.resolve root ["endpoints"] = inr e ->
  OS.resolve root ("endpoints" :: rest) = OS.resolve e rest.
Proof.
  rewrite resolve_one, (resolve_unfold root).
  destruct (OS.follow root) as [en|[r t sz b|es|t]]; try discriminate.
  destruct (OS.assoc "endpoints" es) as [c|]; [|discriminate].
  apply resolve_follow.
Qed.

(** A plain name holds no NUL character. *)
Lemma plain_valid_name w : plain w = true -> has_char "000" w = false.
Proof.
  unfold plain. rewrite !andb_true_iff, !negb_true_iff. intros (_ & H).
  induction w as [|d w IH]; [reflexivity|]. cbn [any_char has_char] in *.
  apply orb_false_iff in H as [Hd Hw]. rewrite (IH Hw), orb_false_r.
  destruct (Ascii.eqb d "000") eqn:E; [|reflexivity].
  apply Ascii.eqb_eq in E. subst d. discriminate Hd.
Qed.

Lemma plain_valid ds :
  forallb plain ds = true ->
  OS.valid ("endpoints" :: ds ++ ["openapi.json"]) = true.
Proof.
  intros Hds. unfold OS.valid. cbn [forallb]. rewrite forallb_app.
  cbn [forallb]. change (has_char "000" "endpoints") with false.
  change (has_char "000" "openapi.json") with false. cbn [negb andb].
  rewrite andb_true_r. apply forallb_forall. intros w Hw.
  rewrite forallb_forall in Hds. now rewrite (plain_valid_name _ (Hds w Hw)).
Qed.

(** X10.  The listing and the static branch fit together.  Let the
    names [ds] be plain: not empty, not [.] or [..], made of printable
    ASCII characters other than the slash, the question mark, the hash
    and the percent sign.  When
    [endpoints] leads to a directory, the names [ds] lead down from it
    through directories that are no symbolic links, and the directory
    reached has a readable file [openapi.json], then on a machine
    without injected errors the listing contains the path of that file,
    and a GET request without header fields for a slash followed by
    that listed path is answered 200 with the bytes of the file and the
    three CORS headers. *)
Theorem X10_listed_path_is_served lib s now root ds e m mtime size data :
  forallb plain ds = true ->
  OS.resolve root ["endpoints"] = inr e -> OS.is_dir_node e = true ->
  reach e ds = Some m ->
  OS.resolve m ["openapi.json"] = inr (OS.File true mtime size data) ->
  In (spec_path ds) (listing root) /\
  exists resp,
    fst (serve lib s now (OS.healthy root)
               (Request "GET" (String "/" (spec_path ds)) [])) = Ok tt /\
    response_of
      (snd (serve lib s now (OS.healthy root)
                  (Request "GET" (String "/" (spec_path ds)) [])))
    = Some resp /\
    status resp = 200%N /\ body resp = data /\
    has_header resp "Access-Control-Allow-Origin" "*" /\
    has_header resp "Access-Control-Allow-Methods" "GET, POST, OPTIONS" /\
    has_header resp "Access-Control-Allow-Headers" "Content-Type, Authorization".
Proof.
  intros Hds He Hdir Hreach Hfile.
  split; [eapply reached_is_listed; eauto|].
  pose proof (translate_listed lib ds Hds
                (unquote_plain lib _ (spec_path_no_percent ds Hds)))
    as Htp.
  assert (Hform : exists rest,
             String "/" (spec_path ds) = ("/endpoints" ++ String "/" rest)%string).
  { unfold spec_path, Pathlib.str. destruct ds as [|d ds'].
    - eexists. reflexivity.
    - eexists. cbn [app]. rewrite join_cons. reflexivity. }
  destruct Hform as [rest Hform].
  assert (Hne : Str.eqb (String "/" (spec_path ds)) "/endpoints" = false)
    by (rewrite Hform; reflexivity).
  assert (Hpre : Str.startswith (String "/" (spec_path ds)) "/endpoints" = true)
    by (rewrite Hform; reflexivity).
  pose proof (plain_valid ds Hds) as V.
  assert (Ho : static_outcome lib (OS.healthy root) (String "/" (spec_path ds))
               = Ok tt)
    by (apply static_outcome_valid; now rewrite Htp).
  rewrite serve_run. unfold reply.
  change (Str.eqb "GET" "GET") with true. cbv iota. rewrite Hne, Ho.
  cbn [fst snd].
  destruct (static_reply_view lib (OS.healthy root) now [] "GET"
              (String "/" (spec_path ds)) true Ho)
    as (resp & H1 & _ & _ & [hs H3] & _ & _ & H6).
  rewrite Htp in H6. cbn [fst snd] in H6.
  assert (Hstat : OS.stat (OS.healthy root) ("endpoints" :: ds ++ ["openapi.json"])
                  = inr (OS.File true mtime size data)).
  { unfold OS.stat, OS.healthy, OS.no_fault. cbn [OS.fault OS.root].
    now rewrite (resolve_endpoints _ _ He), (resolve_reach _ _ _ Hreach). }
  unfold OS.path_isdir, OS.open_rb in H6. rewrite V, Hstat in H6.
  rewrite not_modified_none in H6 by reflexivity.
  destruct (H6 eq_refl) as (S1 & _ & _ & S4).
  exists resp. split; [reflexivity|]. split; [exact H1|].
  split; [exact S1|]. split; [exact S4|].
  exact (cors_present _ hs resp Hpre H3).
Qed.

(** X10 on the sample directory: the description below [endpoints/a]. *)
Lemma X10_listed_path_is_served_witness :
  In "endpoints/a/openapi.json" (listing Sample.cwd) /\
  exists resp,
    response_of
      (snd (serve Sample.lib httpd0 7 (OS.healthy Sample.cwd)
                  (Request "GET" "/endpoints/a/openapi.json" []))) = Some resp /\
    status resp = 200%N /\ body resp = "{}".
Proof.
  destruct (X10_listed_path_is_served Sample.lib httpd0 7 Sample.cwd ["a"]
              (e := OS.Dir [ ("b", OS.Dir [("c", OS.Dir [("openapi.json",
                                                          Sample.spec_file)])]);
                             ("a", OS.Dir [("openapi.json", Sample.spec_file);
                                           ("notes.txt", OS.File true 2 1 "n")]) ])
              (m := OS.Dir [("openapi.json", Sample.spec_file);
                            ("notes.txt", OS.File true 2 1 "n")])
              (mtime := 1%N) (size := 2%N) (data := "{}"))
    as (Hin & resp & _ & H1 & H2 & H3 & _);
    [vm_compute; reflexivity ..|].
  split; [exact Hin|]. exists resp. split; [exact H1|]. split; assumption.
Defined.

(** ** Errors the walk survives *)

(** A generator that ended without an exception or in a
    [PermissionError] ends without one inside [try ... except
    PermissionError]. *)
Lemma catch_benign (A : Type) (g : Pathlib.gen A) :
  snd g = None \/
  (exists e, snd g = Some (OSError e) /\ is_PermissionError e = true) ->
  snd (Pathlib.catch_PermissionError g) = None.
Proof.
  destruct g as [l [x|]]; cbn [snd].
  - intros [H|(e & [= ->] & He)]; [discriminate|]. cbn. now rewrite He.
  - reflexivity.
Qed.

Lemma gen_seq_benign (A : Type) (g1 g2 : Pathlib.gen A) :
  snd g1 = None ->
  snd g2 = None \/
  (exists e, snd g2 = Some (OSError e) /\ is_PermissionError e = true) ->
  snd (Pathlib.gen_seq g1 g2) = None \/
  (exists e, snd (Pathlib.gen_seq g1 g2) = Some (OSError e) /\
             is_PermissionError e = true).
Proof.
  destruct g1 as [l1 [x|]]; cbn [snd]; [discriminate|]. intros _ H. exact H.
Qed.

Lemma gen_concat_quiet (A : Type) (gs : list (Pathlib.gen A)) :
  (forall g, In g gs -> snd g = None) -> snd (Pathlib.gen_concat gs) = None.
Proof.
  intros H. destruct (snd (Pathlib.gen_concat gs)) as [e|] eqn:E; [|reflexivity].
  apply gen_concat_raises in E as (g & Hg & He). rewrite (H _ Hg) in He.
  discriminate.
Qed.

(** [entry.is_dir()] under survivable errors: an answer, or a
    [PermissionError]. *)
Lemma entry_is_dir_survivable o path c :
  survivable o ->
  (exists b, Pathlib.entry_is_dir o path c = Ok b /\
             (b && negb (OS.is_symlink c) = true -> OS.is_dir_node c = true)) \/
  (exists e, Pathlib.entry_is_dir o path c = Raise (OSError e) /\
             is_PermissionError e = true).
Proof.
  intros [Hs _]. destruct c as [r m sz d|es|t]; cbn [Pathlib.entry_is_dir].
  - left. now exists false.
  - left. now exists true.
  - destruct (OS.fault o path) as [e|] eqn:F.
    + unfold Pathlib.is_dir_of. destruct (Pathlib.ignore_error e) eqn:I.
      * left. now exists false.
      * right. exists e. split; [reflexivity|].
        destruct (Hs _ _ F) as [H|[H _]]; [congruence|exact H].
    + left. pose proof (follow_spec (OS.Link t)) as H.
      destruct (OS.follow (OS.Link t)) as [e|m]; cbn [Pathlib.is_dir_of].
      * subst e. now exists false.
      * exists (OS.is_dir_node m). split; [reflexivity|].
        cbn [OS.is_symlink negb]. now rewrite andb_false_r.
Qed.

(** Under survivable errors the directory generator ends without an
    exception. *)
Lemma iterate_directories_survivable o n :
  survivable o ->
  forall path,
    OS.is_dir_node n = true ->
    snd (Pathlib.iterate_directories o path n) = None.
Proof.
  intros Hs.
  induction n as [r m sz d|es IH|t _|] using node_induction; intros path Hd;
    try discriminate.
  cbn [Pathlib.iterate_directories snd]. apply catch_benign.
  destruct (OS.scandir_fault o path) as [e|] eqn:F.
  - right. exists e. split; [reflexivity|]. exact (proj2 Hs _ _ F).
  - clear Hd F. induction es as [|[name c] es IHes]; [now left|].
    inversion IH as [|? ? Hc Hrest]; subst. cbn [fst snd] in Hc.
    cbv beta iota zeta fix.
    destruct (entry_is_dir_survivable (Pathlib.make_child_relpath path name) c Hs)
      as [(b & Eb & Hb)|(e & Eb & He)]; rewrite Eb.
    + destruct (b && negb (OS.is_symlink c)) eqn:E.
      * apply gen_seq_benign; [apply Hc; auto|now apply IHes].
      * now apply IHes.
    + right. exists e. split; [reflexivity|exact He].
Qed.

(** Under survivable errors the precise selector ends without an
    exception. *)
Lemma precise_survivable o path n name :
  survivable o ->
  snd (Pathlib.select_from_ (Pathlib.Precise name Pathlib.Terminating)
                            o path n) = None.
Proof.
  intros [Hs _]. cbn [Pathlib.select_from_ Pathlib.dironly]. apply catch_benign.
  unfold Pathlib.stat_child.
  destruct (OS.fault o (Pathlib.make_child_relpath path name)) as [e|] eqn:F.
  - unfold Pathlib.exists_of. destruct (Pathlib.ignore_error e) eqn:I; [now left|].
    right. exists e. split; [reflexivity|].
    destruct (Hs _ _ F) as [H|[H _]]; [congruence|exact H].
  - destruct (OS.resolve n [name]) as [e|c] eqn:E.
    + unfold Pathlib.exists_of. rewrite (resolve_one_error _ _ E). now left.
    + now left.
Qed.

(** Under survivable errors the walk of [do_GET] ends with a list. *)
Lemma walk_survivable o : survivable o -> exists l, walk o = Ok l.
Proof.
  intros Hs. unfold walk, Pathlib.exists_.
  destruct (OS.stat o ["endpoints"]) as [e|n] eqn:E.
  - assert (I : Pathlib.ignore_error e = true).
    { unfold OS.stat in E. destruct (OS.fault o ["endpoints"]) as [e'|] eqn:F.
      - injection E as ->. destruct (proj1 Hs _ _ F) as [H|[_ H]]; [exact H|].
        now contradiction H.
      - exact (resolve_one_error _ _ E). }
    cbn [Pathlib.exists_of]. rewrite I. eauto.
  - cbn [Pathlib.exists_of]. unfold FalAIHandler.collect.
    assert (G : snd (Pathlib.glob o ["endpoints"] "**/openapi.json") = None).
    { unfold Pathlib.glob, Pathlib.select_from, Pathlib.is_dir.
      rewrite E, glob_selector. cbn [Pathlib.is_dir_of].
      destruct (OS.is_dir_node n) eqn:D; [|reflexivity].
      cbn [Pathlib.select_from_]. apply catch_benign. left. cbn [snd].
      rewrite (iterate_directories_survivable n Hs ["endpoints"] D).
      destruct (Pathlib.gen_concat _) as [l [x|]] eqn:C; [|reflexivity].
      exfalso. apply (f_equal snd) in C.
      rewrite gen_concat_quiet in C; [discriminate|].
      intros g Hg. apply in_map_iff in Hg as (sp & <- & _).
      now apply precise_survivable. }
    rewrite G. eauto.
Qed.

(** X11.  On a machine where [stat] fails only with errors that
    [pathlib] reads as "not there" or, anywhere but on [endpoints]
    itself, with refused permissions, and where reading a directory
    fails only with refused permissions, the discovery request never
    fails: the handler returns with a complete response, and the
    paths in its body are paths of the listing of the undisturbed
    tree. *)
Theorem X11_survivable_errors lib s now o hs :
  survivable o ->
  exists l,
    walk o = Ok l /\
    serve lib s now o (Request "GET" "/endpoints" hs)
    = (Ok tt, [Head (discovery_head lib now);
               Data (Json.encode (Json.dumps l))]) /\
    (forall p, In p l -> In p (listing (OS.root o))).
Proof.
  intros Hs. destruct (walk_survivable Hs) as [l Hw].
  exists l. split; [exact Hw|]. split; [rewrite serve_discovery, Hw; reflexivity|].
  intros p. now apply walk_sound.
Qed.

(** X11 on the sample directory when [endpoints/b] cannot be read: the
    description below it is left out, the other one is listed. *)
Lemma X11_survivable_errors_witness :
  survivable Sample.unreadable /\
  walk Sample.unreadable = Ok ["endpoints/a/openapi.json"] /\
  fst (serve Sample.lib httpd0 7 Sample.unreadable
             (Request "GET" "/endpoints" [])) = Ok tt.
Proof.
  assert (H : survivable Sample.unreadable).
  { split; intros p e; unfold Sample.unreadable; cbn [OS.fault OS.scandir_fault];
      [discriminate|].
    destruct (Pathlib.path_eqb p ["endpoints"; "b"]); [|discriminate].
    now intros [= <-]. }
  split; [exact H|].
  destruct (X11_survivable_errors Sample.lib httpd0 7 [] H) as (l & Hw & Hr & _).
  split; [vm_compute; reflexivity|]. now rewrite Hr.
Defined.

(* ================================================================== *)
(** * Request lines that are refused *)

(** X12.  A request line that [parse_request] refuses is not answered:
    [send_error] calls the [end_headers] of [server.py], which reads
    [self.path] before [parse_request] has assigned it.  Whatever the
    status that was to be sent, the [AttributeError] leaves the handler
    with nothing written on the connection; the accept loop prints the
    traceback and goes on with the next connection. *)
Theorem X12_refused_request_line lib s now o code message :
  FalAIHandler.__init__ lib s now o (Malformed code message)
  = (Raise (AttributeError "path"), [], s) /\
  (forall rest,
      TCPServer.shutdown_request s = false ->
      TCPServer.serve_loop (FalAIHandler.__init__ lib)
        (TCPServer.Connection now o (Malformed code message) :: rest) s
      = TCPServer.serve_loop (FalAIHandler.__init__ lib) rest
          (TCPServer.handle_error (TCPServer.record_reply s [])
                                  (AttributeError "path"))).
Proof.
  split; [now rewrite init_run|].
  intros rest Hs. cbn [TCPServer.serve_loop].
  rewrite Hs, handle_request_noblock_ok, answer_reply. reflexivity.
Qed.

(** X12 for a request line with a bad version, on the sample machine. *)
Lemma X12_refused_request_line_witness :
  TCPServer.serve_loop (FalAIHandler.__init__ Sample.lib)
    [TCPServer.Connection 7 (OS.healthy Sample.cwd)
       (Malformed 400 (Some "Bad request version ('HTTP/x')"))] httpd0
  = (TCPServer.Waiting,
     TCPServer.handle_error (TCPServer.record_reply httpd0 [])
                            (AttributeError "path")).
Proof.
  rewrite (proj2 (X12_refused_request_line Sample.lib httpd0 7
                    (OS.healthy Sample.cwd) 400
                    (Some "Bad request version ('HTTP/x')")) []);
    reflexivity.
Defined.

(* ================================================================== *)
(** * Paths with a NUL character *)

(** X13.  A GET or HEAD request whose path, once decoded, holds a NUL
    character names no directory for [os.path.isdir].  With a final
    slash it is answered 404 before the file is opened.  Without one,
    [open] raises [ValueError], which [send_head] does not catch as it
    catches [OSError]: the exception leaves the handler with nothing
    written, and the accept loop records the traceback and goes on with
    the next connection. *)
Theorem X13_nul_in_path lib s now o cmd p hs :
  Str.eqb cmd "GET" || Str.eqb cmd "HEAD" = true ->
  OS.valid (fst (SimpleHTTPRequestHandler.translate_path lib p)) = false ->
  OS.path_isdir o (fst (SimpleHTTPRequestHandler.translate_path lib p)) = false /\
  if snd (SimpleHTTPRequestHandler.translate_path lib p)
  then
    exists resp,
      fst (serve lib s now o (Request cmd p hs)) = Ok tt /\
      response_of (snd (serve lib s now o (Request cmd p hs))) = Some resp /\
      status resp = 404%N
  else
    serve lib s now o (Request cmd p hs) = (Raise ValueError, []) /\
    (forall rest,
        TCPServer.shutdown_request s = false ->
        TCPServer.serve_loop (FalAIHandler.__init__ lib)
          (TCPServer.Connection now o (Request cmd p hs) :: rest) s
        = TCPServer.serve_loop (FalAIHandler.__init__ lib) rest
            (TCPServer.handle_error (TCPServer.record_reply s []) ValueError)).
Proof.
  intros Hcmd V.
  assert (D : OS.path_isdir o (fst (SimpleHTTPRequestHandler.translate_path lib p))
              = false) by (unfold OS.path_isdir; now rewrite V).
  split; [exact D|].
  assert (Hne : Str.eqb cmd "GET" && Str.eqb p "/endpoints" = false).
  { destruct (Str.eqb p "/endpoints") eqn:E; [|apply andb_false_r].
    apply String.eqb_eq in E. subst p. rewrite translate_endpoints in V.
    discriminate V. }
  assert (R : reply lib now o (Request cmd p hs)
              = (static_outcome lib o p,
                 static_reply lib o now hs cmd p (Str.eqb cmd "GET"))).
  { cbn [reply]. destruct (Str.eqb cmd "GET").
    - cbn [andb] in Hne. now rewrite Hne.
    - cbn [orb] in Hcmd. now rewrite Hcmd. }
  pose proof (static_cases lib o now hs cmd p (Str.eqb cmd "GET")) as Hc.
  rewrite V in Hc. cbn [negb] in Hc. rewrite andb_true_r in Hc.
  destruct (snd (SimpleHTTPRequestHandler.translate_path lib p)) eqn:S;
    cbn [negb] in Hc.
  - destruct (static_reply_view lib o now hs cmd p (Str.eqb cmd "GET") Hc)
      as (resp & H1 & _ & _ & _ & _ & _ & H6).
    specialize (H6 D). rewrite S in H6. destruct H6 as [H6 _].
    exists resp. rewrite serve_run, R. cbn [fst snd]. auto.
  - destruct Hc as [Ho Hr].
    assert (E : serve lib s now o (Request cmd p hs) = (Raise ValueError, []))
      by now rewrite serve_run, R, Ho, Hr.
    split; [exact E|].
    intros rest Hs. cbn [TCPServer.serve_loop].
    rewrite Hs, handle_request_noblock_ok, answer_reply.
    rewrite serve_run in E. rewrite E. reflexivity.
Qed.

(** X13 on the sample machine, for the path [/endpoints/] followed by a
    NUL character. *)
Lemma X13_nul_in_path_witness :
  serve Sample.lib httpd0 7 (OS.healthy Sample.cwd)
        (Request "GET" Sample.nul_path [])
  = (Raise ValueError, []).
Proof.
  exact (proj1 (proj2 (X13_nul_in_path Sample.lib httpd0 7
                         (OS.healthy Sample.cwd) "GET" Sample.nul_path []
                         eq_refl eq_refl))).
Defined.
